(** * The ATA/IDE disk driver of the Q40 boot ROM (q40/ide.c, q40hw.c)

    A shallow embedding of the polling PIO driver: the wait state machine
    [gogoboot_disk_wait], the sector transfer routines, the chunked
    multi-sector orchestrator [gogoboot_disk_readwrite], the IDENTIFY name
    decoder [gogoboot_disk_read_name] and the probe
    [gogoboot_disk_table_init], together with the tick timer of q40hw.c.

    Hardware is modelled the way a recording mock register bank would see
    it: every register access is appended to a trace, and the values the
    hardware returns are drawn from input streams (the [device]).  *)

From Stdlib Require Import ZArith List Lia Bool String.
From stdpp Require Import base list.
Import ListNotations.

Local Open Scope Z_scope.

(** ** Constants of q40/ide.c *)

Definition NUM_CONTROLLERS : Z := 1.
Definition controller_base_io_addr : list Z := [0x1f0].

Definition IDE_STATUS_BUSY         : Z := 0x80.
Definition IDE_STATUS_READY        : Z := 0x40.
Definition IDE_STATUS_DEVFAULT     : Z := 0x20.
Definition IDE_STATUS_SEEKCOMPLETE : Z := 0x10.
Definition IDE_STATUS_DATAREQUEST  : Z := 0x08.
Definition IDE_STATUS_CORRECTED    : Z := 0x04.
Definition IDE_STATUS_INDEX        : Z := 0x02.
Definition IDE_STATUS_ERROR        : Z := 0x01.

Definition IDE_CMD_READ_SECTOR  : Z := 0x20.
Definition IDE_CMD_WRITE_SECTOR : Z := 0x30.
Definition IDE_CMD_FLUSH_CACHE  : Z := 0xE7.
Definition IDE_CMD_IDENTIFY     : Z := 0xEC.
Definition IDE_CMD_SET_FEATURES : Z := 0xEF.

Definition ATA_REG_DATA    : Z := 0x00.
Definition ATA_REG_ERR     : Z := 0x01.
Definition ATA_REG_NSECT   : Z := 0x02.
Definition ATA_REG_LBAL    : Z := 0x03.
Definition ATA_REG_LBAM    : Z := 0x04.
Definition ATA_REG_LBAH    : Z := 0x05.
Definition ATA_REG_DEVICE  : Z := 0x06.
Definition ATA_REG_STATUS  : Z := 0x07.
Definition ATA_REG_FEATURE : Z := ATA_REG_ERR.
Definition ATA_REG_CMD     : Z := ATA_REG_STATUS.

Definition ATA_ID_PROD         : Z := 2 * 27.
Definition ATA_ID_PROD_LEN     : Z := 40.
Definition ATA_ID_LBA_CAPACITY : Z := 2 * 60.

(** ** Data model *)

(** [disk_controller_t]: the base port and one register handle per ATA
    register.  A handle is the ISA port number of the register. *)
Record disk_controller_t := mk_controller {
  base_io       : Z;
  ctl_reg       : Z;
  altstatus_reg : Z;
  error_reg     : Z;
  feature_reg   : Z;
  nsect_reg     : Z;
  lbal_reg      : Z;
  lbam_reg      : Z;
  lbah_reg      : Z;
  device_reg    : Z;
  status_reg    : Z;
  command_reg   : Z;
  data_reg      : Z
}.

(** [disk_t]: one registry entry.  The controller is referenced by pointer in
    the C code; controllers are written once, before any entry is made, so
    the entry holds the controller's value.  The FatFs work area is opaque to
    the driver and is left out. *)
Record disk_t := mk_disk {
  disk_ctrl          : disk_controller_t;
  disk_disk          : Z;
  disk_sectors       : Z;
  disk_fat_fs_status : Z
}.

Inductive printf_arg :=
| ArgInt (z : Z)
| ArgStr (s : list Z).

(** What a recording register bank observes, in program order. *)
Inductive event :=
| In8    (port v : Z)
| Out8   (port v : Z)
| In16   (port v : Z)
| Out16  (port v : Z)
| Printf (fmt : string) (args : list printf_arg)
| DelayMs (ms : Z)
| FMount (slot : Z) (path : list Z).

(** The values the hardware hands back: the k-th read of the status
    register, of the alternate status register, of the data port, and of the
    interrupt-driven [timer_ticks] counter. *)
Record device := mk_device {
  status_in    : nat -> Z;
  altstatus_in : nat -> Z;
  data_in      : nat -> Z;
  ticks_in     : nat -> Z
}.

(** Mutable state: how far each input stream has been consumed, the trace,
    and the globals of ide.c. *)
Record world := mk_world {
  status_reads    : nat;
  altstatus_reads : nat;
  data_reads      : nat;
  tick_reads      : nat;
  trace           : list event;
  disk_controller : list disk_controller_t;
  disk_table      : list disk_t;
  disk_table_used : Z;
  gogoboot_disk_init_done : bool
}.

Definition emit (e : event) (w : world) : world :=
  mk_world (status_reads w) (altstatus_reads w) (data_reads w) (tick_reads w)
           (trace w ++ [e]) (disk_controller w) (disk_table w)
           (disk_table_used w) (gogoboot_disk_init_done w).

Definition printf (fmt : string) (args : list printf_arg) (w : world) : world :=
  emit (Printf fmt args) w.

Definition out8 (port v : Z) (w : world) : world :=
  emit (Out8 port (v mod 256)) w.

Definition out16 (port v : Z) (w : world) : world :=
  emit (Out16 port (v mod 65536)) w.

(** The memory as q40_measure_ram_size sees it: the longword that each
    storage cell holds, and the global [ram_size]. *)
Record ram_world := mk_ram {
  ram_cells : Z -> Z;
  ram_size  : Z
}.

(** The board behind q40_measure_ram_size.  MAX_RAM_SIZE and RAM_UNIT_SIZE
    are macros of q40hw.h, which is not part of the sources: they are
    parameters.  So is the bus: [ram_cell a] is the storage cell that answers
    at the address [a], if any (two addresses with the same cell mirror each
    other), and [ram_float a] is what a read finds at an address where
    nothing answers. *)
Record board := mk_board {
  MAX_RAM_SIZE  : Z;
  RAM_UNIT_SIZE : Z;
  ram_cell      : Z -> option Z;
  ram_float     : Z -> Z
}.

(** The timekeeper chip behind q40hw.c.  Q40_RTC_NVRAM(offset) and
    Q40_RTC_REGISTER(n) are macros of q40hw.h, which is not part of the
    sources, as is Q40_RTC_NVRAM_SIZE: the addresses of the byte locations of
    the chip and the size of its NVRAM are parameters.  [rtc_in k] is the
    byte that the chip delivers at its read [k], whatever the address. *)
Record timekeeper := mk_timekeeper {
  Q40_RTC_NVRAM      : Z -> Z;
  Q40_RTC_REGISTER   : Z -> Z;
  Q40_RTC_NVRAM_SIZE : Z;
  rtc_in             : nat -> Z
}.

(** The accesses to the chip so far. *)
Record rtc_world := mk_rtc {
  rtc_reads : nat;
  rtc_trace : list event
}.

(** [q40_rtc_data_t] is declared in q40hw.h; it has the seven fields that
    q40hw.c moves to and from the registers 1 to 7. *)
Record q40_rtc_data_t := mk_rtc_data {
  second  : Z;
  minute  : Z;
  hour    : Z;
  weekday : Z;
  day     : Z;
  month   : Z;
  year    : Z
}.

(** ** Buffers

    A buffer is a list of bytes, indexed from the pointer the C code holds.
    Accesses outside the buffer are undefined in C; here a load outside
    yields 0 and a store outside is dropped. *)

Definition byte_at (buf : list Z) (i : Z) : Z :=
  if i <? 0 then 0 else default 0 (buf !! Z.to_nat i).

Definition store_byte (buf : list Z) (i : Z) (v : Z) : list Z :=
  if i <? 0 then buf else <[Z.to_nat i := v mod 256]> buf.

(** The 68k is big-endian: a 16-bit access at byte offset [i] has its high
    byte at [i]. *)
Definition load16 (buf : list Z) (i : Z) : Z :=
  byte_at buf i * 256 + byte_at buf (i + 1).

Definition store16 (buf : list Z) (i : Z) (v : Z) : list Z :=
  store_byte (store_byte buf i (Z.shiftr v 8)) (i + 1) v.

Definition bswap16 (v : Z) : Z :=
  Z.lor (Z.land (Z.shiftl v 8) 0xFF00) (Z.land (Z.shiftr v 8) 0xFF).

(** The 16-bit words of a buffer, as a big-endian host loads them. *)
Fixpoint pair_words (bytes : list Z) : list Z :=
  match bytes with
  | a :: b :: rest => (a * 256 + b) :: pair_words rest
  | _ => []
  end.

(** Modelled from the spec: le32_to_cpu is a macro of a header that is not
    part of the sources; the field is a 32-bit little-endian value. *)
Definition le32_at (buf : list Z) (i : Z) : Z :=
  byte_at buf i + byte_at buf (i + 1) * 2^8
  + byte_at buf (i + 2) * 2^16 + byte_at buf (i + 3) * 2^24.

(** Modelled from the spec: ISA_XLATE_ADDR_BYTE and ISA_XLATE_ADDR_WORD are
    macros of q40/isa.h, which is not part of the sources; they map a port
    address to a register handle, here the port number itself. *)
Definition ISA_XLATE_ADDR_BYTE (port : Z) : Z := port.
Definition ISA_XLATE_ADDR_WORD (port : Z) : Z := port.

(** The register pointers that gogoboot_disk_controller_init sets up. *)
Definition controller_regs (base_io : Z) : disk_controller_t :=
  let ctl := ISA_XLATE_ADDR_BYTE (base_io + 0x206) in
  {| base_io       := base_io;
     ctl_reg       := ctl;
     altstatus_reg := ctl;
     error_reg     := ISA_XLATE_ADDR_BYTE (base_io + ATA_REG_ERR);
     feature_reg   := ISA_XLATE_ADDR_BYTE (base_io + ATA_REG_FEATURE);
     nsect_reg     := ISA_XLATE_ADDR_BYTE (base_io + ATA_REG_NSECT);
     lbal_reg      := ISA_XLATE_ADDR_BYTE (base_io + ATA_REG_LBAL);
     lbam_reg      := ISA_XLATE_ADDR_BYTE (base_io + ATA_REG_LBAM);
     lbah_reg      := ISA_XLATE_ADDR_BYTE (base_io + ATA_REG_LBAH);
     device_reg    := ISA_XLATE_ADDR_BYTE (base_io + ATA_REG_DEVICE);
     status_reg    := ISA_XLATE_ADDR_BYTE (base_io + ATA_REG_STATUS);
     command_reg   := ISA_XLATE_ADDR_BYTE (base_io + ATA_REG_CMD);
     data_reg      := ISA_XLATE_ADDR_WORD (base_io + ATA_REG_DATA) |}.

(** An entry of the statically allocated (zero-initialised) arrays. *)
Definition controller_zero : disk_controller_t :=
  mk_controller 0 0 0 0 0 0 0 0 0 0 0 0 0.
Definition disk_zero : disk_t := mk_disk controller_zero 0 0 0.

(** ** Observers of the trace *)

(** The events appended to the trace between two states. *)
Definition events_since (w w' : world) : list event :=
  drop (length (trace w)) (trace w').

(** Polling leaves only byte reads and log lines behind. *)
Definition is_poll_event (e : event) : bool :=
  match e with
  | In8 _ _ | Printf _ _ => true
  | _ => false
  end.

(** A register access, as opposed to a log line, a delay or a mount. *)
Definition is_register_access (e : event) : bool :=
  match e with
  | In8 _ _ | Out8 _ _ | In16 _ _ | Out16 _ _ => true
  | _ => false
  end.

Definition out8_writes (evs : list event) : list (Z * Z) :=
  flat_map (fun e => match e with Out8 p v => [(p, v)] | _ => [] end) evs.

Definition out16_values (evs : list event) : list Z :=
  flat_map (fun e => match e with Out16 _ v => [v] | _ => [] end) evs.

Definition in16_values (evs : list event) : list Z :=
  flat_map (fun e => match e with In16 _ v => [v] | _ => [] end) evs.

Definition same_globals (w w' : world) : Prop :=
  disk_controller w' = disk_controller w /\
  disk_table w' = disk_table w /\
  disk_table_used w' = disk_table_used w /\
  gogoboot_disk_init_done w' = gogoboot_disk_init_done w.

(** ** q40_measure_ram_size (q40hw.c) *)

(** [(uint32_t* )(unit * RAM_UNIT_SIZE - sizeof(uint32_t))] *)
Definition UNIT_ADDRESS (b : board) (unit : Z) : Z :=
  (unit * RAM_UNIT_SIZE b - 4) mod 2^32.

(** [(uint32_t)(unit | ((~unit) << 16))] *)
Definition UNIT_TEST_VALUE (unit : Z) : Z :=
  Z.lor unit (Z.shiftl (Z.lnot unit) 16) mod 2^32.

(** A longword store and load; a store where nothing answers is lost. *)
Definition store32 (b : board) (addr v : Z) (w : ram_world) : ram_world :=
  match ram_cell b addr with
  | Some c => mk_ram (fun c' => if c' =? c then v mod 2^32 else ram_cells w c')
                     (ram_size w)
  | None => w
  end.

Definition load32 (b : board) (addr : Z) (w : ram_world) : Z :=
  match ram_cell b addr with
  | Some c => ram_cells w c mod 2^32
  | None => ram_float b addr mod 2^32
  end.

Definition set_ram_size (v : Z) (w : ram_world) : ram_world :=
  mk_ram (ram_cells w) (v mod 2^32).

(** [for(int unit=MAX_RAM_SIZE; unit > 0; unit--)]; [n] bounds the turns,
    the caller passes MAX_RAM_SIZE, which is enough. *)
Fixpoint write_units (b : board) (n : nat) (unit : Z) (w : ram_world)
    : ram_world :=
  if 0 <? unit then
    match n with
    | O => w
    | S n' =>
        write_units b n' (unit - 1)
          (store32 b (UNIT_ADDRESS b unit) (UNIT_TEST_VALUE unit) w)
    end
  else w.

(** [for(int unit=1; unit<=MAX_RAM_SIZE; unit++)] with its [break]. *)
Fixpoint read_units (b : board) (n : nat) (unit : Z) (w : ram_world)
    : ram_world :=
  if unit <=? MAX_RAM_SIZE b then
    match n with
    | O => w
    | S n' =>
        if load32 b (UNIT_ADDRESS b unit) w =? UNIT_TEST_VALUE unit
        then read_units b n' (unit + 1)
               (set_ram_size (unit * RAM_UNIT_SIZE b) w)
        else w
    end
  else w.

Definition q40_measure_ram_size (b : board) (w : ram_world) : ram_world :=
  let w := set_ram_size 0 w in
  let w := write_units b (Z.to_nat (MAX_RAM_SIZE b)) (MAX_RAM_SIZE b) w in
  read_units b (Z.to_nat (MAX_RAM_SIZE b)) 1 w.

(** [backs b u c]: the test longword of unit [u] lives in the cell [c]. *)
Definition backs (b : board) (u c : Z) : bool :=
  match ram_cell b (UNIT_ADDRESS b u) with
  | Some c' => c' =? c
  | None => false
  end.

(** The units 1, ..., [n]. *)
Definition units (n : nat) : list Z := map Z.of_nat (seq 1 n).

(** The lowest of the units 1, ..., [n] whose test longword lives in the
    cell [c]. *)
Definition lowest_unit (b : board) (c : Z) (n : nat) : option Z :=
  List.find (fun u => backs b u c) (units n).

(** [unit_answers b u]: reading the test longword of unit [u] after the
    writes gives its test value back.  A unit that a cell backs answers when
    no lower unit shares that cell; a unit that nothing backs answers only
    if the floating bus happens to show its test value. *)
Definition unit_answers (b : board) (u : Z) : bool :=
  match ram_cell b (UNIT_ADDRESS b u) with
  | Some c => negb (existsb (fun u' => backs b u' c) (units (Z.to_nat u - 1)))
  | None => ram_float b (UNIT_ADDRESS b u) mod 2^32 =? UNIT_TEST_VALUE u
  end.

(** ** The timekeeper (q40hw.c) *)

(** A byte read and a byte write of a location of the chip. *)
Definition rtc_read (t : timekeeper) (addr : Z) (w : rtc_world)
    : Z * rtc_world :=
  let v := rtc_in t (rtc_reads w) mod 256 in
  (v, mk_rtc (S (rtc_reads w)) (rtc_trace w ++ [In8 addr v])).

Definition rtc_write (addr v : Z) (w : rtc_world) : rtc_world :=
  mk_rtc (rtc_reads w) (rtc_trace w ++ [Out8 addr (v mod 256)]).

Definition q40_rtc_read_nvram (t : timekeeper) (offset : Z) (w : rtc_world)
    : Z * rtc_world :=
  if (0 <=? offset) && (offset <? Q40_RTC_NVRAM_SIZE t)
  then rtc_read t (Q40_RTC_NVRAM t offset) w
  else (0xff, w).

Definition q40_rtc_write_nvram (t : timekeeper) (offset value : Z)
    (w : rtc_world) : rtc_world :=
  if (0 <=? offset) && (offset <? Q40_RTC_NVRAM_SIZE t)
  then rtc_write (Q40_RTC_NVRAM t offset) value w
  else w.

Definition q40_rtc_read_control (t : timekeeper) (w : rtc_world)
    : Z * rtc_world :=
  rtc_read t (Q40_RTC_REGISTER t 0) w.

Definition q40_rtc_write_control (t : timekeeper) (value : Z) (w : rtc_world)
    : rtc_world :=
  rtc_write (Q40_RTC_REGISTER t 0) value w.

Definition q40_rtc_read_clock (t : timekeeper) (w : rtc_world)
    : q40_rtc_data_t * rtc_world :=
  let '(ctrl, w) := q40_rtc_read_control t w in
  let w := q40_rtc_write_control t (Z.lor ctrl 0x40) w in
  let '(second, w) := rtc_read t (Q40_RTC_REGISTER t 1) w in
  let '(minute, w) := rtc_read t (Q40_RTC_REGISTER t 2) w in
  let '(hour, w) := rtc_read t (Q40_RTC_REGISTER t 3) w in
  let '(weekday, w) := rtc_read t (Q40_RTC_REGISTER t 4) w in
  let '(day, w) := rtc_read t (Q40_RTC_REGISTER t 5) w in
  let '(month, w) := rtc_read t (Q40_RTC_REGISTER t 6) w in
  let '(year, w) := rtc_read t (Q40_RTC_REGISTER t 7) w in
  let w := q40_rtc_write_control t (Z.land ctrl (Z.lnot 0xC0)) w in
  (mk_rtc_data second minute hour weekday day month year, w).

Definition q40_rtc_write_clock (t : timekeeper) (buffer : q40_rtc_data_t)
    (w : rtc_world) : rtc_world :=
  let '(ctrl, w) := q40_rtc_read_control t w in
  let w := q40_rtc_write_control t (Z.lor ctrl 0x80) w in
  let w := rtc_write (Q40_RTC_REGISTER t 1) (second buffer) w in
  let w := rtc_write (Q40_RTC_REGISTER t 2) (minute buffer) w in
  let w := rtc_write (Q40_RTC_REGISTER t 3) (hour buffer) w in
  let w := rtc_write (Q40_RTC_REGISTER t 4) (weekday buffer) w in
  let w := rtc_write (Q40_RTC_REGISTER t 5) (day buffer) w in
  let w := rtc_write (Q40_RTC_REGISTER t 6) (month buffer) w in
  let w := rtc_write (Q40_RTC_REGISTER t 7) (year buffer) w in
  q40_rtc_write_control t (Z.land ctrl (Z.lnot 0xC0)) w.

(** [memcmp] of two values of the structure: the bytes differ when a field
    does. *)
Definition rtc_data_eqb (a b : q40_rtc_data_t) : bool :=
  (second a =? second b) && (minute a =? minute b) && (hour a =? hour b)
  && (weekday a =? weekday b) && (day a =? day b) && (month a =? month b)
  && (year a =? year b).

(** The must-be-zero bits of the timekeeper registers, cleared. *)
Definition rtc_masked (d : q40_rtc_data_t) : q40_rtc_data_t :=
  {| second  := Z.land (second d) 0x7F;
     minute  := Z.land (minute d) 0x7F;
     hour    := Z.land (hour d) 0x3F;
     weekday := Z.land (weekday d) 0x07;
     day     := Z.land (day d) 0x3F;
     month   := Z.land (month d) 0x1F;
     year    := year d |}.

Definition q40_rtc_init (t : timekeeper) (w : rtc_world) : rtc_world :=
  let '(data_prev, w) := q40_rtc_read_clock t w in
  let data := rtc_masked data_prev in
  if rtc_data_eqb data data_prev then w else q40_rtc_write_clock t data w.

(** The byte that the chip delivers at its read [k]. *)
Definition rtc_at (t : timekeeper) (k : nat) : Z := rtc_in t k mod 256.

(** The events appended to the trace of the chip between two states. *)
Definition rtc_events_since (w w' : rtc_world) : list event :=
  drop (length (rtc_trace w)) (rtc_trace w').

(** The byte that the last access to [addr] in [evs], a read or a write,
    found or left there. *)
Fixpoint last_access (addr : Z) (evs : list event) : option Z :=
  match evs with
  | [] => None
  | e :: rest =>
      match last_access addr rest with
      | Some v => Some v
      | None =>
          match e with
          | In8 p v | Out8 p v => if p =? addr then Some v else None
          | _ => None
          end
      end
  end.

(** [remembers seen evs]: in [evs], coming after [seen], the chip behaves as
    a memory does: a read of a location that was accessed before finds the
    byte of the last access. *)
Fixpoint remembers (seen evs : list event) : bool :=
  match evs with
  | [] => true
  | In8 p v :: rest =>
      match last_access p seen with
      | Some x => v =? x
      | None => true
      end && remembers (seen ++ [In8 p v]) rest
  | e :: rest => remembers (seen ++ [e]) rest
  end.

(** The registers 0 to 7 lie at eight addresses. *)
Definition registers_apart (t : timekeeper) : Prop :=
  forall i j, 0 <= i <= 7 -> 0 <= j <= 7 ->
    Q40_RTC_REGISTER t i = Q40_RTC_REGISTER t j -> i = j.

Definition rtc_bytes (d : q40_rtc_data_t) : Prop :=
  0 <= second d < 256 /\ 0 <= minute d < 256 /\ 0 <= hour d < 256 /\
  0 <= weekday d < 256 /\ 0 <= day d < 256 /\ 0 <= month d < 256 /\
  0 <= year d < 256.

(** ** Fixtures: a controller, a registry and some mock devices *)

Definition ctrl0 : disk_controller_t := controller_regs 0x1f0.

Definition w_empty : world := mk_world 0 0 0 0 [] [] [] 0 false.

(** Two disks registered on the controller: master and slave. *)
Definition w_two : world :=
  mk_world 0 0 0 0 [] [ctrl0]
           [mk_disk ctrl0 0 1000000 1; mk_disk ctrl0 1 1000000 1] 2 true.

(** Ready, data requested, whenever polled; the data port counts up. *)
Definition dev_ready : device :=
  mk_device (fun _ => 0x58) (fun _ => 0x58) (fun k => Z.of_nat k)
            (fun k => Z.of_nat k).

(** Ready but never requesting data; 300 ticks pass between two reads of
    the tick counter. *)
Definition dev_no_drq : device :=
  mk_device (fun _ => 0x50) (fun _ => 0x50) (fun _ => 0)
            (fun k => 300 * Z.of_nat k).

(** Busy for ever, with the same clock. *)
Definition dev_busy : device :=
  mk_device (fun _ => 0x80) (fun _ => 0x80) (fun _ => 0)
            (fun k => 300 * Z.of_nat k).

(** Busy at the first poll, ready at the second. *)
Definition dev_slow : device :=
  mk_device (fun k => match k with O => 0x80 | _ => 0x50 end)
            (fun _ => 0x50) (fun _ => 0) (fun k => Z.of_nat k).

(** A floating bus: every read yields 0. *)
Definition dev_floating : device :=
  mk_device (fun _ => 0) (fun _ => 0) (fun _ => 0) (fun k => Z.of_nat k).

(** A sector with the bytes 0, 1, ..., 255, 0, 1, ... *)
Definition sample_sector : list Z :=
  map (fun i => Z.of_nat i mod 256) (seq 0 512).

(** A device whose data port hands back the words that writing
    [sample_sector] put on it. *)
Definition dev_echo : device :=
  mk_device (fun _ => 0x58) (fun _ => 0x58)
            (fun k => nth k (map bswap16 (pair_words sample_sector)) 0)
            (fun k => Z.of_nat k).

(** A device that is ready and whose IDENTIFY page is all zero. *)
Definition dev_no_lba : device :=
  mk_device (fun _ => 0x58) (fun _ => 0x58) (fun _ => 0)
            (fun k => Z.of_nat k).

(** A device that is ready and whose IDENTIFY page, delivered again for
    every 256 words, reports LBA support and 1000000 sectors. *)
Definition dev_lba : device :=
  mk_device (fun _ => 0x58) (fun _ => 0x58)
            (fun k => if Nat.eqb (k mod 256) 49 then 0x0200
                      else if Nat.eqb (k mod 256) 60 then 0x4240
                      else if Nat.eqb (k mod 256) 61 then 0x000F
                      else 0x2020)
            (fun k => Z.of_nat k).

(** The state at boot: four free slots in the registry, nothing done. *)
Definition w_boot : world :=
  mk_world 0 0 0 0 [] [controller_zero] (repeat disk_zero 4) 0 false.

(** A tick counter that is about to wrap: 0xFFFFFFFF at its first read and
    two ticks more at each further read. *)
Definition dev_wrap : device :=
  mk_device (fun _ => 0x80) (fun _ => 0x80) (fun _ => 0)
            (fun k => 0xFFFFFFFF + 2 * Z.of_nat k).

(** A board that decodes 32 units of 1 MB and has 16 of them fitted, the
    memory answering again at every multiple of 16 MB. *)
Definition board_16mb : board :=
  mk_board 32 (2^20) (fun a => Some (a mod (16 * 2^20))) (fun _ => 0).

Definition ram_zero : ram_world := mk_ram (fun _ => 0) 0.

(** A timekeeper with 2040 bytes of NVRAM below its eight registers, which
    delivers the bytes of [l] at its reads. *)
Definition chip (l : list Z) : timekeeper :=
  mk_timekeeper (fun o => o) (fun n => 2040 + n) 2040 (fun k => nth k l 0).

Definition rtc_empty : rtc_world := mk_rtc 0 [].

(** 23:59:30 on Friday 31 December 99, in the BCD of the chip. *)
Definition sample_clock : q40_rtc_data_t :=
  mk_rtc_data 0x30 0x59 0x23 0x05 0x31 0x12 0x99.

(** What a chip that remembers delivers while the clock is written and read
    back: the control byte, what was left of it, and the clock. *)
Definition chip_clock : timekeeper :=
  chip [0x00; 0x00; 0x30; 0x59; 0x23; 0x05; 0x31; 0x12; 0x99].

(** The same chip found with READ set, the oscillator stopped and the clock
    at [sample_clock]: what it delivers while the clock is initialised and
    read again. *)
Definition chip_stopped : timekeeper :=
  chip [0x45; 0xB0; 0x59; 0x23; 0x05; 0x31; 0x12; 0x99;
        0x05;
        0x05; 0x30; 0x59; 0x23; 0x05; 0x31; 0x12; 0x99].

Section Driver.

(** The hardware behind the register bank and the build configuration. *)
Variable dev : device.
Variable TIMER_HZ : Z.
Variable MAX_IDE_DISKS : Z.
Variable STA_NOINIT : Z.

(** ** Register and timer reads *)

Definition in_status (ctrl : disk_controller_t) (w : world) : Z * world :=
  let v := status_in dev (status_reads w) mod 256 in
  (v, mk_world (S (status_reads w)) (altstatus_reads w) (data_reads w)
               (tick_reads w) (trace w ++ [In8 (status_reg ctrl) v])
               (disk_controller w) (disk_table w) (disk_table_used w)
               (gogoboot_disk_init_done w)).

Definition in_altstatus (ctrl : disk_controller_t) (w : world) : Z * world :=
  let v := altstatus_in dev (altstatus_reads w) mod 256 in
  (v, mk_world (status_reads w) (S (altstatus_reads w)) (data_reads w)
               (tick_reads w) (trace w ++ [In8 (altstatus_reg ctrl) v])
               (disk_controller w) (disk_table w) (disk_table_used w)
               (gogoboot_disk_init_done w)).

Definition in_data (ctrl : disk_controller_t) (w : world) : Z * world :=
  let v := data_in dev (data_reads w) mod 65536 in
  (v, mk_world (status_reads w) (altstatus_reads w) (S (data_reads w))
               (tick_reads w) (trace w ++ [In16 (data_reg ctrl) v])
               (disk_controller w) (disk_table w) (disk_table_used w)
               (gogoboot_disk_init_done w)).

(** q40hw.c *)
Definition q40_read_timer_ticks (w : world) : Z * world :=
  let v := ticks_in dev (tick_reads w) mod 2^32 in
  (v, mk_world (status_reads w) (altstatus_reads w) (data_reads w)
               (S (tick_reads w)) (trace w)
               (disk_controller w) (disk_table w) (disk_table_used w)
               (gogoboot_disk_init_done w)).

Definition set_timer_ticks (duration_ticks : Z) (w : world) : Z * world :=
  let '(duration_ticks, w) :=
    if duration_ticks =? 0 then (1, w)
    else if negb (Z.land duration_ticks 0x80000000 =? 0) then
      (0x7fffffff,
       printf "bad timer duration %ld\n" [ArgInt duration_ticks] w)
    else (duration_ticks, w) in
  let '(now, w) := q40_read_timer_ticks w in
  ((now + duration_ticks) mod 2^32, w).

(** [timer - now] is a uint32_t subtraction; the result is its top bit. *)
Definition timer_expired_at (timer now : Z) : bool :=
  negb (Z.land ((timer - now) mod 2^32) 0x80000000 =? 0).

Definition timer_expired (timer : Z) (w : world) : bool * world :=
  let '(now, w) := q40_read_timer_ticks w in
  (timer_expired_at timer now, w).

(** Modelled from the spec: set_timer_sec is a macro of q40hw.h, which is
    not part of the sources; a deadline of [sec] seconds is [sec * TIMER_HZ]
    ticks from now. *)
Definition set_timer_sec (sec : Z) (w : world) : Z * world :=
  set_timer_ticks ((sec * TIMER_HZ) mod 2^32) w.

(** ** gogoboot_disk_wait *)

(** The two tests of the polling loop, in the order the loop makes them. *)
Definition wait_success (bits status : Z) : bool :=
  Z.land status (Z.lor (Z.lor IDE_STATUS_BUSY IDE_STATUS_ERROR) bits) =? bits.

Definition wait_error (status : Z) : bool :=
  (Z.land status (Z.lor IDE_STATUS_BUSY IDE_STATUS_ERROR) =? IDE_STATUS_ERROR)
  || (status =? 0x00) || (status =? 0xFF).

(** The do-while loop.  [fuel] bounds the number of polls; [None] means the
    loop is still polling when the fuel is gone. *)
Fixpoint wait_loop (fuel : nat) (ctrl : disk_controller_t) (bits timeout : Z)
    (w : world) : option (bool * world) :=
  match fuel with
  | O => None
  | S fuel' =>
      let '(status, w) := in_status ctrl w in
      if wait_success bits status then Some (true, w)
      else if wait_error status then Some (false, w)
      else
        let '(expired, w) := timer_expired timeout w in
        if expired then
          Some (false, printf "IDE timeout, status=%x\n" [ArgInt status] w)
        else wait_loop fuel' ctrl bits timeout w
  end.

Definition gogoboot_disk_wait (fuel : nat) (ctrl : disk_controller_t)
    (bits : Z) (w : world) : option (bool * world) :=
  let '(_, w) := in_altstatus ctrl w in
  let '(timeout, w) := set_timer_sec 3 w in
  wait_loop fuel ctrl bits timeout w.

(** ** Sector transfer *)

Fixpoint read_words (n : nat) (ctrl : disk_controller_t) (buf : list Z)
    (buffer : Z) (w : world) : list Z * world :=
  match n with
  | O => (buf, w)
  | S n' =>
      let '(v, w) := in_data ctrl w in
      read_words n' ctrl (store16 buf buffer (bswap16 v)) (buffer + 2) w
  end.

(** [ptr] is the byte offset of the destination inside [buf]. *)
Definition gogoboot_disk_read_sector_data (ctrl : disk_controller_t)
    (buf : list Z) (ptr : Z) (w : world) : list Z * world :=
  read_words 256 ctrl buf ptr w.

Fixpoint write_words (n : nat) (ctrl : disk_controller_t) (buf : list Z)
    (buffer : Z) (w : world) : world :=
  match n with
  | O => w
  | S n' =>
      write_words n' ctrl buf (buffer + 2)
        (out16 (data_reg ctrl) (bswap16 (load16 buf buffer)) w)
  end.

Definition gogoboot_disk_write_sector_data (ctrl : disk_controller_t)
    (buf : list Z) (ptr : Z) (w : world) : world :=
  write_words 256 ctrl buf ptr w.

Definition gogoboot_disk_get_disk_count (w : world) : Z := disk_table_used w.

(** ** gogoboot_disk_readwrite *)

(** The inner loop, one iteration per sector of the chunk.  [n] bounds the
    iterations; the caller passes the chunk size, which is enough. *)
Fixpoint rw_sectors (n fuel : nat) (ctrl : disk_controller_t) (is_write : bool)
    (buf : list Z) (buff nsect : Z) (w : world)
    : option (bool * list Z * Z * world) :=
  if 0 <? nsect then
    match n with
    | O => None
    | S n' =>
        match gogoboot_disk_wait fuel ctrl IDE_STATUS_DATAREQUEST w with
        | None => None
        | Some (false, w) => Some (false, buf, buff, w)
        | Some (true, w) =>
            let '(buf, w) :=
              if is_write
              then (buf, gogoboot_disk_write_sector_data ctrl buf buff w)
              else gogoboot_disk_read_sector_data ctrl buf buff w in
            rw_sectors n' fuel ctrl is_write buf (buff + 512) (nsect - 1) w
        end
    end
  else Some (true, buf, buff, w).

(** The outer loop, one iteration per command.  [sector] is a uint32_t and
    wraps; [sector_count] is a (positive, decreasing) int. *)
Fixpoint rw_chunks (n fuel : nat) (disk : disk_t) (is_write : bool)
    (buf : list Z) (buff sector sector_count : Z) (w : world)
    : option (bool * list Z * world) :=
  if 0 <? sector_count then
    match n with
    | O => None
    | S n' =>
        let ctrl := disk_ctrl disk in
        let w := out8 (device_reg ctrl)
                   (Z.lor (Z.land (Z.shiftr sector 24) 0x0F)
                          (if disk_disk disk =? 0 then 0xE0 else 0xF0)) w in
        let w := out8 (lbah_reg ctrl) (Z.land (Z.shiftr sector 16) 0xFF) w in
        let w := out8 (lbam_reg ctrl) (Z.land (Z.shiftr sector 8) 0xFF) w in
        let w := out8 (lbal_reg ctrl) (Z.land sector 0xFF) w in
        let nsect := if 256 <=? sector_count then 256 else sector_count in
        let sector_count := sector_count - nsect in
        let sector := (sector + nsect) mod 2^32 in
        let w := out8 (nsect_reg ctrl) (if nsect =? 256 then 0 else nsect) w in
        match gogoboot_disk_wait fuel ctrl IDE_STATUS_READY w with
        | None => None
        | Some (false, w) => Some (false, buf, w)
        | Some (true, w) =>
            let w := out8 (command_reg ctrl)
                       (if is_write then IDE_CMD_WRITE_SECTOR
                        else IDE_CMD_READ_SECTOR) w in
            match rw_sectors (Z.to_nat nsect) fuel ctrl is_write
                             buf buff nsect w with
            | None => None
            | Some (false, buf, _, w) => Some (false, buf, w)
            | Some (true, buf, buff, w) =>
                rw_chunks n' fuel disk is_write buf buff sector sector_count w
            end
        end
    end
  else Some (true, buf, w).

(** [buf] is the caller's buffer, [buff] pointing at its first byte.  The
    result carries the buffer as the call leaves it. *)
Definition gogoboot_disk_readwrite (fuel : nat) (disknr : Z) (buf : list Z)
    (sector sector_count : Z) (is_write : bool) (w : world)
    : option (bool * list Z * world) :=
  if (disknr <? 0) || (disk_table_used w <=? disknr) then
    Some (false, buf, printf "bad disk %d\n" [ArgInt disknr] w)
  else
    let disk := default disk_zero (disk_table w !! Z.to_nat disknr) in
    rw_chunks (Z.to_nat sector_count) fuel disk is_write buf 0
              sector sector_count w.

Definition gogoboot_disk_read (fuel : nat) (disknr : Z) (buf : list Z)
    (sector sector_count : Z) (w : world) :=
  gogoboot_disk_readwrite fuel disknr buf sector sector_count false w.

Definition gogoboot_disk_write (fuel : nat) (disknr : Z) (buf : list Z)
    (sector sector_count : Z) (w : world) :=
  gogoboot_disk_readwrite fuel disknr buf sector sector_count true w.

(** ** gogoboot_disk_read_name *)

(** Modelled from the spec: strlen comes from the ROM's C library, which is
    not part of the sources; it counts the bytes before the first NUL. *)
Fixpoint strlen (buf : list Z) : nat :=
  match buf with
  | [] => O
  | c :: rest => if c =? 0 then O else S (strlen rest)
  end.

(** The copy loop [for(rem=len; rem>0; rem-=2)]; [s] is the offset of the
    write pointer inside [buffer].  [n] bounds the iterations; the caller
    passes [len], which is enough. *)
Fixpoint read_name_loop (n : nat) (id buffer : list Z) (s offset rem : Z)
    : list Z * Z :=
  if 0 <? rem then
    match n with
    | O => (buffer, s)
    | S n' =>
        let buffer := store_byte buffer s (byte_at id (offset + 1)) in
        let buffer := store_byte buffer (s + 1) (byte_at id offset) in
        read_name_loop n' id buffer (s + 2) (offset + 2) (rem - 2)
    end
  else (buffer, s).

(** [while(s > buffer && s[-1] == ' ') s--;] with [s] an offset. *)
Fixpoint rtrim_loop (buffer : list Z) (s : nat) : nat :=
  match s with
  | O => O
  | S s' => if byte_at buffer (Z.of_nat s') =? 32 then rtrim_loop buffer s'
            else s
  end.

Definition gogoboot_disk_read_name (id buffer : list Z) (offset len : Z)
    : list Z :=
  let '(buffer, s) := read_name_loop (Z.to_nat len) id buffer 0 offset len in
  let buffer := store_byte buffer s 0 in
  let s := rtrim_loop buffer (strlen buffer) in
  store_byte buffer (Z.of_nat s) 0.

(** ** Probing and initialisation *)

Definition set_disk_table (t : list disk_t) (used : Z) (w : world) : world :=
  mk_world (status_reads w) (altstatus_reads w) (data_reads w) (tick_reads w)
           (trace w) (disk_controller w) t used (gogoboot_disk_init_done w).

Definition delay_ms (ms : Z) (w : world) : world := emit (DelayMs ms) w.

Definition gogoboot_disk_controller_reset (ctrl : disk_controller_t)
    (w : world) : world :=
  let w := printf "IDE reset controller at 0x%x:" [ArgInt (base_io ctrl)] w in
  let w := out8 (device_reg ctrl) 0xE0 w in
  let w := out8 (ctl_reg ctrl) 0x06 w in
  let w := delay_ms 100 w in
  let w := out8 (ctl_reg ctrl) 0x02 w in
  let w := delay_ms 50 w in
  printf " done\n" [] w.

(** [buffer] and [prod] are the initial contents of the two local arrays
    (512 and 41 bytes). *)
Definition gogoboot_disk_table_init (fuel : nat) (ctrl : disk_controller_t)
    (disk : Z) (buffer prod : list Z) (w : world) : option world :=
  let w := printf "IDE probe 0x%x disk %d: "
             [ArgInt (base_io ctrl); ArgInt disk] w in
  match (if disk =? 0 then Some 0xE0
         else if disk =? 1 then Some 0xF0 else None) with
  | None => Some (printf "bad disk %d?\n" [ArgInt disk] w)
  | Some sel =>
      let w := out8 (device_reg ctrl) sel w in
      match gogoboot_disk_wait fuel ctrl IDE_STATUS_READY w with
      | None => None
      | Some (false, w) => Some (printf "no disk found.\n" [] w)
      | Some (true, w) =>
          let w := out8 (command_reg ctrl) IDE_CMD_IDENTIFY w in
          match gogoboot_disk_wait fuel ctrl IDE_STATUS_DATAREQUEST w with
          | None => None
          | Some (false, w) => Some (printf "disk not responding.\n" [] w)
          | Some (true, w) =>
              let '(buffer, w) :=
                gogoboot_disk_read_sector_data ctrl buffer 0 w in
              if Z.land (byte_at buffer 99) 0x02 =? 0 then
                Some (printf "LBA not supported.\n" [] w)
              else
                let sectors := le32_at buffer ATA_ID_LBA_CAPACITY in
                let prod := gogoboot_disk_read_name buffer prod
                              ATA_ID_PROD ATA_ID_PROD_LEN in
                let w := printf "%s (%lu sectors, %lu MB)\n"
                           [ArgStr (take (strlen prod) prod); ArgInt sectors;
                            ArgInt (Z.shiftr sectors 11)] w in
                if MAX_IDE_DISKS <=? disk_table_used w then
                  Some (printf "Max disks reached\n" [] w)
                else
                  let used := disk_table_used w in
                  let t := <[Z.to_nat used :=
                               mk_disk ctrl disk sectors STA_NOINIT]>
                             (disk_table w) in
                  let path := [(48 + used) mod 256; 58; 0] in
                  let w := emit (FMount used path) (set_disk_table t used w) in
                  Some (set_disk_table (disk_table w) (used + 1) w)
          end
      end
  end.

Definition set_disk_controller (i : nat) (ctrl : disk_controller_t)
    (w : world) : world :=
  mk_world (status_reads w) (altstatus_reads w) (data_reads w) (tick_reads w)
           (trace w) (<[i := ctrl]> (disk_controller w)) (disk_table w)
           (disk_table_used w) (gogoboot_disk_init_done w).

(** [i] is the slot of [disk_controller] that the pointer [ctrl] designates;
    [stack] gives the initial contents of the locals of each probe. *)
Definition gogoboot_disk_controller_init (fuel : nat) (i : nat) (base_io : Z)
    (stack : list Z * list Z) (w : world) : option world :=
  let ctrl := controller_regs base_io in
  let w := set_disk_controller i ctrl w in
  let w := gogoboot_disk_controller_reset ctrl w in
  match gogoboot_disk_table_init fuel ctrl 0 (fst stack) (snd stack) w with
  | None => None
  | Some w => gogoboot_disk_table_init fuel ctrl 1 (fst stack) (snd stack) w
  end.

Definition set_init_done (w : world) : world :=
  mk_world (status_reads w) (altstatus_reads w) (data_reads w) (tick_reads w)
           (trace w) (disk_controller w) (disk_table w) (disk_table_used w)
           true.

(** NUM_CONTROLLERS is 1: the loop over controllers has a single turn. *)
Definition gogoboot_disk_init (fuel : nat) (stack : list Z * list Z)
    (w : world) : option world :=
  if gogoboot_disk_init_done w then
    Some (printf "gogoboot_disk_init: already done?\n" [] w)
  else
    let w := set_init_done w in
    gogoboot_disk_controller_init
      fuel 0 (default 0 (controller_base_io_addr !! O)) stack w.

Definition gogoboot_get_disk_info (nr : Z) (w : world) : option disk_t :=
  if (nr <? 0) || (gogoboot_disk_get_disk_count w <=? nr) then None
  else Some (default disk_zero (disk_table w !! Z.to_nat nr)).

(** ** timer_wait (q40hw.c) *)

(** [while(!timer_expired(timeout));]  [fuel] bounds the reads of the tick
    counter; [None] means that the loop is still waiting when the fuel is
    gone. *)
Fixpoint timer_wait (fuel : nat) (timeout : Z) (w : world) : option world :=
  match fuel with
  | O => None
  | S fuel' =>
      let '(expired, w) := timer_expired timeout w in
      if expired then Some w else timer_wait fuel' timeout w
  end.

(** * Vocabulary of the properties *)

(** The value that the driver gets at read [i] of the status register and
    of the tick counter. *)
Definition status_at (i : nat) : Z := status_in dev i mod 256.
Definition ticks_at (i : nat) : Z := ticks_in dev i mod 2^32.

(** The status reads of [k] polls starting at read [n]. *)
Definition polls (ctrl : disk_controller_t) (n k : nat) : list event :=
  map (fun i => In8 (status_reg ctrl) (status_at i)) (seq n k).

Local Arguments polls : simpl never.

(** What any finished run of the loop leaves behind. *)
Definition wait_post (bits : Z) (w : world) (b : bool) (w' : world) : Prop :=
  (status_reads w < status_reads w')%nat /\
  b = wait_success bits (status_at (status_reads w' - 1)) /\
  (forall i, (status_reads w <= i)%nat -> (i < status_reads w' - 1)%nat ->
     wait_success bits (status_at i) = false /\
     wait_error (status_at i) = false) /\
  (exists evs, trace w' = trace w ++ evs /\ forallb is_poll_event evs = true) /\
  data_reads w' = data_reads w /\
  same_globals w w'.

(** The duration that set_timer_ticks really adds. *)
Definition timer_duration (d : Z) : Z :=
  if d =? 0 then 1
  else if Z.land d 0x80000000 =? 0 then d else 0x7fffffff.

(** The deadline of a wait that reads the tick counter at read [n]. *)
Definition deadline (n : nat) : Z :=
  (ticks_at n + timer_duration ((3 * TIMER_HZ) mod 2^32)) mod 2^32.

(** A value that fits a byte of a buffer. *)
Definition is_byte (b : Z) : Prop := 0 <= b < 256.

(** The two bytes a big-endian host stores for a word. *)
Definition bytes_of_word (v : Z) : list Z := [Z.shiftr v 8 mod 256; v mod 256].

(** The word that the driver gets at read [i] of the data port. *)
Definition data_at (i : nat) : Z := data_in dev i mod 65536.

(** The bytes of a field with each pair exchanged. *)
Fixpoint swap_pairs (l : list Z) : list Z :=
  match l with
  | a :: b :: rest => b :: a :: swap_pairs rest
  | _ => []
  end.

(** The C string held in a buffer: the bytes before the first NUL. *)
Definition c_string (buf : list Z) : list Z := take (strlen buf) buf.

(** A string without its trailing spaces. *)
Fixpoint strip_trailing_spaces (l : list Z) : list Z :=
  match l with
  | [] => []
  | c :: rest =>
      match strip_trailing_spaces rest with
      | [] => if c =? 32 then [] else [c]
      | r => c :: r
      end
  end.

(** The character codes of a string literal. *)
Definition bytes_of_string (s : string) : list Z :=
  map (fun c => Z.of_nat (Ascii.nat_of_ascii c)) (list_ascii_of_string s).

(** What the steps before the registration leave alone: the globals of
    ide.c and the position in the data stream. *)
Definition probe_frame (w w' : world) : Prop :=
  same_globals w w' /\ data_reads w' = data_reads w.

(** The five writes that program one command for [nsect] sectors at
    [sector]: device select with LBA bits 27-24, LBA bits 23-16, 15-8 and
    7-0, and the sector count with 256 written as 0. *)
Definition chunk_setup (disk : disk_t) (sector nsect : Z) : list (Z * Z) :=
  let ctrl := disk_ctrl disk in
  [ (device_reg ctrl,
     (if disk_disk disk =? 0 then 0xE0 else 0xF0) + (sector / 2^24) mod 16);
    (lbah_reg ctrl, (sector / 2^16) mod 256);
    (lbam_reg ctrl, (sector / 2^8) mod 256);
    (lbal_reg ctrl, sector mod 256);
    (nsect_reg ctrl, if nsect =? 256 then 0 else nsect) ].

(** The byte writes of one turn of the outer loop: the set-up and, when the
    device became ready, the command. *)
Definition chunk_writes (disk : disk_t) (is_write : bool)
    (c : Z * Z * bool) : list (Z * Z) :=
  let '(sector, nsect, issued) := c in
  chunk_setup disk sector nsect ++
  (if issued
   then [(command_reg (disk_ctrl disk),
          if is_write then IDE_CMD_WRITE_SECTOR else IDE_CMD_READ_SECTOR)]
   else []).

(** The chunks that the loop starts, in order, for a request of
    [sector_count] sectors at [sector]: each takes what is left up to 256
    sectors and begins where the one before ended (a uint32_t sum). *)
Fixpoint chunk_seq (sector sector_count : Z) (cs : list (Z * Z)) : Prop :=
  match cs with
  | [] => True
  | (s, n) :: rest =>
      0 < sector_count /\ s = sector /\ n = Z.min sector_count 256 /\
      chunk_seq ((sector + n) mod 2^32) (sector_count - n) rest
  end.

(** The sum of a list of sizes. *)
Definition sum_Z (l : list Z) : Z := fold_right Z.add 0 l.

(** A transfer over the 16-bit data port. *)
Definition is_data_event (e : event) : bool :=
  match e with
  | In16 _ _ | Out16 _ _ => true
  | _ => false
  end.

(** The number of 16-bit transfers over the data port. *)
Definition data_words (evs : list event) : nat :=
  length (List.filter is_data_event evs).

(** [step_post w w' writes words]: between [w] and [w'] the trace grew by
    events whose byte writes are [writes] and which hold [words] transfers
    over the data port. *)
Definition step_post (w w' : world) (writes : list (Z * Z)) (words : nat)
    : Prop :=
  exists evs,
    trace w' = trace w ++ evs /\
    out8_writes evs = writes /\
    data_words evs = words.

(** The state after the five set-up writes of one turn of the outer loop
    of gogoboot_disk_readwrite. *)
Definition chunk_programmed (disk : disk_t) (sector sector_count : Z)
    (w : world) : world :=
  let ctrl := disk_ctrl disk in
  let nsect := if 256 <=? sector_count then 256 else sector_count in
  out8 (nsect_reg ctrl) (if nsect =? 256 then 0 else nsect)
    (out8 (lbal_reg ctrl) (Z.land sector 0xFF)
       (out8 (lbam_reg ctrl) (Z.land (Z.shiftr sector 8) 0xFF)
          (out8 (lbah_reg ctrl) (Z.land (Z.shiftr sector 16) 0xFF)
             (out8 (device_reg ctrl)
                (Z.lor (Z.land (Z.shiftr sector 24) 0x0F)
                       (if disk_disk disk =? 0 then 0xE0 else 0xF0)) w)))).

(** A state reached from [w] by events of the call. *)
Definition reached_from (w w0 : world) : Prop :=
  exists evs, trace w0 = trace w ++ evs.

(** The call ended in [w'] on a wait that failed. *)
Definition aborted_by_wait (fuel : nat) (ctrl : disk_controller_t)
    (w w' : world) : Prop :=
  exists w0 bits,
    (bits = IDE_STATUS_READY \/ bits = IDE_STATUS_DATAREQUEST) /\
    reached_from w w0 /\
    gogoboot_disk_wait fuel ctrl bits w0 = Some (false, w').

(** The byte writes that go to the command register. *)
Definition command_writes (ctrl : disk_controller_t) (evs : list event)
    : list (Z * Z) :=
  List.filter (fun pv => fst pv =? command_reg ctrl) (out8_writes evs).

(** The task file: the last value written to each of the five registers
    that a command reads. *)
Record taskfile := mk_taskfile {
  tf_device : Z;
  tf_lbah   : Z;
  tf_lbam   : Z;
  tf_lbal   : Z;
  tf_nsect  : Z
}.

Definition taskfile_write (ctrl : disk_controller_t) (tf : taskfile)
    (p v : Z) : taskfile :=
  if p =? device_reg ctrl then
    mk_taskfile v (tf_lbah tf) (tf_lbam tf) (tf_lbal tf) (tf_nsect tf)
  else if p =? lbah_reg ctrl then
    mk_taskfile (tf_device tf) v (tf_lbam tf) (tf_lbal tf) (tf_nsect tf)
  else if p =? lbam_reg ctrl then
    mk_taskfile (tf_device tf) (tf_lbah tf) v (tf_lbal tf) (tf_nsect tf)
  else if p =? lbal_reg ctrl then
    mk_taskfile (tf_device tf) (tf_lbah tf) (tf_lbam tf) v (tf_nsect tf)
  else if p =? nsect_reg ctrl then
    mk_taskfile (tf_device tf) (tf_lbah tf) (tf_lbam tf) (tf_lbal tf) v
  else tf.

(** The 28-bit LBA of the task file: the low four bits of the device
    register, then the high, mid and low LBA registers. *)
Definition taskfile_lba (tf : taskfile) : Z :=
  (tf_device tf mod 16) * 2^24 + tf_lbah tf * 2^16
  + tf_lbam tf * 2^8 + tf_lbal tf.

(** The sector count of the task file: 0 stands for 256. *)
Definition taskfile_count (tf : taskfile) : Z :=
  if tf_nsect tf =? 0 then 256 else tf_nsect tf.

(** The commands issued by a sequence of byte writes, each with the LBA and
    the count that the task file holds when the command register is
    written: (opcode, LBA, count). *)
Fixpoint commands_of (ctrl : disk_controller_t) (tf : taskfile)
    (writes : list (Z * Z)) : list (Z * Z * Z) :=
  match writes with
  | [] => []
  | (p, v) :: rest =>
      if p =? command_reg ctrl then
        (v, taskfile_lba tf, taskfile_count tf) :: commands_of ctrl tf rest
      else commands_of ctrl (taskfile_write ctrl tf p v) rest
  end.

Definition issued_commands (ctrl : disk_controller_t) (evs : list event)
    : list (Z * Z * Z) :=
  commands_of ctrl (mk_taskfile 0 0 0 0 0) (out8_writes evs).

(** [cs], a list of (LBA, count), tiles [sector_count] sectors from
    [sector]: each chunk starts where the one before ended, takes what is
    left up to 256 sectors, and nothing is left at the end. *)
Fixpoint covers (sector sector_count : Z) (cs : list (Z * Z)) : Prop :=
  match cs with
  | [] => sector_count = 0
  | (lba, n) :: rest =>
      lba = sector /\ 0 < n <= 256 /\ n = Z.min sector_count 256 /\
      covers (sector + n) (sector_count - n) rest
  end.

Ltac port_cases :=
  cbn [controller_regs device_reg lbah_reg lbam_reg lbal_reg nsect_reg
       command_reg];
  unfold ISA_XLATE_ADDR_BYTE, ATA_REG_DEVICE, ATA_REG_LBAH, ATA_REG_LBAM,
         ATA_REG_LBAL, ATA_REG_NSECT, ATA_REG_CMD, ATA_REG_STATUS;
  repeat match goal with
         | |- context [?a =? ?b] => destruct (Z.eqb_spec a b); try lia
         end;
  try reflexivity; try lia.

(** The bytes that [k] words taken from the data port, from its read [n]
    on, leave in memory. *)
Definition received_bytes (n k : nat) : list Z :=
  flat_map bytes_of_word (map bswap16 (map data_at (seq n k))).

(** The two byte writes of a probe: the device select and IDENTIFY. *)
Definition probe_writes (ctrl : disk_controller_t) (disk : Z)
    : list (Z * Z) :=
  [ (device_reg ctrl, if disk =? 0 then 0xE0 else 0xF0);
    (command_reg ctrl, IDE_CMD_IDENTIFY) ].

(** The entry that a probe registers for the IDENTIFY page [page]. *)
Definition probed_disk (ctrl : disk_controller_t) (disk : Z) (page : list Z)
    : disk_t :=
  mk_disk ctrl disk (le32_at page ATA_ID_LBA_CAPACITY) STA_NOINIT.

(** [registered ctrl disk page w w']: the registry of [w'] is the one of [w]
    with one more disk, in the first free slot; the last event is the lazy
    mount of the volume of that slot. *)
Definition registered (ctrl : disk_controller_t) (disk : Z) (page : list Z)
    (w w' : world) : Prop :=
  disk_table w' = <[Z.to_nat (disk_table_used w) := probed_disk ctrl disk page]>
                    (disk_table w) /\
  disk_table_used w' = disk_table_used w + 1 /\
  last (trace w') =
  Some (FMount (disk_table_used w) [(48 + disk_table_used w) mod 256; 58; 0]).

Definition registry_unchanged (w w' : world) : Prop :=
  disk_table w' = disk_table w /\ disk_table_used w' = disk_table_used w.

(** The ticks that have passed, as the 32-bit counter shows them, between
    its reads [n] and [m]. *)
Definition elapsed (n m : nat) : Z := (ticks_at m - ticks_at n) mod 2^32.

(** The state after [k] more reads of the tick counter. *)
Definition after_tick_reads (k : nat) (w : world) : world :=
  mk_world (status_reads w) (altstatus_reads w) (data_reads w)
           (tick_reads w + k) (trace w)
           (disk_controller w) (disk_table w) (disk_table_used w)
           (gogoboot_disk_init_done w).

(** * Properties *)

(** ** Input streams as the driver sees them *)

Lemma events_since_app w w' evs :
  trace w' = trace w ++ evs -> events_since w w' = evs.
Proof.
  intros H. unfold events_since. rewrite H. apply drop_app_length.
Qed.

Lemma polls_snoc ctrl n k :
  polls ctrl n (S k)
  = polls ctrl n k ++ [In8 (status_reg ctrl) (status_at (n + k))].
Proof.
  unfold polls. rewrite seq_S, map_app. reflexivity.
Qed.

Lemma polls_cons ctrl n k :
  polls ctrl n (S k)
  = In8 (status_reg ctrl) (status_at n) :: polls ctrl (S n) k.
Proof. reflexivity. Qed.

Lemma forallb_poll_polls ctrl n k :
  forallb is_poll_event (polls ctrl n k) = true.
Proof.
  unfold polls. revert n. induction k; intros n; simpl; auto.
Qed.

(** ** The polling loop *)

(** A run of the loop that meets a deciding status at poll [k]: the earlier
    polls decide nothing and the timer has not expired after any of them. *)
Lemma wait_loop_decides k : forall fuel ctrl bits t w,
  (k < fuel)%nat ->
  (forall i, (i < k)%nat ->
     wait_success bits (status_at (status_reads w + i)) = false /\
     wait_error (status_at (status_reads w + i)) = false /\
     timer_expired_at t (ticks_at (tick_reads w + i)) = false) ->
  wait_success bits (status_at (status_reads w + k)) = true \/
  wait_error (status_at (status_reads w + k)) = true ->
  wait_loop fuel ctrl bits t w =
  Some (wait_success bits (status_at (status_reads w + k)),
        mk_world (status_reads w + S k) (altstatus_reads w) (data_reads w)
                 (tick_reads w + k)
                 (trace w ++ polls ctrl (status_reads w) (S k))
                 (disk_controller w) (disk_table w) (disk_table_used w)
                 (gogoboot_disk_init_done w)).
Proof.
  induction k as [|k IH]; intros fuel ctrl bits t w Hf Hpre Hdec.
  - destruct fuel as [|fuel]; [lia|]. simpl.
    rewrite Nat.add_0_r in *. fold (status_at (status_reads w)).
    destruct (wait_success bits (status_at (status_reads w))) eqn:Hs.
    + repeat f_equal; lia.
    + destruct Hdec as [Hd|Hd]; [discriminate|]. rewrite Hd.
      repeat f_equal; lia.
  - destruct fuel as [|fuel]; [lia|]. simpl.
    fold (status_at (status_reads w)). fold (ticks_at (tick_reads w)).
    destruct (Hpre O ltac:(lia)) as (H1 & H2 & H3).
    rewrite Nat.add_0_r in H1, H2, H3. rewrite H1, H2, H3.
    rewrite (IH fuel); simpl.
    + rewrite polls_cons, <- app_assoc. simpl.
      replace (status_reads w + S k)%nat with (S (status_reads w + k)) by lia.
      repeat f_equal; lia.
    + lia.
    + intros i Hi. specialize (Hpre (S i) ltac:(lia)).
      rewrite <- !plus_n_Sm in Hpre. exact Hpre.
    + rewrite <- !plus_n_Sm in Hdec. exact Hdec.
Qed.

(** The same run when no status decides and the timer expires after poll
    [k]: the loop logs the last status and fails. *)
Lemma wait_loop_times_out k : forall fuel ctrl bits t w,
  (k < fuel)%nat ->
  (forall i, (i <= k)%nat ->
     wait_success bits (status_at (status_reads w + i)) = false /\
     wait_error (status_at (status_reads w + i)) = false) ->
  (forall i, (i < k)%nat ->
     timer_expired_at t (ticks_at (tick_reads w + i)) = false) ->
  timer_expired_at t (ticks_at (tick_reads w + k)) = true ->
  wait_loop fuel ctrl bits t w =
  Some (false,
        mk_world (status_reads w + S k) (altstatus_reads w) (data_reads w)
                 (tick_reads w + S k)
                 (trace w ++ polls ctrl (status_reads w) (S k)
                    ++ [Printf "IDE timeout, status=%x\n"
                               [ArgInt (status_at (status_reads w + k))]])
                 (disk_controller w) (disk_table w) (disk_table_used w)
                 (gogoboot_disk_init_done w)).
Proof.
  induction k as [|k IH]; intros fuel ctrl bits t w Hf Hst Hne He;
    (destruct fuel as [|fuel]; [lia|]); simpl;
    fold (status_at (status_reads w)); fold (ticks_at (tick_reads w));
    destruct (Hst O ltac:(lia)) as (H1 & H2);
    rewrite Nat.add_0_r in H1, H2; rewrite H1, H2.
  - rewrite Nat.add_0_r in *. rewrite He. unfold printf, emit; simpl.
    rewrite <- app_assoc. repeat f_equal; lia.
  - specialize (Hne O ltac:(lia)) as H3. rewrite Nat.add_0_r in H3. rewrite H3.
    rewrite (IH fuel); simpl.
    + unfold polls. simpl. rewrite <- !app_assoc. simpl.
      rewrite <- !plus_n_Sm. reflexivity.
    + lia.
    + intros i Hi. specialize (Hst (S i) ltac:(lia)).
      rewrite <- !plus_n_Sm in Hst. exact Hst.
    + intros i Hi. specialize (Hne (S i) ltac:(lia)).
      rewrite <- !plus_n_Sm in Hne. exact Hne.
    + rewrite <- !plus_n_Sm in He. exact He.
Qed.

Lemma wait_loop_post fuel : forall ctrl bits t w b w',
  wait_loop fuel ctrl bits t w = Some (b, w') -> wait_post bits w b w'.
Proof.
  induction fuel as [|fuel IH]; intros ctrl bits t w b w' H; [discriminate|].
  simpl in H. fold (status_at (status_reads w)) in H.
  fold (ticks_at (tick_reads w)) in H.
  destruct (wait_success bits (status_at (status_reads w))) eqn:Hs.
  { inversion H; subst; clear H. unfold wait_post, same_globals; simpl.
    rewrite Nat.sub_0_r. split_and!; auto; try lia.
    eexists; split; [reflexivity|reflexivity]. }
  destruct (wait_error (status_at (status_reads w))) eqn:He.
  { inversion H; subst; clear H. unfold wait_post, same_globals; simpl.
    rewrite Nat.sub_0_r. split_and!; auto; try lia.
    eexists; split; [reflexivity|reflexivity]. }
  destruct (timer_expired_at t (ticks_at (tick_reads w))) eqn:Ht.
  { inversion H; subst; clear H. unfold wait_post, same_globals; simpl.
    rewrite Nat.sub_0_r. split_and!; auto; try lia.
    eexists; split; [rewrite <- app_assoc; reflexivity|reflexivity]. }
  apply IH in H. destruct H as (Hlt & Hb & Hpre & (evs & Htr & Hev) & Hd & Hg).
  simpl in *. unfold wait_post. split_and!; auto; try lia.
  - intros i Hi1 Hi2. destruct (Nat.eq_dec i (status_reads w)) as [->|Hn].
    + auto.
    + apply Hpre; lia.
  - eexists; split; [rewrite Htr, <- app_assoc; reflexivity|]. simpl. exact Hev.
Qed.

Lemma wait_loop_terminates j : forall fuel ctrl bits t w,
  (j < fuel)%nat ->
  timer_expired_at t (ticks_at (tick_reads w + j)) = true ->
  exists b w', wait_loop fuel ctrl bits t w = Some (b, w').
Proof.
  induction j as [|j IH]; intros fuel ctrl bits t w Hf He;
    (destruct fuel as [|fuel]; [lia|]); simpl;
    fold (status_at (status_reads w)); fold (ticks_at (tick_reads w));
    (destruct (wait_success bits (status_at (status_reads w))); [eauto|]);
    (destruct (wait_error (status_at (status_reads w))); [eauto|]).
  - rewrite Nat.add_0_r in He. rewrite He. eauto.
  - destruct (timer_expired_at t (ticks_at (tick_reads w))); [eauto|].
    apply IH; [lia|]. simpl. rewrite <- plus_n_Sm in He. exact He.
Qed.

(** ** The deadline *)

Lemma set_timer_sec_spec w :
  exists evs,
    forallb is_poll_event evs = true /\
    set_timer_sec 3 w =
    (deadline (tick_reads w),
     mk_world (status_reads w) (altstatus_reads w) (data_reads w)
              (S (tick_reads w)) (trace w ++ evs)
              (disk_controller w) (disk_table w) (disk_table_used w)
              (gogoboot_disk_init_done w)).
Proof.
  unfold set_timer_sec, set_timer_ticks, deadline, timer_duration.
  destruct (3 * TIMER_HZ mod 2 ^ 32 =? 0).
  - exists []. split; [reflexivity|]. simpl. rewrite app_nil_r. reflexivity.
  - destruct (Z.land (3 * TIMER_HZ mod 2 ^ 32) 0x80000000 =? 0); simpl.
    + exists []. split; [reflexivity|]. rewrite app_nil_r. reflexivity.
    + eexists. split; [|reflexivity]. reflexivity.
Qed.

Lemma set_timer_sec_deadline w :
  fst (set_timer_sec 3 w) = deadline (tick_reads w).
Proof. destruct (set_timer_sec_spec w) as (evs & _ & ->). reflexivity. Qed.

(** The state in which gogoboot_disk_wait enters its loop. *)
Lemma gogoboot_disk_wait_unfold fuel ctrl bits w :
  exists evs,
    forallb is_poll_event evs = true /\
    gogoboot_disk_wait fuel ctrl bits w =
    wait_loop fuel ctrl bits (deadline (tick_reads w))
      (mk_world (status_reads w) (S (altstatus_reads w)) (data_reads w)
                (S (tick_reads w)) (trace w ++ evs)
                (disk_controller w) (disk_table w) (disk_table_used w)
                (gogoboot_disk_init_done w)).
Proof.
  unfold gogoboot_disk_wait, in_altstatus.
  match goal with |- context [set_timer_sec 3 ?w1] =>
    destruct (set_timer_sec_spec w1) as (evs & Hev & ->) end.
  simpl. eexists (In8 _ _ :: evs). split; [exact Hev|].
  rewrite <- app_assoc. reflexivity.
Qed.

Lemma gogoboot_disk_wait_post fuel ctrl bits w b w' :
  gogoboot_disk_wait fuel ctrl bits w = Some (b, w') -> wait_post bits w b w'.
Proof.
  destruct (gogoboot_disk_wait_unfold fuel ctrl bits w) as (evs & Hev & ->).
  intros H. apply wait_loop_post in H.
  destruct H as (Hlt & Hb & Hpre & (evs' & Htr & Hev') & Hd & Hg).
  simpl in *. unfold wait_post. split_and!; auto.
  exists (evs ++ evs'). split; [rewrite Htr, <- app_assoc; reflexivity|].
  rewrite forallb_app, Hev, Hev'. reflexivity.
Qed.

Lemma gogoboot_disk_wait_decides k fuel ctrl bits w :
  (k < fuel)%nat ->
  (forall i, (i < k)%nat ->
     wait_success bits (status_at (status_reads w + i)) = false /\
     wait_error (status_at (status_reads w + i)) = false /\
     timer_expired_at (deadline (tick_reads w))
                      (ticks_at (S (tick_reads w) + i)) = false) ->
  wait_success bits (status_at (status_reads w + k)) = true \/
  wait_error (status_at (status_reads w + k)) = true ->
  exists w',
    gogoboot_disk_wait fuel ctrl bits w =
    Some (wait_success bits (status_at (status_reads w + k)), w') /\
    status_reads w' = (status_reads w + S k)%nat /\
    tick_reads w' = (S (tick_reads w) + k)%nat.
Proof.
  intros Hf Hpre Hdec.
  destruct (gogoboot_disk_wait_unfold fuel ctrl bits w) as (evs & Hev & ->).
  rewrite (wait_loop_decides k); auto. simpl. eauto.
Qed.

Lemma gogoboot_disk_wait_times_out k fuel ctrl bits w :
  (k < fuel)%nat ->
  (forall i, (i <= k)%nat ->
     wait_success bits (status_at (status_reads w + i)) = false /\
     wait_error (status_at (status_reads w + i)) = false) ->
  (forall i, (i < k)%nat ->
     timer_expired_at (deadline (tick_reads w))
                      (ticks_at (S (tick_reads w) + i)) = false) ->
  timer_expired_at (deadline (tick_reads w))
                   (ticks_at (S (tick_reads w) + k)) = true ->
  exists w',
    gogoboot_disk_wait fuel ctrl bits w = Some (false, w') /\
    status_reads w' = (status_reads w + S k)%nat /\
    tick_reads w' = (S (tick_reads w) + S k)%nat /\
    last (trace w') =
    Some (Printf "IDE timeout, status=%x\n"
                 [ArgInt (status_at (status_reads w + k))]).
Proof.
  intros Hf Hst Hne He.
  destruct (gogoboot_disk_wait_unfold fuel ctrl bits w) as (evs & Hev & ->).
  rewrite (wait_loop_times_out k); auto.
  eexists. split; [reflexivity|].
  cbn [status_reads tick_reads trace]. split_and!; auto.
  rewrite app_assoc. apply last_snoc.
Qed.

Lemma gogoboot_disk_wait_terminates j fuel ctrl bits w :
  (j < fuel)%nat ->
  timer_expired_at (deadline (tick_reads w))
                   (ticks_at (S (tick_reads w) + j)) = true ->
  exists b w', gogoboot_disk_wait fuel ctrl bits w = Some (b, w').
Proof.
  intros Hf He.
  destruct (gogoboot_disk_wait_unfold fuel ctrl bits w) as (evs & Hev & ->).
  apply (wait_loop_terminates j); auto.
Qed.

(** ** The timer test *)

Lemma land_pow2 x n :
  0 <= n -> Z.land x (2^n) = if Z.testbit x n then 2^n else 0.
Proof.
  intros Hn. apply Z.bits_inj'. intros k Hk.
  rewrite Z.land_spec, Z.pow2_bits_eqb by lia.
  destruct (Z.eqb_spec n k) as [->|Hne].
  - destruct (Z.testbit x k) eqn:Hx; simpl.
    + rewrite Z.pow2_bits_eqb, Z.eqb_refl by lia. reflexivity.
    + rewrite Z.bits_0. reflexivity.
  - rewrite andb_false_r. destruct (Z.testbit x n).
    + rewrite Z.pow2_bits_eqb by lia. symmetry. apply Z.eqb_neq. exact Hne.
    + rewrite Z.bits_0. reflexivity.
Qed.

Lemma timer_expired_at_sign timer now :
  timer_expired_at timer now = Z.testbit ((timer - now) mod 2^32) 31.
Proof.
  unfold timer_expired_at. change 0x80000000 with (2^31).
  rewrite land_pow2 by lia.
  destruct (Z.testbit ((timer - now) mod 2 ^ 32) 31); reflexivity.
Qed.

Lemma testbit31_range y :
  0 <= y < 2^32 -> Z.testbit y 31 = (2^31 <=? y).
Proof.
  intros Hy. destruct (2^31 <=? y) eqn:Hc.
  - apply Z.leb_le in Hc. apply Z.testbit_true; [lia|].
    replace y with ((y - 2^31) + 1 * 2^31) by lia.
    rewrite Z.div_add by lia. rewrite Z.div_small by lia. reflexivity.
  - apply Z.leb_gt in Hc. apply Z.bits_above_log2; [lia|].
    destruct (Z.eq_dec y 0) as [->|Hne]; [simpl; lia|].
    apply Z.log2_lt_pow2; lia.
Qed.

Lemma timer_expired_at_mod a b :
  timer_expired_at (a mod 2^32) (b mod 2^32) = timer_expired_at a b.
Proof.
  unfold timer_expired_at.
  rewrite Zminus_mod_idemp_l, Zminus_mod_idemp_r. reflexivity.
Qed.

(** The test reads the difference as a signed 32-bit number. *)
Lemma timer_not_expired a b :
  0 <= a - b < 2^31 -> timer_expired_at a b = false.
Proof.
  intros H. rewrite timer_expired_at_sign.
  rewrite Z.mod_small by lia. rewrite testbit31_range by lia.
  apply Z.leb_gt. lia.
Qed.

Lemma timer_is_expired a b :
  - 2^31 <= a - b < 0 -> timer_expired_at a b = true.
Proof.
  intros H. rewrite timer_expired_at_sign.
  replace ((a - b) mod 2^32) with (a - b + 2^32).
  - rewrite testbit31_range by lia. apply Z.leb_le. lia.
  - rewrite <- (Z_mod_plus_full (a - b) 1 (2^32)).
    rewrite Z.mod_small by lia. lia.
Qed.

Lemma deadline_HZ n :
  TIMER_HZ = 200 \/ TIMER_HZ = 50 ->
  deadline n = (ticks_at n + 3 * TIMER_HZ) mod 2^32.
Proof.
  intros H. unfold deadline. f_equal. f_equal.
  destruct H as [H|H]; rewrite H; reflexivity.
Qed.

Lemma deadline_expired_at n i :
  TIMER_HZ = 200 \/ TIMER_HZ = 50 ->
  timer_expired_at (deadline n) (ticks_at i) =
  timer_expired_at (ticks_in dev n + 3 * TIMER_HZ) (ticks_in dev i).
Proof.
  intros H. rewrite deadline_HZ by exact H. unfold ticks_at.
  rewrite Zplus_mod_idemp_l. apply timer_expired_at_mod.
Qed.

(** ** Claims about gogoboot_disk_wait *)

(** For a mask that is not empty and holds neither BUSY nor ERROR (READY and
    DATAREQUEST are such masks) no status passes both tests. *)
Lemma wait_tests_exclusive bits status :
  bits <> 0 ->
  Z.land bits (Z.lor IDE_STATUS_BUSY IDE_STATUS_ERROR) = 0 ->
  wait_success bits status = true -> wait_error status = false.
Proof.
  intros Hnz Hdisj Hs. unfold wait_success in Hs. apply Z.eqb_eq in Hs.
  set (m := Z.lor IDE_STATUS_BUSY IDE_STATUS_ERROR) in *.
  assert (Hm : Z.land status m = 0).
  { assert (Ha : Z.land (Z.land status (Z.lor m bits)) m = Z.land status m).
    { rewrite <- Z.land_assoc. f_equal.
      rewrite Z.land_lor_distr_l, Z.land_diag, Hdisj. apply Z.lor_0_r. }
    rewrite Hs, Hdisj in Ha. congruence. }
  unfold wait_error. fold m. rewrite Hm.
  destruct (Z.eqb_spec status 0) as [->|H0].
  { rewrite Z.land_0_l in Hs. congruence. }
  destruct (Z.eqb_spec status 0xFF) as [->|H1].
  { vm_compute in Hm. discriminate. }
  reflexivity.
Qed.

(** C3 (amended): each polled status is put to the success test first,
    [status & (BUSY|ERROR|bits) == bits], and only a status that fails it is
    put to the error test.  If the first deciding status comes at poll [k]
    (the earlier polls decide nothing and the timer has not expired after
    them), the wait returns after exactly [k+1] polls: with success when that
    status passes the success test, with failure when it fails the success
    test and shows an error pattern.  For a non-empty mask without BUSY and
    ERROR the two tests exclude each other.  Whenever the wait returns, it
    returns success exactly when the last status it polled passes the
    success test. *)
Theorem gogoboot_disk_wait_first_deciding_status :
  forall (k fuel : nat) (ctrl : disk_controller_t) (bits : Z) (w : world),
  (k < fuel)%nat ->
  (forall i, (i < k)%nat ->
     wait_success bits (status_at (status_reads w + i)) = false /\
     wait_error (status_at (status_reads w + i)) = false /\
     timer_expired_at (fst (set_timer_sec 3 w))
                      (ticks_at (S (tick_reads w) + i)) = false) ->
  (wait_success bits (status_at (status_reads w + k)) = true ->
   exists w', gogoboot_disk_wait fuel ctrl bits w = Some (true, w') /\
              status_reads w' = (status_reads w + S k)%nat) /\
  (wait_success bits (status_at (status_reads w + k)) = false ->
   wait_error (status_at (status_reads w + k)) = true ->
   exists w', gogoboot_disk_wait fuel ctrl bits w = Some (false, w') /\
              status_reads w' = (status_reads w + S k)%nat) /\
  (bits <> 0 -> Z.land bits (Z.lor IDE_STATUS_BUSY IDE_STATUS_ERROR) = 0 ->
   wait_success bits (status_at (status_reads w + k)) = true ->
   wait_error (status_at (status_reads w + k)) = false) /\
  (forall (fuel' : nat) (b : bool) (w' : world),
     gogoboot_disk_wait fuel' ctrl bits w = Some (b, w') ->
     (status_reads w < status_reads w')%nat /\
     b = wait_success bits (status_at (status_reads w' - 1))).
Proof.
  intros k fuel ctrl bits w Hf Hpre.
  rewrite set_timer_sec_deadline in Hpre.
  split_and!.
  4:{ intros fuel' b w' H. apply gogoboot_disk_wait_post in H.
      destruct H as (H1 & H2 & _). auto. }
  - intros Hs.
    destruct (gogoboot_disk_wait_decides k fuel ctrl bits w Hf Hpre (or_introl Hs))
      as (w' & Hw & Hn & _).
    rewrite Hs in Hw. eauto.
  - intros Hs He.
    destruct (gogoboot_disk_wait_decides k fuel ctrl bits w Hf Hpre (or_intror He))
      as (w' & Hw & Hn & _).
    rewrite Hs in Hw. eauto.
  - apply wait_tests_exclusive.
Qed.

(** C4: when no polled status shows the requested bits or an error pattern,
    and the tick counter moves forward by at most 2^31 ticks between two
    reads, the wait fails by timeout at the first check of the timer that
    finds the counter past the deadline of 3 seconds (3 * TIMER_HZ ticks
    after the read at entry): not before the deadline, at most one poll after
    it, and the log line carries the last status polled.  The expiry test is
    bit 31 of the 32-bit difference [deadline - now]. *)
Theorem gogoboot_disk_wait_timeout :
  forall (j fuel : nat) (ctrl : disk_controller_t) (bits : Z) (w : world),
  TIMER_HZ = 200 \/ TIMER_HZ = 50 ->
  (forall i, ticks_in dev i <= ticks_in dev (S i) <= ticks_in dev i + 2^31) ->
  (forall i, (status_reads w <= i)%nat ->
     wait_success bits (status_at i) = false /\
     wait_error (status_at i) = false) ->
  (forall i, (i < j)%nat ->
     ticks_in dev (S (tick_reads w) + i)
     <= ticks_in dev (tick_reads w) + 3 * TIMER_HZ) ->
  ticks_in dev (tick_reads w) + 3 * TIMER_HZ
  < ticks_in dev (S (tick_reads w) + j) ->
  (j < fuel)%nat ->
  (exists w',
     gogoboot_disk_wait fuel ctrl bits w = Some (false, w') /\
     status_reads w' = (status_reads w + S j)%nat /\
     tick_reads w' = (S (tick_reads w) + S j)%nat /\
     last (trace w') =
     Some (Printf "IDE timeout, status=%x\n"
                  [ArgInt (status_at (status_reads w + j))])) /\
  (forall timer now,
     timer_expired_at timer now = Z.testbit ((timer - now) mod 2^32) 31).
Proof.
  intros j fuel ctrl bits w HZ Hclock Hst Hbefore Hafter Hf.
  split; [|apply timer_expired_at_sign].
  assert (Hmono : forall i,
            ticks_in dev (tick_reads w)
            <= ticks_in dev (S (tick_reads w) + i)).
  { induction i as [|i IH].
    - rewrite Nat.add_0_r. apply Hclock.
    - rewrite <- plus_n_Sm. specialize (Hclock (S (tick_reads w) + i)%nat). lia. }
  assert (HZpos : 0 < 3 * TIMER_HZ < 2^31) by (destruct HZ as [H|H]; rewrite H; lia).
  apply gogoboot_disk_wait_times_out; auto.
  - intros i Hi. apply Hst. lia.
  - intros i Hi. rewrite deadline_expired_at by exact HZ.
    apply timer_not_expired. specialize (Hbefore i Hi). specialize (Hmono i). lia.
  - rewrite deadline_expired_at by exact HZ.
    apply timer_is_expired. split; [|lia].
    destruct j as [|j].
    + rewrite Nat.add_0_r in *. specialize (Hclock (tick_reads w)). lia.
    + specialize (Hbefore j ltac:(lia)).
      rewrite <- plus_n_Sm in *.
      specialize (Hclock (S (tick_reads w) + j)%nat). lia.
Qed.

(** ** Sector transfer *)

Lemma byte_at_nat buf (n : nat) :
  byte_at buf (Z.of_nat n) = default 0 (buf !! n).
Proof.
  unfold byte_at. destruct (Z.ltb_spec (Z.of_nat n) 0); [lia|].
  rewrite Nat2Z.id. reflexivity.
Qed.

Lemma store_byte_nat buf (n : nat) v :
  store_byte buf (Z.of_nat n) v = <[n := v mod 256]> buf.
Proof.
  unfold store_byte. destruct (Z.ltb_spec (Z.of_nat n) 0); [lia|].
  rewrite Nat2Z.id. reflexivity.
Qed.

Lemma byte_at_app_0 (pre : list Z) a rest p :
  p = Z.of_nat (length pre) -> byte_at (pre ++ a :: rest) p = a.
Proof.
  intros ->. rewrite byte_at_nat.
  rewrite lookup_app_r by lia. rewrite Nat.sub_diag. reflexivity.
Qed.

Lemma byte_at_app_1 (pre : list Z) a b rest p :
  p = Z.of_nat (length pre) -> byte_at (pre ++ a :: b :: rest) (p + 1) = b.
Proof.
  intros ->. replace (Z.of_nat (length pre) + 1) with (Z.of_nat (S (length pre))) by lia.
  rewrite byte_at_nat.
  rewrite lookup_app_r by lia.
  replace (S (length pre) - length pre)%nat with 1%nat by lia. reflexivity.
Qed.

Lemma store_byte_app_0 (pre : list Z) a rest p v :
  p = Z.of_nat (length pre) ->
  store_byte (pre ++ a :: rest) p v = pre ++ (v mod 256) :: rest.
Proof.
  intros ->. rewrite store_byte_nat.
  rewrite insert_app_r_alt by lia. rewrite Nat.sub_diag. reflexivity.
Qed.

Lemma store16_app (pre : list Z) a b rest p v :
  p = Z.of_nat (length pre) ->
  store16 (pre ++ a :: b :: rest) p v = pre ++ bytes_of_word v ++ rest.
Proof.
  intros Hp. unfold store16. rewrite (store_byte_app_0 pre) by exact Hp.
  change (pre ++ Z.shiftr v 8 mod 256 :: b :: rest)
    with (pre ++ [Z.shiftr v 8 mod 256] ++ b :: rest).
  rewrite app_assoc. rewrite (store_byte_app_0 (pre ++ [_])).
  - rewrite <- app_assoc. reflexivity.
  - rewrite length_app. simpl. lia.
Qed.

Lemma load16_app (pre : list Z) a b rest p :
  p = Z.of_nat (length pre) ->
  load16 (pre ++ a :: b :: rest) p = a * 256 + b.
Proof.
  intros Hp. unfold load16.
  rewrite (byte_at_app_0 pre) by exact Hp.
  rewrite (byte_at_app_1 pre) by exact Hp. reflexivity.
Qed.

(** *** bswap16 *)

Lemma lor_shifted_pow n hi lo :
  0 <= n -> 0 <= lo < 2^n -> Z.lor (hi * 2^n) lo = hi * 2^n + lo.
Proof.
  intros Hn Hlo.
  assert (Hdisj : Z.land (hi * 2^n) lo = 0).
  { apply Z.bits_inj'. intros k Hk. rewrite Z.land_spec, Z.bits_0.
    destruct (Z.ltb_spec k n).
    - rewrite Z.mul_pow2_bits_low by lia. reflexivity.
    - rewrite andb_comm. replace lo with (lo mod 2^n) by (apply Z.mod_small; lia).
      rewrite Z.mod_pow2_bits_high by lia. reflexivity. }
  rewrite <- Z.lxor_lor by exact Hdisj.
  symmetry. apply Z.add_nocarry_lxor. exact Hdisj.
Qed.

Lemma lor_shifted hi lo :
  0 <= lo < 256 -> Z.lor (hi * 256) lo = hi * 256 + lo.
Proof. intros H. apply (lor_shifted_pow 8); lia. Qed.

Lemma bswap16_arith v : bswap16 v = (v mod 256) * 256 + (v / 256) mod 256.
Proof.
  unfold bswap16.
  change 0xFF00 with (Z.shiftl 0xFF 8). rewrite <- Z.shiftl_land.
  change 0xFF with (Z.ones 8). rewrite !Z.land_ones by lia.
  rewrite Z.shiftl_mul_pow2, Z.shiftr_div_pow2 by lia.
  change (2^8) with 256. apply lor_shifted.
  apply Z.mod_pos_bound. lia.
Qed.

Lemma bswap16_range v : 0 <= bswap16 v < 65536.
Proof.
  rewrite bswap16_arith.
  pose proof (Z.mod_pos_bound v 256 ltac:(lia)).
  pose proof (Z.mod_pos_bound (v / 256) 256 ltac:(lia)). lia.
Qed.

Lemma bswap16_involutive v : 0 <= v < 65536 -> bswap16 (bswap16 v) = v.
Proof.
  intros Hv. rewrite (bswap16_arith (bswap16 v)), (bswap16_arith v).
  pose proof (Z.mod_pos_bound v 256 ltac:(lia)) as Hlo.
  pose proof (Z.mod_pos_bound (v / 256) 256 ltac:(lia)) as Hhi.
  assert (Hsmall : v / 256 < 256) by (apply Z.div_lt_upper_bound; lia).
  assert (Hdiv : 0 <= v / 256) by (apply Z.div_pos; lia).
  rewrite (Z.mod_small (v / 256)) by lia.
  replace ((v mod 256 * 256 + v / 256) mod 256) with (v / 256).
  - replace ((v mod 256 * 256 + v / 256) / 256) with (v mod 256).
    + rewrite (Z.mod_small (v mod 256)) by lia.
      pose proof (Z.div_mod v 256 ltac:(lia)). lia.
    + rewrite Z.add_comm, Z.div_add by lia. rewrite Z.div_small by lia. lia.
  - rewrite Z.add_comm, Z.mod_add by lia. rewrite Z.mod_small by lia. lia.
Qed.

Lemma bytes_of_word_pair a b :
  is_byte a -> is_byte b -> bytes_of_word (a * 256 + b) = [a; b].
Proof.
  unfold is_byte, bytes_of_word. intros Ha Hb.
  rewrite Z.shiftr_div_pow2 by lia. change (2^8) with 256.
  rewrite Z.add_comm, Z.div_add, Z.mod_add by lia.
  rewrite (Z.div_small b) by lia. rewrite (Z.mod_small b) by lia.
  simpl. rewrite Z.mod_small by lia. reflexivity.
Qed.

Lemma pair_words_bytes src :
  Forall is_byte src -> Nat.Even (length src) ->
  flat_map bytes_of_word (pair_words src) = src.
Proof.
  revert src. fix IH 1. intros [|a [|b rest]] Hb Hev.
  - reflexivity.
  - destruct Hev as [m Hm]. simpl in Hm. lia.
  - inversion Hb as [|? ? Ha Hb']. inversion Hb' as [|? ? Hb0 Hrest]. subst.
    cbn [pair_words flat_map]. rewrite bytes_of_word_pair by assumption.
    cbn [app]. do 2 f_equal.
    apply IH; [assumption|].
    destruct Hev as [m Hm]. simpl in Hm. exists (m - 1)%nat. lia.
Qed.

Lemma length_pair_words n : forall body,
  length body = (2 * n)%nat -> length (pair_words body) = n.
Proof.
  induction n as [|n IH]; intros body Hl.
  - destruct body; [reflexivity|discriminate].
  - destruct body as [|a [|b rest]]; simpl in Hl; try lia.
    simpl. f_equal. apply IH. lia.
Qed.

(** The write loop over a buffer cut as [pre ++ body ++ post], the pointer
    at [body]: one byte-swapped word goes out per pair of bytes, and nothing
    else changes. *)
Lemma write_words_app n : forall ctrl pre body post p w,
  p = Z.of_nat (length pre) -> length body = (2 * n)%nat ->
  write_words n ctrl (pre ++ body ++ post) p w =
  mk_world (status_reads w) (altstatus_reads w) (data_reads w) (tick_reads w)
           (trace w ++ map (fun v => Out16 (data_reg ctrl) (bswap16 v))
                           (pair_words body))
           (disk_controller w) (disk_table w) (disk_table_used w)
           (gogoboot_disk_init_done w).
Proof.
  induction n as [|n IH]; intros ctrl pre body post p w Hp Hl.
  - destruct body; [|discriminate]. simpl. rewrite app_nil_r. destruct w; reflexivity.
  - destruct body as [|a [|b rest]]; simpl in Hl; try lia.
    cbn [write_words]. simpl app.
    rewrite (load16_app pre) by exact Hp.
    change (pre ++ a :: b :: rest ++ post) with (pre ++ [a; b] ++ rest ++ post).
    rewrite app_assoc. rewrite (IH ctrl (pre ++ [a; b]) rest post).
    + unfold out16, emit. simpl. rewrite <- app_assoc. simpl.
      rewrite (Z.mod_small (bswap16 _)) by apply bswap16_range. reflexivity.
    + rewrite length_app. simpl. lia.
    + lia.
Qed.

(** The read loop, likewise: [n] words come in, each is byte-swapped and
    stored over two bytes of [body]. *)
Lemma read_words_app n : forall ctrl pre body post p w,
  p = Z.of_nat (length pre) -> length body = (2 * n)%nat ->
  read_words n ctrl (pre ++ body ++ post) p w =
  (pre ++ flat_map bytes_of_word
             (map bswap16 (map data_at (seq (data_reads w) n))) ++ post,
   mk_world (status_reads w) (altstatus_reads w) (data_reads w + n)
            (tick_reads w)
            (trace w ++ map (fun i => In16 (data_reg ctrl) (data_at i))
                            (seq (data_reads w) n))
            (disk_controller w) (disk_table w) (disk_table_used w)
            (gogoboot_disk_init_done w)).
Proof.
  induction n as [|n IH]; intros ctrl pre body post p w Hp Hl.
  - destruct body; [|discriminate]. simpl. rewrite app_nil_r, Nat.add_0_r.
    destruct w; reflexivity.
  - destruct body as [|a [|b rest]]; simpl in Hl; try lia.
    cbn [read_words in_data]. simpl app. fold (data_at (data_reads w)).
    rewrite (store16_app pre) by exact Hp.
    rewrite app_assoc. rewrite (IH ctrl (pre ++ bytes_of_word _) rest post).
    + cbn [data_reads trace status_reads altstatus_reads tick_reads
           disk_controller disk_table disk_table_used gogoboot_disk_init_done].
      rewrite <- ?app_assoc. cbn [seq map flat_map].
      rewrite <- ?app_assoc. rewrite <- plus_n_Sm. reflexivity.
    + rewrite length_app. simpl. lia.
    + lia.
Qed.

(** C6: each routine moves exactly 256 words, that is 512 bytes, through the
    data port and byte-swaps every one of them; bytes of the buffer outside
    the sector are left alone.  When the device hands back the words that a
    write of a 512-byte buffer put on the port, the read stores a buffer that
    is byte for byte the one written. *)
Theorem sector_data_round_trip :
  forall (ctrl ctrl' : disk_controller_t) (src dst : list Z) (w w2 : world),
  length src = 512%nat -> Forall is_byte src -> length dst = 512%nat ->
  map data_at (seq (data_reads w2) 256) =
  out16_values
    (events_since w (gogoboot_disk_write_sector_data ctrl src 0 w)) ->
  (* the write *)
  out16_values (events_since w (gogoboot_disk_write_sector_data ctrl src 0 w))
  = map bswap16 (pair_words src) /\
  length (pair_words src) = 256%nat /\
  (* the read *)
  (forall pre body post w0,
     length body = 512%nat ->
     gogoboot_disk_read_sector_data ctrl' (pre ++ body ++ post)
                                    (Z.of_nat (length pre)) w0 =
     (pre ++ flat_map bytes_of_word
                (map bswap16 (map data_at (seq (data_reads w0) 256))) ++ post,
      mk_world (status_reads w0) (altstatus_reads w0) (data_reads w0 + 256)
               (tick_reads w0)
               (trace w0 ++ map (fun i => In16 (data_reg ctrl') (data_at i))
                                (seq (data_reads w0) 256))
               (disk_controller w0) (disk_table w0) (disk_table_used w0)
               (gogoboot_disk_init_done w0))) /\
  (* the round trip *)
  fst (gogoboot_disk_read_sector_data ctrl' dst 0 w2) = src.
Proof.
  intros ctrl ctrl' src dst w w2 Hsrc Hbytes Hdst Hwire.
  assert (Hwr : out16_values
                  (events_since w (gogoboot_disk_write_sector_data ctrl src 0 w))
                = map bswap16 (pair_words src)).
  { unfold gogoboot_disk_write_sector_data.
    rewrite <- (app_nil_r src) at 1. rewrite <- (app_nil_l (src ++ [])).
    rewrite (write_words_app 256 ctrl [] src []) by (auto; lia).
    erewrite events_since_app by reflexivity.
    unfold out16_values. generalize (pair_words src). intros l.
    induction l as [|v l IHl]; simpl; [reflexivity|]. f_equal. exact IHl. }
  assert (Hrd : forall pre body post w0,
     length body = 512%nat ->
     gogoboot_disk_read_sector_data ctrl' (pre ++ body ++ post)
                                    (Z.of_nat (length pre)) w0 =
     (pre ++ flat_map bytes_of_word
                (map bswap16 (map data_at (seq (data_reads w0) 256))) ++ post,
      mk_world (status_reads w0) (altstatus_reads w0) (data_reads w0 + 256)
               (tick_reads w0)
               (trace w0 ++ map (fun i => In16 (data_reg ctrl') (data_at i))
                                (seq (data_reads w0) 256))
               (disk_controller w0) (disk_table w0) (disk_table_used w0)
               (gogoboot_disk_init_done w0))).
  { intros pre body post w0 Hb. unfold gogoboot_disk_read_sector_data.
    apply (read_words_app 256); [reflexivity|lia]. }
  split_and!; auto.
  - apply length_pair_words. lia.
  - pose proof (Hrd [] dst [] w2 Hdst) as H0.
    change (Z.of_nat (length (@nil Z))) with 0 in H0.
    change ([] ++ dst ++ []) with (dst ++ []) in H0.
    rewrite (app_nil_r dst) in H0. rewrite H0. cbn [fst app].
    rewrite app_nil_r.
    rewrite Hwire, Hwr. rewrite map_map.
    rewrite (map_ext_in _ (fun v => v)).
    + rewrite map_id. apply pair_words_bytes; [assumption|].
      exists 256%nat. lia.
    + intros v Hv. apply bswap16_involutive.
      assert (Hr : Forall (fun v => 0 <= v < 65536) (pair_words src)).
      { clear -Hbytes. revert src Hbytes. fix IH 1.
        intros [|a [|b rest]] Hb; simpl; try constructor.
        - inversion Hb as [|? ? Ha Hb']. inversion Hb' as [|? ? Hb0 Hrest].
          unfold is_byte in *. lia.
        - inversion Hb as [|? ? Ha Hb']. inversion Hb' as [|? ? Hb0 Hrest].
          apply IH. assumption. }
      rewrite Forall_forall in Hr. apply Hr. apply list_elem_of_In. exact Hv.
Qed.

(** ** The guards of gogoboot_disk_readwrite *)

(** C8: with a disk index outside [0, gogoboot_disk_get_disk_count), read
    and write fail at once.  The state they leave differs from the state
    they found by one log line: no register of any controller is read or
    written, and no input stream is consumed. *)
Theorem gogoboot_disk_readwrite_bad_index :
  forall (fuel : nat) (disknr : Z) (buf : list Z) (sector sector_count : Z)
         (w : world),
  disknr < 0 \/ gogoboot_disk_get_disk_count w <= disknr ->
  let w' := emit (Printf "bad disk %d\n" [ArgInt disknr]) w in
  gogoboot_disk_read fuel disknr buf sector sector_count w
    = Some (false, buf, w') /\
  gogoboot_disk_write fuel disknr buf sector sector_count w
    = Some (false, buf, w') /\
  filter is_register_access (events_since w w') = [] /\
  status_reads w' = status_reads w /\
  altstatus_reads w' = altstatus_reads w /\
  data_reads w' = data_reads w.
Proof.
  intros fuel disknr buf sector sector_count w Hbad w'.
  assert (Hg : (disknr <? 0) || (disk_table_used w <=? disknr) = true).
  { unfold gogoboot_disk_get_disk_count in Hbad. apply orb_true_iff.
    destruct Hbad; [left; apply Z.ltb_lt|right; apply Z.leb_le]; assumption. }
  unfold gogoboot_disk_read, gogoboot_disk_write, gogoboot_disk_readwrite.
  rewrite Hg. split_and!; try reflexivity.
  erewrite events_since_app by reflexivity. reflexivity.
Qed.

(** C10: with a valid disk index and a sector count of zero or less the loop
    is not entered: the call succeeds and the state, trace included, is the
    one it found. *)
Theorem gogoboot_disk_readwrite_no_sectors :
  forall (fuel : nat) (disknr : Z) (buf : list Z) (sector sector_count : Z)
         (is_write : bool) (w : world),
  0 <= disknr < gogoboot_disk_get_disk_count w ->
  sector_count <= 0 ->
  gogoboot_disk_readwrite fuel disknr buf sector sector_count is_write w
  = Some (true, buf, w).
Proof.
  intros fuel disknr buf sector sector_count is_write w Hok Hn.
  unfold gogoboot_disk_get_disk_count in Hok.
  unfold gogoboot_disk_readwrite.
  destruct (Z.ltb_spec disknr 0); [lia|].
  destruct (Z.leb_spec (disk_table_used w) disknr); [lia|]. simpl.
  destruct (Z.to_nat sector_count); simpl;
    destruct (Z.ltb_spec 0 sector_count); try lia; reflexivity.
Qed.

(** ** gogoboot_disk_read_name *)

Lemma length_swap_pairs m : forall l,
  length l = (2 * m)%nat -> length (swap_pairs l) = (2 * m)%nat.
Proof.
  induction m as [|m IH]; intros l Hl.
  - destruct l; [reflexivity|discriminate].
  - destruct l as [|a [|b rest]]; simpl in Hl; try lia.
    simpl. rewrite (IH rest) by lia. lia.
Qed.

(** The copy loop over [id = idpre ++ field ++ idpost] and
    [buffer = pre ++ body ++ post], with enough turns. *)
Lemma read_name_loop_app m :
  forall n id idpre field idpost pre body post s offset,
  id = idpre ++ field ++ idpost ->
  Forall is_byte field ->
  length field = (2 * m)%nat -> length body = (2 * m)%nat ->
  s = Z.of_nat (length pre) -> offset = Z.of_nat (length idpre) ->
  (2 * m <= n)%nat ->
  read_name_loop n id (pre ++ body ++ post) s offset (Z.of_nat (2 * m)) =
  (pre ++ swap_pairs field ++ post, s + Z.of_nat (2 * m)).
Proof.
  induction m as [|m IH];
    intros n id idpre field idpost pre body post s offset Hid Hb Hf Hbody Hs Ho Hn.
  - destruct field; [|discriminate]. destruct body; [|discriminate].
    destruct n; simpl; rewrite Z.add_0_r; reflexivity.
  - destruct field as [|a [|b field]]; simpl in Hf; try lia.
    destruct body as [|x [|y body]]; simpl in Hbody; try lia.
    destruct n as [|n]; [lia|].
    cbn [read_name_loop].
    destruct (Z.ltb_spec 0 (Z.of_nat (2 * S m))); [|lia].
    pose proof (Forall_inv Hb) as Ha.
    pose proof (Forall_inv (Forall_inv_tail Hb)) as Hb0.
    pose proof (Forall_inv_tail (Forall_inv_tail Hb)) as Hb2.
    assert (E1 : byte_at id (offset + 1) = b).
    { rewrite Hid. apply (byte_at_app_1 idpre). exact Ho. }
    assert (E0 : byte_at id offset = a).
    { rewrite Hid. apply (byte_at_app_0 idpre). exact Ho. }
    rewrite E1, E0.
    cbn [app]. rewrite (store_byte_app_0 pre) by exact Hs.
    change (pre ++ b mod 256 :: y :: body ++ post)
      with (pre ++ [b mod 256] ++ y :: body ++ post).
    rewrite app_assoc. rewrite (store_byte_app_0 (pre ++ [_])) by
      (rewrite length_app; simpl; lia).
    unfold is_byte in Ha, Hb0. rewrite !Z.mod_small by lia.
    change ((pre ++ [b]) ++ a :: body ++ post)
      with ((pre ++ [b]) ++ [a] ++ body ++ post).
    rewrite app_assoc.
    replace (Z.of_nat (2 * S m) - 2) with (Z.of_nat (2 * m)) by lia.
    rewrite (IH n id (idpre ++ [a; b]) field idpost
                ((pre ++ [b]) ++ [a]) body post).
    + rewrite <- !app_assoc. cbn [app swap_pairs]. f_equal. lia.
    + rewrite Hid, <- app_assoc. reflexivity.
    + assumption.
    + lia.
    + lia.
    + rewrite !length_app. simpl. lia.
    + rewrite length_app. simpl. lia.
    + lia.
Qed.

Lemma strlen_app_nul l r : strlen (l ++ 0 :: r) = strlen l.
Proof.
  induction l as [|c l IH]; simpl; [reflexivity|].
  destruct (c =? 0); [reflexivity|]. f_equal. exact IH.
Qed.

Lemma strlen_le l : (strlen l <= length l)%nat.
Proof.
  induction l as [|c l IH]; simpl; [lia|]. destruct (c =? 0); lia.
Qed.

(** No NUL among the first [k] bytes and a NUL after them. *)
Lemma strlen_nonzero_prefix l r :
  Forall (fun c => c <> 0) l -> strlen (l ++ 0 :: r) = length l.
Proof.
  induction 1 as [|c l Hc _ IH]; simpl; [reflexivity|].
  destruct (Z.eqb_spec c 0); [contradiction|]. f_equal. exact IH.
Qed.

Lemma c_string_nonzero l : Forall (fun c => c <> 0) (c_string l).
Proof.
  unfold c_string. induction l as [|c l IH]; simpl; [constructor|].
  destruct (Z.eqb_spec c 0); simpl; constructor; assumption.
Qed.

Lemma strip_snoc l c :
  strip_trailing_spaces (l ++ [c]) =
  if c =? 32 then strip_trailing_spaces l else l ++ [c].
Proof.
  induction l as [|d l IH]; simpl.
  - destruct (c =? 32); reflexivity.
  - rewrite IH. destruct (c =? 32) eqn:Hc.
    + reflexivity.
    + destruct l; reflexivity.
Qed.

(** The trimming loop finds the length of the stripped prefix. *)
Lemma rtrim_loop_spec buf : forall n,
  (n <= length buf)%nat ->
  take (rtrim_loop buf n) buf = strip_trailing_spaces (take n buf) /\
  (rtrim_loop buf n <= n)%nat.
Proof.
  induction n as [|n IH]; intros Hn.
  - simpl. rewrite take_0. split; [reflexivity|lia].
  - cbn [rtrim_loop]. rewrite byte_at_nat.
    destruct (lookup_lt_is_Some_2 buf n ltac:(lia)) as [c Hc].
    rewrite Hc. cbn [default from_option]. change (id c) with c.
    rewrite (take_S_r buf n c Hc), strip_snoc.
    destruct (c =? 32).
    + destruct (IH ltac:(lia)) as [IH1 IH2]. split; [exact IH1|lia].
    + rewrite (take_S_r buf n c Hc). split; [reflexivity|lia].
Qed.

Lemma swap_pairs_Forall (P : Z -> Prop) : forall l,
  Forall P l -> Forall P (swap_pairs l).
Proof.
  fix IH 1. intros [|a [|b rest]] H; simpl; try constructor.
  - exact (Forall_inv (Forall_inv_tail H)).
  - constructor; [exact (Forall_inv H)|].
    apply IH. exact (Forall_inv_tail (Forall_inv_tail H)).
Qed.

Lemma c_string_all l : Forall (fun c => c <> 0) l -> c_string l = l.
Proof.
  unfold c_string. induction 1 as [|c l Hc _ IH]; simpl; [reflexivity|].
  destruct (Z.eqb_spec c 0); [contradiction|]. simpl. f_equal. exact IH.
Qed.

(** The whole routine on a destination cut as [body ++ x :: post]. *)
Lemma gogoboot_disk_read_name_app m id idpre field idpost body x post :
  id = idpre ++ field ++ idpost ->
  Forall is_byte field ->
  length field = (2 * m)%nat -> length body = (2 * m)%nat ->
  let D := swap_pairs field in
  let k := length (strip_trailing_spaces (c_string D)) in
  gogoboot_disk_read_name id (body ++ x :: post)
    (Z.of_nat (length idpre)) (Z.of_nat (2 * m))
  = <[k := 0]> (D ++ 0 :: post) /\
  take k (D ++ 0 :: post) = strip_trailing_spaces (c_string D) /\
  (k <= strlen D)%nat.
Proof.
  intros Hid Hb Hf Hbody D k.
  assert (HD : length D = (2 * m)%nat) by (apply length_swap_pairs; exact Hf).
  unfold gogoboot_disk_read_name. rewrite Nat2Z.id.
  rewrite (read_name_loop_app m (2 * m)%nat id idpre field idpost []
                              body (x :: post)) by (auto; lia).
  cbn [app]. fold D.
  rewrite Z.add_0_l.
  rewrite (store_byte_app_0 D x post) by lia.
  change (0 mod 256) with 0.
  rewrite strlen_app_nul.
  pose proof (strlen_le D) as Hle.
  assert (Hin : (strlen D <= length (D ++ 0%Z :: post))%nat)
    by (rewrite length_app; lia).
  destruct (rtrim_loop_spec (D ++ 0 :: post) (strlen D) Hin) as [Ht Hk].
  rewrite (take_app_le D _ (strlen D)) in Ht by lia. fold (c_string D) in Ht.
  assert (Hkk : rtrim_loop (D ++ 0 :: post) (strlen D) = k).
  { unfold k. rewrite <- Ht. rewrite length_take, length_app. simpl. lia. }
  rewrite Hkk in *. rewrite store_byte_nat. change (0 mod 256) with 0.
  split_and!; auto.
Qed.

(** C7: for an even field length the copy loop writes the field with the
    bytes of each pair exchanged and stops at offset [len], where the
    terminator goes; the C string left in the buffer is the C string of the
    decoded field without its trailing spaces, NUL-terminated.  When the
    field holds no NUL that is the whole decoded field without its trailing
    spaces; spaces inside the name are kept.  The pair-swapped encoding of
    "SAMPLE DISK   " decodes to "SAMPLE DISK". *)
Theorem gogoboot_disk_read_name_decodes :
  (forall (id buffer : list Z) (offset len : Z),
     0 <= offset -> 0 <= len -> Z.even len = true ->
     offset + len <= Z.of_nat (length id) ->
     len < Z.of_nat (length buffer) ->
     Forall is_byte id ->
     let field := take (Z.to_nat len) (drop (Z.to_nat offset) id) in
     let out := gogoboot_disk_read_name id buffer offset len in
     read_name_loop (Z.to_nat len) id buffer 0 offset len
       = (swap_pairs field ++ drop (Z.to_nat len) buffer, len) /\
     c_string out = strip_trailing_spaces (c_string (swap_pairs field)) /\
     byte_at out (Z.of_nat (length (c_string out))) = 0 /\
     byte_at out len = 0 /\
     length out = length buffer /\
     (Forall (fun c => c <> 0) field ->
      c_string out = strip_trailing_spaces (swap_pairs field))) /\
  c_string (gogoboot_disk_read_name
              (swap_pairs (bytes_of_string "SAMPLE DISK   "))
              (repeat 0 15%nat) 0 14)
  = bytes_of_string "SAMPLE DISK".
Proof.
  split; [|reflexivity].
  intros id buffer offset len Ho Hl Hev Hid Hbuf Hb field out.
  apply Z.even_spec in Hev. destruct Hev as [q Hq].
  set (m := Z.to_nat q).
  assert (Hlen : len = Z.of_nat (2 * m)) by (unfold m; lia).
  assert (Hlen' : Z.to_nat len = (2 * m)%nat) by lia.
  set (idpre := take (Z.to_nat offset) id).
  set (idpost := drop (Z.to_nat len) (drop (Z.to_nat offset) id)).
  assert (Hsplit : id = idpre ++ field ++ idpost).
  { unfold idpre, field, idpost. rewrite take_drop, take_drop. reflexivity. }
  assert (Hidpre : length idpre = Z.to_nat offset).
  { unfold idpre. rewrite length_take. lia. }
  assert (Hfield : length field = (2 * m)%nat).
  { unfold field. rewrite length_take, length_drop. lia. }
  assert (Hfb : Forall is_byte field).
  { unfold field. apply Forall_take, Forall_drop. exact Hb. }
  set (body := take (Z.to_nat len) buffer).
  assert (Hbody : length body = (2 * m)%nat).
  { unfold body. rewrite length_take. lia. }
  destruct (drop (Z.to_nat len) buffer) as [|x post] eqn:Hpost.
  { apply (f_equal length) in Hpost. rewrite length_drop in Hpost.
    simpl in Hpost. lia. }
  assert (Hbuffer : buffer = body ++ x :: post).
  { unfold body. rewrite <- Hpost, take_drop. reflexivity. }
  assert (HD : length (swap_pairs field) = (2 * m)%nat)
    by (apply length_swap_pairs; exact Hfield).
  pose proof (strlen_le (swap_pairs field)) as Hsl.
  destruct (gogoboot_disk_read_name_app m id idpre field idpost body x post
              Hsplit Hfb Hfield Hbody) as (Hout & Htake & Hk).
  replace (Z.of_nat (length idpre)) with offset in Hout by lia.
  rewrite <- Hlen, <- Hbuffer in Hout. fold out in Hout.
  set (D := swap_pairs field) in *.
  set (k := length (strip_trailing_spaces (c_string D))) in *.
  assert (Hklt : (k < length (D ++ 0%Z :: post))%nat).
  { rewrite length_app. simpl. lia. }
  assert (Hcs : c_string out = strip_trailing_spaces (c_string D)).
  { rewrite Hout. rewrite insert_take_drop by exact Hklt.
    unfold c_string at 1. rewrite strlen_nonzero_prefix.
    - rewrite take_app_length. exact Htake.
    - rewrite Htake. rewrite <- Htake.
      replace (take k (D ++ 0 :: post)) with (take k (c_string D)).
      + apply Forall_take, c_string_nonzero.
      + unfold c_string. rewrite take_take.
        replace (k `min` strlen D)%nat with k by lia.
        rewrite take_app_le by lia. reflexivity. }
  split_and!.
  - rewrite Hbuffer at 1. rewrite Hlen at 2 3.
    rewrite <- (app_nil_l (body ++ x :: post)).
    rewrite Hlen'.
    rewrite (read_name_loop_app m (2 * m)%nat id idpre field idpost []
                                body (x :: post)) by (auto; lia).
    rewrite Z.add_0_l. reflexivity.
  - exact Hcs.
  - rewrite Hcs. fold k. rewrite byte_at_nat, Hout.
    rewrite list_lookup_insert_eq by exact Hklt. reflexivity.
  - rewrite Hlen, byte_at_nat, Hout.
    destruct (Nat.eq_dec k (2 * m)%nat) as [Heq|Hne].
    + rewrite <- Heq. rewrite list_lookup_insert_eq by exact Hklt. reflexivity.
    + rewrite list_lookup_insert_ne by exact Hne.
      rewrite lookup_app_r by lia. rewrite HD, Nat.sub_diag. reflexivity.
  - rewrite Hout, length_insert, Hbuffer, !length_app. simpl. lia.
  - intros Hnz. rewrite Hcs. f_equal. apply c_string_all.
    apply swap_pairs_Forall. exact Hnz.
Qed.

(** ** gogoboot_disk_table_init *)

Lemma probe_frame_refl w : probe_frame w w.
Proof. unfold probe_frame, same_globals. auto. Qed.

Lemma probe_frame_trans w1 w2 w3 :
  probe_frame w1 w2 -> probe_frame w2 w3 -> probe_frame w1 w3.
Proof.
  unfold probe_frame, same_globals.
  intros ((A1 & A2 & A3 & A4) & A5) ((B1 & B2 & B3 & B4) & B5).
  split_and!; congruence.
Qed.

Lemma probe_frame_emit e w : probe_frame w (emit e w).
Proof. unfold probe_frame, same_globals. simpl. auto. Qed.

Lemma probe_frame_wait fuel ctrl bits w b w' :
  gogoboot_disk_wait fuel ctrl bits w = Some (b, w') -> probe_frame w w'.
Proof.
  intros H. apply gogoboot_disk_wait_post in H.
  destruct H as (_ & _ & _ & _ & Hd & Hg). split; assumption.
Qed.

Lemma read_words_globals n : forall ctrl buf p w,
  same_globals w (snd (read_words n ctrl buf p w)).
Proof.
  induction n as [|n IH]; intros ctrl buf p w; simpl.
  - unfold same_globals. auto.
  - specialize (IH ctrl (store16 buf p (bswap16 (data_in dev (data_reads w) mod 65536)))
                   (p + 2)
                   (snd (in_data ctrl w))).
    unfold same_globals in *. simpl in IH. exact IH.
Qed.

(** The sector that a read delivers depends on the state only through the
    position in the data stream. *)
Lemma read_words_fst n : forall ctrl ctrl' buf p w w',
  data_reads w' = data_reads w ->
  fst (read_words n ctrl' buf p w') = fst (read_words n ctrl buf p w).
Proof.
  induction n as [|n IH]; intros ctrl ctrl' buf p w w' Hd; simpl.
  - reflexivity.
  - rewrite Hd. apply IH. simpl. congruence.
Qed.

Lemma gogoboot_disk_read_sector_data_globals ctrl buf p w :
  same_globals w (snd (gogoboot_disk_read_sector_data ctrl buf p w)).
Proof. apply read_words_globals. Qed.

Lemma lba_bit_clear ctrl buffer w w1 :
  Z.testbit
    (byte_at (fst (gogoboot_disk_read_sector_data ctrl buffer 0 w)) 99) 1
  = false ->
  data_reads w1 = data_reads w ->
  (Z.land (byte_at (fst (gogoboot_disk_read_sector_data ctrl buffer 0 w1)) 99)
          0x02 =? 0) = true.
Proof.
  intros Hbit Hd.
  replace (fst (gogoboot_disk_read_sector_data ctrl buffer 0 w1))
    with (fst (gogoboot_disk_read_sector_data ctrl buffer 0 w))
    by (symmetry; apply read_words_fst; exact Hd).
  change 0x02 with (2^1). rewrite land_pow2 by lia. rewrite Hbit. reflexivity.
Qed.

Lemma probe_frame_registry w w' :
  probe_frame w w' ->
  disk_table w' = disk_table w /\
  gogoboot_disk_get_disk_count w' = gogoboot_disk_get_disk_count w.
Proof.
  intros ((_ & H2 & H3 & _) & _). unfold gogoboot_disk_get_disk_count. auto.
Qed.

Lemma table_init_without_lba_frame fuel ctrl disk buffer prod w w' :
  Z.testbit
    (byte_at (fst (gogoboot_disk_read_sector_data ctrl buffer 0 w)) 99) 1
  = false ->
  gogoboot_disk_table_init fuel ctrl disk buffer prod w = Some w' ->
  disk_table w' = disk_table w /\
  gogoboot_disk_get_disk_count w' = gogoboot_disk_get_disk_count w.
Proof.
  intros Hbit Hrun.
  pose proof (lba_bit_clear ctrl buffer w) as Hland.
  pose proof probe_frame_registry as Hframe.
  revert Hrun.
  intros Hrun. unfold gogoboot_disk_table_init in Hrun.
    set (w0 := printf "IDE probe 0x%x disk %d: "
                 [ArgInt (base_io ctrl); ArgInt disk] w) in Hrun.
    assert (F0 : probe_frame w w0) by apply probe_frame_emit.
    destruct (if disk =? 0 then Some 224
              else if disk =? 1 then Some 240 else None) as [sel|].
    2:{ inversion Hrun; subst. apply (Hframe w).
        eapply probe_frame_trans; [exact F0|]. apply probe_frame_emit. }
    set (w1 := out8 (device_reg ctrl) sel w0) in Hrun.
    assert (F1 : probe_frame w w1).
    { eapply probe_frame_trans; [exact F0|apply probe_frame_emit]. }
    destruct (gogoboot_disk_wait fuel ctrl IDE_STATUS_READY w1)
      as [[[] w2]|] eqn:Hw1; [| |discriminate].
    2:{ inversion Hrun; subst. apply (Hframe w).
        eapply probe_frame_trans; [exact F1|].
        eapply probe_frame_trans; [eapply probe_frame_wait; exact Hw1|].
        apply probe_frame_emit. }
    assert (F2 : probe_frame w w2).
    { eapply probe_frame_trans; [exact F1|eapply probe_frame_wait; exact Hw1]. }
    set (w3 := out8 (command_reg ctrl) IDE_CMD_IDENTIFY w2) in Hrun.
    assert (F3 : probe_frame w w3).
    { eapply probe_frame_trans; [exact F2|apply probe_frame_emit]. }
    destruct (gogoboot_disk_wait fuel ctrl IDE_STATUS_DATAREQUEST w3)
      as [[[] w4]|] eqn:Hw3; [| |discriminate].
    2:{ inversion Hrun; subst. apply (Hframe w).
        eapply probe_frame_trans; [exact F3|].
        eapply probe_frame_trans; [eapply probe_frame_wait; exact Hw3|].
        apply probe_frame_emit. }
    assert (F4 : probe_frame w w4).
    { eapply probe_frame_trans; [exact F3|eapply probe_frame_wait; exact Hw3]. }
    pose proof (Hland w4 Hbit (proj2 F4)) as Hl.
    pose proof (gogoboot_disk_read_sector_data_globals ctrl buffer 0 w4) as Hg.
    destruct (gogoboot_disk_read_sector_data ctrl buffer 0 w4) as [page w5].
    cbn [fst snd] in Hl, Hg. rewrite Hl in Hrun.
    inversion Hrun; subst. unfold gogoboot_disk_get_disk_count.
    destruct F4 as ((_ & G2 & G3 & _) & _).
    destruct Hg as (_ & G2' & G3' & _). simpl. split; congruence.
Qed.

Lemma table_init_without_lba_returns fuel ctrl disk buffer prod w :
  Z.testbit
    (byte_at (fst (gogoboot_disk_read_sector_data ctrl buffer 0 w)) 99) 1
  = false ->
  disk = 0 \/ disk = 1 -> (0 < fuel)%nat ->
  wait_success IDE_STATUS_READY (status_at (status_reads w)) = true ->
  wait_success IDE_STATUS_DATAREQUEST (status_at (S (status_reads w)))
  = true ->
  exists w',
    gogoboot_disk_table_init fuel ctrl disk buffer prod w = Some w' /\
    last (trace w') = Some (Printf "LBA not supported.\n" []).
Proof.
  intros Hbit.
  pose proof (lba_bit_clear ctrl buffer w) as Hland.
  intros Hdisk Hfuel Hready Hdrq.
    unfold gogoboot_disk_table_init.
    set (w0 := printf "IDE probe 0x%x disk %d: "
                 [ArgInt (base_io ctrl); ArgInt disk] w).
    assert (Hsel : exists sel,
              (if disk =? 0 then Some 224
               else if disk =? 1 then Some 240 else None) = Some sel).
    { destruct Hdisk as [-> | ->]; simpl; eauto. }
    destruct Hsel as [sel ->].
    set (w1 := out8 (device_reg ctrl) sel w0).
    destruct (gogoboot_disk_wait_decides 0 fuel ctrl IDE_STATUS_READY w1)
      as (w2 & Hw1 & Hs2 & _).
    { lia. } { intros i Hi. lia. }
    { left. simpl. rewrite Nat.add_0_r. exact Hready. }
    simpl status_reads in Hw1, Hs2. rewrite Nat.add_0_r in Hw1.
    rewrite Hready in Hw1. rewrite Hw1.
    set (w3 := out8 (command_reg ctrl) IDE_CMD_IDENTIFY w2).
    destruct (gogoboot_disk_wait_decides 0 fuel ctrl IDE_STATUS_DATAREQUEST w3)
      as (w4 & Hw3 & Hs4 & _).
    { lia. } { intros i Hi. lia. }
    { left. simpl. rewrite Nat.add_0_r, Hs2.
      replace (status_reads w + 1)%nat with (S (status_reads w)) by lia.
      exact Hdrq. }
    simpl status_reads in Hw3. rewrite Nat.add_0_r, Hs2 in Hw3.
    replace (status_reads w + 1)%nat with (S (status_reads w)) in Hw3 by lia.
    rewrite Hdrq in Hw3. rewrite Hw3.
    assert (F4 : data_reads w4 = data_reads w).
    { apply probe_frame_wait in Hw1. apply probe_frame_wait in Hw3.
      destruct Hw1 as (_ & D1). destruct Hw3 as (_ & D3).
      rewrite D3. simpl. rewrite D1. reflexivity. }
    pose proof (Hland w4 Hbit F4) as Hl.
    destruct (gogoboot_disk_read_sector_data ctrl buffer 0 w4) as [page w5].
    cbn [fst] in Hl. rewrite Hl.
    eexists. split; [reflexivity|]. unfold printf, emit. cbn [trace].
    apply last_snoc.
Qed.

(** C9: when the IDENTIFY page that the device delivers has bit 1 of byte 99
    clear, a probe that returns has appended nothing: the registry and the
    disk count are the ones it found.  With a device that is ready and
    requests data at the first poll the probe does return, and its last act
    is the log line of the rejection. *)
Theorem gogoboot_disk_table_init_rejects_without_lba :
  forall (fuel : nat) (ctrl : disk_controller_t) (disk : Z)
         (buffer prod : list Z) (w : world),
  Z.testbit
    (byte_at (fst (gogoboot_disk_read_sector_data ctrl buffer 0 w)) 99) 1
  = false ->
  (forall w',
     gogoboot_disk_table_init fuel ctrl disk buffer prod w = Some w' ->
     disk_table w' = disk_table w /\
     gogoboot_disk_get_disk_count w' = gogoboot_disk_get_disk_count w) /\
  (disk = 0 \/ disk = 1 -> (0 < fuel)%nat ->
   wait_success IDE_STATUS_READY (status_at (status_reads w)) = true ->
   wait_success IDE_STATUS_DATAREQUEST (status_at (S (status_reads w)))
   = true ->
   exists w',
     gogoboot_disk_table_init fuel ctrl disk buffer prod w = Some w' /\
     last (trace w') = Some (Printf "LBA not supported.\n" [])).
Proof.
  intros fuel ctrl disk buffer prod w Hbit. split.
  - intros w' Hrun. eapply table_init_without_lba_frame; eauto.
  - apply table_init_without_lba_returns. exact Hbit.
Qed.

(** ** gogoboot_disk_readwrite: what reaches the registers *)

Lemma out8_writes_app a b :
  out8_writes (a ++ b) = out8_writes a ++ out8_writes b.
Proof. apply flat_map_app. Qed.

Lemma data_words_app a b :
  data_words (a ++ b) = (data_words a + data_words b)%nat.
Proof. unfold data_words. rewrite List.filter_app, length_app. reflexivity. Qed.

Lemma poll_events_quiet evs :
  forallb is_poll_event evs = true ->
  out8_writes evs = [] /\ data_words evs = O.
Proof.
  induction evs as [|e evs IH]; simpl; [auto|].
  intros H. apply andb_true_iff in H. destruct H as [He H].
  destruct (IH H) as [IH1 IH2]. unfold data_words in *.
  destruct e; simpl in *; try discriminate; auto.
Qed.

Lemma device_byte s sel :
  sel = 0xE0 \/ sel = 0xF0 ->
  (Z.lor (Z.land (Z.shiftr s 24) 0x0F) sel) mod 256 = sel + (s / 2^24) mod 16.
Proof.
  intros Hsel. change 0x0F with (Z.ones 4). rewrite Z.land_ones by lia.
  rewrite Z.shiftr_div_pow2 by lia.
  pose proof (Z.mod_pos_bound (s / 2^24) (2^4) ltac:(lia)) as Hb.
  rewrite Z.lor_comm.
  destruct Hsel as [-> | ->].
  - change 0xE0 with (14 * 2^4). rewrite lor_shifted_pow by lia.
    change (2^4) with 16 in *. rewrite Z.mod_small; lia.
  - change 0xF0 with (15 * 2^4). rewrite lor_shifted_pow by lia.
    change (2^4) with 16 in *. rewrite Z.mod_small; lia.
Qed.

Lemma lba_byte s k :
  0 <= k -> (Z.land (Z.shiftr s k) 0xFF) mod 256 = (s / 2^k) mod 256.
Proof.
  intros Hk. change 0xFF with (Z.ones 8). rewrite Z.land_ones by lia.
  rewrite Z.shiftr_div_pow2 by lia. change (2^8) with 256.
  apply Z.mod_mod. lia.
Qed.

(** *** Steps of a transfer *)

Lemma step_refl w : step_post w w [] O.
Proof. exists []. rewrite app_nil_r. auto. Qed.

Lemma step_trans w1 w2 w3 a b n m :
  step_post w1 w2 a n -> step_post w2 w3 b m ->
  step_post w1 w3 (a ++ b) (n + m).
Proof.
  intros (e1 & T1 & O1 & D1) (e2 & T2 & O2 & D2).
  exists (e1 ++ e2). rewrite T2, T1, <- app_assoc.
  rewrite out8_writes_app, data_words_app. subst. auto.
Qed.

Lemma step_out8 p v w : step_post w (out8 p v w) [(p, v mod 256)] O.
Proof. eexists. split; [reflexivity|]. auto. Qed.

Lemma step_wait fuel ctrl bits w b w' :
  gogoboot_disk_wait fuel ctrl bits w = Some (b, w') -> step_post w w' [] O.
Proof.
  intros H. apply gogoboot_disk_wait_post in H.
  destruct H as (_ & _ & _ & (evs & Ht & Hp) & _).
  exists evs. split; [exact Ht|]. apply poll_events_quiet. exact Hp.
Qed.

Lemma step_write_words n : forall ctrl buf p w,
  step_post w (write_words n ctrl buf p w) [] n.
Proof.
  induction n as [|n IH]; intros ctrl buf p w.
  - apply step_refl.
  - cbn [write_words].
    change (@nil (Z * Z)) with (@nil (Z * Z) ++ []).
    change (S n) with (1 + n)%nat.
    eapply step_trans; [|apply IH].
    eexists. split; [reflexivity|]. auto.
Qed.

Lemma step_read_words n : forall ctrl buf p w,
  step_post w (snd (read_words n ctrl buf p w)) [] n.
Proof.
  induction n as [|n IH]; intros ctrl buf p w.
  - apply step_refl.
  - cbn [read_words in_data].
    change (@nil (Z * Z)) with (@nil (Z * Z) ++ []).
    change (S n) with (1 + n)%nat.
    eapply step_trans; [|apply IH].
    eexists. split; [reflexivity|]. auto.
Qed.

Lemma step_reached w w' a n : step_post w w' a n -> reached_from w w'.
Proof. intros (evs & H & _). exists evs. exact H. Qed.

Lemma reached_trans w1 w2 w3 :
  reached_from w1 w2 -> reached_from w2 w3 -> reached_from w1 w3.
Proof.
  intros (e1 & H1) (e2 & H2). exists (e1 ++ e2).
  rewrite H2, H1, app_assoc. reflexivity.
Qed.

Lemma aborted_by_wait_reached fuel ctrl w1 w2 w' :
  reached_from w1 w2 -> aborted_by_wait fuel ctrl w2 w' ->
  aborted_by_wait fuel ctrl w1 w'.
Proof.
  intros Hr (w0 & bits & Hb & Hr0 & Hw). exists w0, bits.
  split_and!; auto. eapply reached_trans; eauto.
Qed.

(** The inner loop: [done] sectors go over the data port, all of the chunk
    on success, fewer when a wait for DATAREQUEST fails. *)
Lemma rw_sectors_post n :
  forall fuel ctrl is_write buf buff nsect w ok buf' buff' w',
  rw_sectors n fuel ctrl is_write buf buff nsect w
    = Some (ok, buf', buff', w') ->
  exists done : nat,
    step_post w w' [] (256 * done) /\
    (ok = true -> Z.of_nat done = Z.max nsect 0) /\
    (ok = false -> aborted_by_wait fuel ctrl w w').
Proof.
  induction n as [|n IH];
    intros fuel ctrl is_write buf buff nsect w ok buf' buff' w' H;
    cbn [rw_sectors] in H;
    (destruct (Z.ltb_spec 0 nsect) as [Hpos|Hneg];
     [|inversion H; subst; exists O; split_and!;
       [apply step_refl|intros _; lia|discriminate]]).
  - discriminate.
  - destruct (gogoboot_disk_wait fuel ctrl IDE_STATUS_DATAREQUEST w)
      as [[[] w1]|] eqn:Hw; [| |discriminate].
    + pose proof (step_wait _ _ _ _ _ _ Hw) as S1.
      set (r := if is_write
                then (buf, gogoboot_disk_write_sector_data ctrl buf buff w1)
                else gogoboot_disk_read_sector_data ctrl buf buff w1) in H.
      assert (S2 : step_post w1 (snd r) [] 256).
      { unfold r. destruct is_write; cbn [snd].
        - apply step_write_words.
        - apply step_read_words. }
      destruct r as [buf1 w2]. cbn [snd] in S2.
      apply IH in H. destruct H as (done & S3 & Hok & Hab).
      exists (S done). split_and!.
      * replace (256 * S done)%nat with (0 + (256 + 256 * done))%nat by lia.
        change (@nil (Z * Z)) with (@nil (Z * Z) ++ ([] ++ [])).
        eapply step_trans; [exact S1|]. eapply step_trans; [exact S2|exact S3].
      * intros Ht. specialize (Hok Ht). lia.
      * intros Hf. eapply aborted_by_wait_reached; [|apply Hab; exact Hf].
        eapply reached_trans; eapply step_reached; eassumption.
    + inversion H; subst. exists O. split_and!.
      * eapply step_wait; exact Hw.
      * discriminate.
      * intros _. exists w, IDE_STATUS_DATAREQUEST. split_and!; auto.
        exists []. rewrite app_nil_r. reflexivity.
Qed.

(** The set-up writes of one turn of the outer loop. *)
Lemma step_chunk_setup disk sector nsect w :
  0 < nsect <= 256 ->
  let ctrl := disk_ctrl disk in
  step_post w
    (out8 (nsect_reg ctrl) (if nsect =? 256 then 0 else nsect)
       (out8 (lbal_reg ctrl) (Z.land sector 0xFF)
          (out8 (lbam_reg ctrl) (Z.land (Z.shiftr sector 8) 0xFF)
             (out8 (lbah_reg ctrl) (Z.land (Z.shiftr sector 16) 0xFF)
                (out8 (device_reg ctrl)
                   (Z.lor (Z.land (Z.shiftr sector 24) 0x0F)
                          (if disk_disk disk =? 0 then 0xE0 else 0xF0)) w)))))
    (chunk_setup disk sector nsect) O.
Proof.
  intros Hn ctrl. eexists. split.
  - unfold out8, emit. cbn [trace]. rewrite <- !app_assoc. reflexivity.
  - split; [|reflexivity]. unfold chunk_setup. cbn [out8_writes flat_map app].
    fold ctrl.
    rewrite device_byte by (destruct (disk_disk disk =? 0); auto).
    rewrite !lba_byte by lia.
    replace (Z.land sector 0xFF mod 256) with (sector mod 256).
    + replace ((if nsect =? 256 then 0 else nsect) mod 256)
        with (if nsect =? 256 then 0 else nsect).
      * reflexivity.
      * destruct (Z.eqb_spec nsect 256); [reflexivity|].
        rewrite Z.mod_small; lia.
    + change 0xFF with (Z.ones 8). rewrite Z.land_ones by lia.
      change (2^8) with 256. rewrite Z.mod_mod by lia. reflexivity.
Qed.

(** The outer loop.  Every byte write of the run belongs to a chunk: the
    run is a sequence of chunks, each programmed by its set-up and, when the
    device became ready, started by the command. *)
Lemma rw_chunks_post n : forall fuel disk is_write buf buff sector sector_count
                                w r buf' w',
  rw_chunks n fuel disk is_write buf buff sector sector_count w
    = Some (r, buf', w') ->
  exists (cs : list (Z * Z * bool)) (words : nat),
    step_post w w' (flat_map (chunk_writes disk is_write) cs) words /\
    chunk_seq sector sector_count (map fst cs) /\
    (r = true ->
       Forall (fun c => snd c = true) cs /\
       sum_Z (map (fun c => snd (fst c)) cs) = Z.max sector_count 0 /\
       Z.of_nat words = 256 * Z.max sector_count 0) /\
    (r = false -> aborted_by_wait fuel (disk_ctrl disk) w w').
Proof.
  induction n as [|n IH];
    intros fuel disk is_write buf buff sector sector_count w r buf' w' H;
    cbn [rw_chunks] in H;
    (destruct (Z.ltb_spec 0 sector_count) as [Hpos|Hneg];
     [|inversion H; subst; exists [], O; split_and!;
       [apply step_refl|exact I
       |intros _; split_and!; [constructor|simpl; lia|lia]
       |discriminate]]).
  - discriminate.
  - set (ctrl := disk_ctrl disk) in *.
    set (nsect := if 256 <=? sector_count then 256 else sector_count) in *.
    assert (Hns : nsect = Z.min sector_count 256).
    { unfold nsect. destruct (Z.leb_spec 256 sector_count); lia. }
    assert (Hrange : 0 < nsect <= 256) by lia.
    pose proof (step_chunk_setup disk sector nsect w Hrange) as S0.
    cbv zeta in S0. fold ctrl in S0.
    match type of S0 with step_post _ ?w1 _ _ => set (wp := w1) in * end.
    destruct (gogoboot_disk_wait fuel ctrl IDE_STATUS_READY wp)
      as [[[] w2]|] eqn:Hw; [| |discriminate].
    + pose proof (step_wait _ _ _ _ _ _ Hw) as S1.
      pose proof (step_out8 (command_reg ctrl)
                    (if is_write then IDE_CMD_WRITE_SECTOR
                     else IDE_CMD_READ_SECTOR) w2) as S2.
      replace ((if is_write then IDE_CMD_WRITE_SECTOR
                else IDE_CMD_READ_SECTOR) mod 256)
        with (if is_write then IDE_CMD_WRITE_SECTOR else IDE_CMD_READ_SECTOR)
        in S2 by (destruct is_write; reflexivity).
      match type of S2 with step_post _ ?w3 _ _ => set (wc := w3) in * end.
      assert (S012 : step_post w wc
                (chunk_writes disk is_write (sector, nsect, true)) O).
      { unfold chunk_writes. fold ctrl.
        replace (chunk_setup disk sector nsect ++
                 [(command_reg ctrl,
                   if is_write then IDE_CMD_WRITE_SECTOR
                   else IDE_CMD_READ_SECTOR)])
          with (chunk_setup disk sector nsect ++ [] ++
                [(command_reg ctrl,
                  if is_write then IDE_CMD_WRITE_SECTOR
                  else IDE_CMD_READ_SECTOR)]) by reflexivity.
        change O with (0 + (0 + 0))%nat.
        eapply step_trans; [exact S0|]. eapply step_trans; [exact S1|exact S2]. }
      destruct (rw_sectors (Z.to_nat nsect) fuel ctrl is_write buf buff nsect wc)
        as [[[[[] buf1] buff1] w4]|] eqn:Hs; [| |discriminate].
      * apply rw_sectors_post in Hs. destruct Hs as (done & S3 & Hok & _).
        specialize (Hok eq_refl).
        apply IH in H. destruct H as (cs & words & S4 & Hseq & Ht & Hf).
        exists ((sector, nsect, true) :: cs), (256 * done + words)%nat.
        split_and!.
        -- cbn [flat_map].
           replace (256 * done + words)%nat
             with (0 + (256 * done + words))%nat by lia.
           eapply step_trans; [exact S012|].
           change (flat_map (chunk_writes disk is_write) cs)
             with ([] ++ flat_map (chunk_writes disk is_write) cs).
           eapply step_trans; [exact S3|exact S4].
        -- cbn [map fst chunk_seq]. split_and!; auto.
        -- intros Hr. destruct (Ht Hr) as (Hall & Hsum & Hwords).
           split_and!.
           ++ constructor; [reflexivity|exact Hall].
           ++ cbn [map fst snd sum_Z fold_right]. fold (sum_Z (map (fun c => snd (fst c)) cs)).
              rewrite Hsum. lia.
           ++ lia.
        -- intros Hr. eapply aborted_by_wait_reached; [|apply Hf; exact Hr].
           eapply reached_trans; eapply step_reached; eassumption.
      * inversion H; subst. apply rw_sectors_post in Hs.
        destruct Hs as (done & S3 & _ & Hab). specialize (Hab eq_refl).
        exists [(sector, nsect, true)], (256 * done)%nat. split_and!.
        -- cbn [flat_map]. rewrite app_nil_r.
           rewrite <- (app_nil_r (chunk_writes _ _ _)).
           change (256 * done)%nat with (0 + 256 * done)%nat.
           eapply step_trans; [exact S012|exact S3].
        -- cbn [map fst chunk_seq]. split_and!; auto.
        -- discriminate.
        -- intros _. eapply aborted_by_wait_reached; [|exact Hab].
           eapply step_reached; exact S012.
    + inversion H; subst.
      exists [(sector, nsect, false)], O. split_and!.
      * cbn [flat_map chunk_writes]. rewrite !app_nil_r.
        rewrite <- (app_nil_r (chunk_setup _ _ _)).
        change O with (0 + 0)%nat.
        eapply step_trans; [exact S0|]. eapply step_wait; exact Hw.
      * cbn [map fst chunk_seq]. split_and!; auto.
      * discriminate.
      * intros _. exists wp, IDE_STATUS_READY. split_and!; auto.
        eapply step_reached; exact S0.
Qed.

Lemma step_events w w' writes words :
  step_post w w' writes words ->
  out8_writes (events_since w w') = writes /\
  data_words (events_since w w') = words.
Proof.
  intros (evs & Ht & Ho & Hd). rewrite (events_since_app _ _ _ Ht). auto.
Qed.

(** The loop that a call with a valid index enters. *)
Lemma gogoboot_disk_readwrite_valid fuel disknr buf sector sector_count
      is_write w :
  0 <= disknr < gogoboot_disk_get_disk_count w ->
  gogoboot_disk_readwrite fuel disknr buf sector sector_count is_write w =
  rw_chunks (Z.to_nat sector_count) fuel
            (default disk_zero (disk_table w !! Z.to_nat disknr))
            is_write buf 0 sector sector_count w.
Proof.
  unfold gogoboot_disk_get_disk_count. intros Hok.
  unfold gogoboot_disk_readwrite.
  destruct (Z.ltb_spec disknr 0); [lia|].
  destruct (Z.leb_spec (disk_table_used w) disknr); [lia|]. reflexivity.
Qed.

(** The device-select byte as the code computes it. *)
Lemma device_bits s sel :
  sel = 0xE0 \/ sel = 0xF0 ->
  Z.lor (Z.land (Z.shiftr s 24) 0x0F) sel = sel + (s / 2^24) mod 16.
Proof.
  intros Hsel. change 0x0F with (Z.ones 4). rewrite Z.land_ones by lia.
  rewrite Z.shiftr_div_pow2 by lia.
  pose proof (Z.mod_pos_bound (s / 2^24) (2^4) ltac:(lia)) as Hb.
  rewrite Z.lor_comm.
  destruct Hsel as [-> | ->].
  - change 0xE0 with (14 * 2^4). rewrite lor_shifted_pow by lia.
    reflexivity.
  - change 0xF0 with (15 * 2^4). rewrite lor_shifted_pow by lia.
    reflexivity.
Qed.

(** An LBA byte as the code computes it. *)
Lemma lba_bits s k :
  0 <= k -> Z.land (Z.shiftr s k) 0xFF = (s / 2^k) mod 256.
Proof.
  intros Hk. change 0xFF with (Z.ones 8). rewrite Z.land_ones by lia.
  rewrite Z.shiftr_div_pow2 by lia. reflexivity.
Qed.

(** A call for at least one sector begins with the set-up of its first
    chunk, whatever happens afterwards. *)
Lemma rw_chunks_head n fuel disk is_write buf buff sector sector_count
      w r buf' w' :
  0 < sector_count ->
  rw_chunks n fuel disk is_write buf buff sector sector_count w
    = Some (r, buf', w') ->
  exists rest,
    out8_writes (events_since w w')
    = chunk_setup disk sector (Z.min sector_count 256) ++ rest.
Proof.
  intros Hpos H. destruct n as [|n]; cbn [rw_chunks] in H;
    (destruct (Z.ltb_spec 0 sector_count) as [_|Hneg]; [|lia]);
    [discriminate H|].
  set (ctrl := disk_ctrl disk) in *.
  set (nsect := if 256 <=? sector_count then 256 else sector_count) in *.
  assert (Hns : nsect = Z.min sector_count 256).
  { unfold nsect. destruct (Z.leb_spec 256 sector_count); lia. }
  assert (Hrange : 0 < nsect <= 256) by lia.
  pose proof (step_chunk_setup disk sector nsect w Hrange) as S0.
  cbv zeta in S0. fold ctrl in S0.
  match type of S0 with step_post _ ?w1 _ _ => set (wp := w1) in * end.
  assert (Hrest : exists b m, step_post wp w' b m).
  { destruct (gogoboot_disk_wait fuel ctrl IDE_STATUS_READY wp)
      as [[[] w2]|] eqn:Hw; [| |discriminate H].
    - pose proof (step_wait _ _ _ _ _ _ Hw) as S1.
      match type of H with
        context [rw_sectors _ fuel ctrl is_write buf buff nsect ?w3] =>
        set (wc := w3) in *;
        assert (S2 : exists v, step_post w2 wc [v] O)
          by (eexists; apply step_out8)
      end.
      destruct S2 as (v & S2).
      destruct (rw_sectors (Z.to_nat nsect) fuel ctrl is_write buf buff
                  nsect wc)
        as [[[[[] buf1] buff1] w4]|] eqn:Hs; [| |discriminate H];
        apply rw_sectors_post in Hs; destruct Hs as (done & S3 & _ & _).
      + apply rw_chunks_post in H. destruct H as (cs & words & S4 & _).
        do 2 eexists.
        eapply step_trans; [exact S1|].
        eapply step_trans; [exact S2|].
        eapply step_trans; [exact S3|exact S4].
      + injection H as _ _ <-. do 2 eexists.
        eapply step_trans; [exact S1|].
        eapply step_trans; [exact S2|exact S3].
    - injection H as _ _ <-. do 2 eexists. eapply step_wait. exact Hw. }
  destruct Hrest as (b & m & S1).
  destruct (step_trans _ _ _ _ _ _ _ S0 S1) as (evs & Ht & Ho & _).
  exists b. rewrite (events_since_app _ _ _ Ht), Ho, Hns. reflexivity.
Qed.

(** C5: the byte writes of a call are those of its chunks, in order, and
    nothing else.  A call for at least one sector has a first chunk, at
    [sector] and of size [min sector_count 256], whether it succeeds or not;
    a call that returns true issued the command of every chunk, and the
    sizes of its chunks add up to [sector_count].  For the chunk at sector
    [s] of size [n] the writes are: the device register with
    [((s >> 24) & 0x0F) | 0xE0] (first device) or [| 0xF0] (second device),
    the high, mid and low LBA registers with bits 23-16, 15-8 and 7-0 of
    [s], the sector-count register with [n], 256 being written as 0, and
    then the command if the device became ready.  The first byte write of
    any call at sector 0x01234567 is therefore 0xE0 | 0x01 to the device
    register on the first device and 0xF0 | 0x01 on the second, and the
    fifth byte write of any call for 256 sectors or more is 0 to the
    sector-count register. *)
Theorem gogoboot_disk_readwrite_register_values :
  (forall (fuel : nat) (disknr : Z) (buf : list Z) (sector sector_count : Z)
          (is_write : bool) (w : world) (r : bool) (buf' : list Z)
          (w' : world),
     0 <= disknr < gogoboot_disk_get_disk_count w ->
     gogoboot_disk_readwrite fuel disknr buf sector sector_count is_write w
       = Some (r, buf', w') ->
     exists cs : list (Z * Z * bool),
       out8_writes (events_since w w') =
       flat_map (chunk_writes
                   (default disk_zero (disk_table w !! Z.to_nat disknr))
                   is_write) cs /\
       chunk_seq sector sector_count (map fst cs) /\
       (0 < sector_count ->
        exists (issued : bool) (rest : list (Z * Z * bool)),
          cs = (sector, Z.min sector_count 256, issued) :: rest) /\
       (r = true ->
        Forall (fun c => snd c = true) cs /\
        sum_Z (map (fun c => snd (fst c)) cs) = Z.max sector_count 0)) /\
  (forall (disk : disk_t) (s n : Z),
     chunk_setup disk s n =
     [ (device_reg (disk_ctrl disk),
        Z.lor (Z.land (Z.shiftr s 24) 0x0F)
              (if disk_disk disk =? 0 then 0xE0 else 0xF0));
       (lbah_reg (disk_ctrl disk), Z.land (Z.shiftr s 16) 0xFF);
       (lbam_reg (disk_ctrl disk), Z.land (Z.shiftr s 8) 0xFF);
       (lbal_reg (disk_ctrl disk), Z.land s 0xFF);
       (nsect_reg (disk_ctrl disk), if n =? 256 then 0 else n) ]) /\
  (forall (fuel : nat) (disknr : Z) (buf : list Z) (sector_count : Z)
          (is_write : bool) (w : world) (r : bool) (buf' : list Z)
          (w' : world),
     0 <= disknr < gogoboot_disk_get_disk_count w ->
     0 < sector_count ->
     gogoboot_disk_readwrite fuel disknr buf 0x01234567 sector_count
                             is_write w
       = Some (r, buf', w') ->
     (disk_disk (default disk_zero (disk_table w !! Z.to_nat disknr)) = 0 ->
      head (out8_writes (events_since w w'))
      = Some (device_reg
                (disk_ctrl
                   (default disk_zero (disk_table w !! Z.to_nat disknr))),
              Z.lor 0xE0 0x01)) /\
     (disk_disk (default disk_zero (disk_table w !! Z.to_nat disknr)) = 1 ->
      head (out8_writes (events_since w w'))
      = Some (device_reg
                (disk_ctrl
                   (default disk_zero (disk_table w !! Z.to_nat disknr))),
              Z.lor 0xF0 0x01))) /\
  (forall (fuel : nat) (disknr : Z) (buf : list Z) (sector sector_count : Z)
          (is_write : bool) (w : world) (r : bool) (buf' : list Z)
          (w' : world),
     0 <= disknr < gogoboot_disk_get_disk_count w ->
     256 <= sector_count ->
     gogoboot_disk_readwrite fuel disknr buf sector sector_count is_write w
       = Some (r, buf', w') ->
     nth 4 (out8_writes (events_since w w')) (0, 0)
     = (nsect_reg
          (disk_ctrl (default disk_zero (disk_table w !! Z.to_nat disknr))),
        0)).
Proof.
  split_and!.
  - intros fuel disknr buf sector sector_count is_write w r buf' w' Hok Hrun.
    rewrite gogoboot_disk_readwrite_valid in Hrun by exact Hok.
    pose proof (fun Hpos => rw_chunks_head _ _ _ _ _ _ _ _ _ _ _ _ Hpos Hrun)
      as Hhead.
    apply rw_chunks_post in Hrun.
    destruct Hrun as (cs & words & Hstep & Hseq & Hsucc & _).
    apply step_events in Hstep. destruct Hstep as [Hw _].
    exists cs. split_and!.
    + exact Hw.
    + exact Hseq.
    + intros Hpos. destruct (Hhead Hpos) as (rest & Hh).
      destruct cs as [|[[s n] issued] cs].
      * rewrite Hw in Hh. discriminate Hh.
      * cbn [map fst chunk_seq] in Hseq.
        destruct Hseq as (_ & -> & -> & _). exists issued, cs. reflexivity.
    + intros Hr. destruct (Hsucc Hr) as (Hall & Hsum & _). auto.
  - intros disk s n. unfold chunk_setup. cbv zeta.
    rewrite device_bits by (destruct (disk_disk disk =? 0); auto).
    rewrite !lba_bits by lia.
    change 0xFF with (Z.ones 8). rewrite Z.land_ones by lia.
    reflexivity.
  - intros fuel disknr buf sector_count is_write w r buf' w' Hok Hpos Hrun.
    rewrite gogoboot_disk_readwrite_valid in Hrun by exact Hok.
    destruct (rw_chunks_head _ _ _ _ _ _ _ _ _ _ _ _ Hpos Hrun)
      as (rest & ->).
    unfold chunk_setup. cbv zeta. split; intros ->; reflexivity.
  - intros fuel disknr buf sector sector_count is_write w r buf' w' Hok Hbig
           Hrun.
    rewrite gogoboot_disk_readwrite_valid in Hrun by exact Hok.
    assert (Hpos : 0 < sector_count) by lia.
    destruct (rw_chunks_head _ _ _ _ _ _ _ _ _ _ _ _ Hpos Hrun)
      as (rest & ->).
    replace (Z.min sector_count 256) with 256 by lia. reflexivity.
Qed.

Lemma rw_sectors_first_wait_fails n fuel ctrl is_write buf buff nsect w w1 :
  0 < nsect ->
  gogoboot_disk_wait fuel ctrl IDE_STATUS_DATAREQUEST w = Some (false, w1) ->
  rw_sectors (S n) fuel ctrl is_write buf buff nsect w
  = Some (false, buf, buff, w1).
Proof.
  intros Hn Hw. cbn [rw_sectors].
  destruct (Z.ltb_spec 0 nsect); [|lia]. rewrite Hw. reflexivity.
Qed.

Lemma command_writes_setup base disk sector nsect :
  disk_ctrl disk = controller_regs base ->
  List.filter (fun pv => fst pv =? command_reg (disk_ctrl disk))
              (chunk_setup disk sector nsect) = [].
Proof.
  intros Hc. unfold chunk_setup. rewrite Hc.
  cbn [List.filter fst controller_regs device_reg lbah_reg lbam_reg lbal_reg
       nsect_reg command_reg].
  unfold ISA_XLATE_ADDR_BYTE, ATA_REG_DEVICE, ATA_REG_LBAH, ATA_REG_LBAM,
         ATA_REG_LBAL, ATA_REG_NSECT, ATA_REG_CMD, ATA_REG_STATUS.
  repeat match goal with
         | |- context [?a =? ?b] => destruct (Z.eqb_spec a b); [lia|]
         end.
  reflexivity.
Qed.

(** The abort of the second claim's scenario, on the loop. *)
Lemma rw_chunks_no_data_request n fuel disk is_write buf buff sector
      sector_count w base j :
  disk_ctrl disk = controller_regs base ->
  256 <= sector_count ->
  wait_success IDE_STATUS_READY (status_at (status_reads w)) = true ->
  (forall i, (status_reads w < i)%nat ->
     wait_success IDE_STATUS_DATAREQUEST (status_at i) = false) ->
  timer_expired_at (deadline (S (tick_reads w)))
                   (ticks_at (S (S (tick_reads w)) + j)) = true ->
  (j < fuel)%nat ->
  exists w',
    rw_chunks (S n) fuel disk is_write buf buff sector sector_count w
      = Some (false, buf, w') /\
    command_writes (disk_ctrl disk) (events_since w w') =
      [(command_reg (disk_ctrl disk),
        if is_write then IDE_CMD_WRITE_SECTOR else IDE_CMD_READ_SECTOR)] /\
    data_words (events_since w w') = O.
Proof.
  intros Hc Hcount Hready Hnever Hexp Hfuel.
  cbn [rw_chunks]. destruct (Z.ltb_spec 0 sector_count); [|lia].
  destruct (Z.leb_spec 256 sector_count); [|lia].
  pose proof (step_chunk_setup disk sector 256 w ltac:(lia)) as S0.
  cbv zeta in S0. change (256 =? 256) with true in *. cbv iota in S0.
  match type of S0 with step_post _ ?w1 _ _ => set (wp := w1) in * end.
  destruct (gogoboot_disk_wait_decides 0 fuel (disk_ctrl disk)
              IDE_STATUS_READY wp) as (w2 & Hw & Hs2 & Ht2).
  { lia. } { intros i Hi. lia. }
  { left. rewrite Nat.add_0_r. exact Hready. }
  change (status_reads wp) with (status_reads w) in Hw, Hs2.
  change (tick_reads wp) with (tick_reads w) in Ht2.
  rewrite Nat.add_0_r in Hw, Ht2. rewrite Hready in Hw. rewrite Hw.
  pose proof (step_wait _ _ _ _ _ _ Hw) as S1.
  pose proof (step_out8 (command_reg (disk_ctrl disk))
                (if is_write then IDE_CMD_WRITE_SECTOR
                 else IDE_CMD_READ_SECTOR) w2) as S2.
  replace ((if is_write then IDE_CMD_WRITE_SECTOR
            else IDE_CMD_READ_SECTOR) mod 256)
    with (if is_write then IDE_CMD_WRITE_SECTOR else IDE_CMD_READ_SECTOR)
    in S2 by (destruct is_write; reflexivity).
  match type of S2 with step_post _ ?w3 _ _ => set (wc := w3) in * end.
  destruct (gogoboot_disk_wait_terminates j fuel (disk_ctrl disk)
              IDE_STATUS_DATAREQUEST wc) as (b & w4 & Hw3).
  { exact Hfuel. }
  { change (tick_reads wc) with (tick_reads w2). rewrite Ht2. exact Hexp. }
  pose proof (gogoboot_disk_wait_post _ _ _ _ _ _ Hw3) as (Hlt & Hb & _).
  change (status_reads wc) with (status_reads w2) in Hlt.
  rewrite Hnever in Hb by lia. subst b.
  pose proof (step_wait _ _ _ _ _ _ Hw3) as S3.
  replace (Z.to_nat 256) with (S 255) by reflexivity.
  rewrite (rw_sectors_first_wait_fails 255 fuel (disk_ctrl disk) is_write
             buf buff 256 wc w4) by (auto; lia).
  exists w4. split; [reflexivity|].
  assert (S : step_post w w4
                (chunk_setup disk sector 256 ++ [] ++
                 [(command_reg (disk_ctrl disk),
                   if is_write then IDE_CMD_WRITE_SECTOR
                   else IDE_CMD_READ_SECTOR)] ++ []) (0 + (0 + (0 + 0)))).
  { eapply step_trans; [exact S0|]. eapply step_trans; [exact S1|].
    eapply step_trans; [exact S2|exact S3]. }
  apply step_events in S. destruct S as [So Sd]. split; [|exact Sd].
  unfold command_writes. rewrite So.
  rewrite List.filter_app, (command_writes_setup base) by exact Hc.
  cbn [app List.filter fst]. rewrite Z.eqb_refl. reflexivity.
Qed.

(** A failed wait ends the loops on the spot. *)
Lemma rw_chunks_ready_wait_fails n fuel disk is_write buf buff sector
      sector_count w w1 :
  0 < sector_count ->
  gogoboot_disk_wait fuel (disk_ctrl disk) IDE_STATUS_READY
                     (chunk_programmed disk sector sector_count w)
    = Some (false, w1) ->
  rw_chunks (S n) fuel disk is_write buf buff sector sector_count w
  = Some (false, buf, w1).
Proof.
  intros Hpos Hw. cbn [rw_chunks].
  destruct (Z.ltb_spec 0 sector_count); [|lia].
  unfold chunk_programmed in Hw. cbv zeta in Hw. rewrite Hw. reflexivity.
Qed.

Lemma rw_chunks_sector_wait_fails n fuel disk is_write buf buff sector
      sector_count w w2 buf1 buff1 w4 :
  0 < sector_count ->
  gogoboot_disk_wait fuel (disk_ctrl disk) IDE_STATUS_READY
                     (chunk_programmed disk sector sector_count w)
    = Some (true, w2) ->
  rw_sectors (Z.to_nat (if 256 <=? sector_count then 256 else sector_count))
             fuel (disk_ctrl disk) is_write buf buff
             (if 256 <=? sector_count then 256 else sector_count)
             (out8 (command_reg (disk_ctrl disk))
                   (if is_write then IDE_CMD_WRITE_SECTOR
                    else IDE_CMD_READ_SECTOR) w2)
    = Some (false, buf1, buff1, w4) ->
  rw_chunks (S n) fuel disk is_write buf buff sector sector_count w
  = Some (false, buf1, w4).
Proof.
  intros Hpos Hw Hs. cbn [rw_chunks].
  destruct (Z.ltb_spec 0 sector_count); [|lia].
  unfold chunk_programmed in Hw. cbv zeta in Hw. rewrite Hw.
  rewrite Hs. reflexivity.
Qed.

(** C2: at any turn of the outer loop a wait for READY that fails makes the
    loop return false in the state that the wait left, and so does, at any
    turn of the inner loop, a wait for DATAREQUEST that fails: no command
    and no sector transfer comes after it.  Hence a call that fails ends on
    such a wait, and a call that succeeds has moved every sector of the
    request.  The result is a bare boolean: it carries no count.  In
    particular, for a request of three chunks on a device that is ready at
    the first poll and never requests data afterwards, the call fails once
    the wait for DATAREQUEST ends (here by the timer, at its check [j] at
    the latest), having written exactly one command byte and moved no
    data. *)
Theorem gogoboot_disk_readwrite_abort :
  (forall (n fuel : nat) (disk : disk_t) (is_write : bool) (buf : list Z)
          (buff sector sector_count : Z) (w w1 : world),
     0 < sector_count ->
     gogoboot_disk_wait fuel (disk_ctrl disk) IDE_STATUS_READY
                        (chunk_programmed disk sector sector_count w)
       = Some (false, w1) ->
     rw_chunks (S n) fuel disk is_write buf buff sector sector_count w
     = Some (false, buf, w1)) /\
  (forall (n fuel : nat) (ctrl : disk_controller_t) (is_write : bool)
          (buf : list Z) (buff nsect : Z) (w w1 : world),
     0 < nsect ->
     gogoboot_disk_wait fuel ctrl IDE_STATUS_DATAREQUEST w
       = Some (false, w1) ->
     rw_sectors (S n) fuel ctrl is_write buf buff nsect w
     = Some (false, buf, buff, w1)) /\
  (forall (n fuel : nat) (disk : disk_t) (is_write : bool) (buf : list Z)
          (buff sector sector_count : Z) (w w2 : world) (buf1 : list Z)
          (buff1 : Z) (w4 : world),
     0 < sector_count ->
     gogoboot_disk_wait fuel (disk_ctrl disk) IDE_STATUS_READY
                        (chunk_programmed disk sector sector_count w)
       = Some (true, w2) ->
     rw_sectors (Z.to_nat (if 256 <=? sector_count then 256 else sector_count))
                fuel (disk_ctrl disk) is_write buf buff
                (if 256 <=? sector_count then 256 else sector_count)
                (out8 (command_reg (disk_ctrl disk))
                      (if is_write then IDE_CMD_WRITE_SECTOR
                       else IDE_CMD_READ_SECTOR) w2)
       = Some (false, buf1, buff1, w4) ->
     rw_chunks (S n) fuel disk is_write buf buff sector sector_count w
     = Some (false, buf1, w4)) /\
  (forall (fuel : nat) (disknr : Z) (buf : list Z) (sector sector_count : Z)
          (is_write : bool) (w : world) (r : bool) (buf' : list Z)
          (w' : world),
     0 <= disknr < gogoboot_disk_get_disk_count w ->
     gogoboot_disk_readwrite fuel disknr buf sector sector_count is_write w
       = Some (r, buf', w') ->
     (r = false ->
      aborted_by_wait
        fuel (disk_ctrl (default disk_zero (disk_table w !! Z.to_nat disknr)))
        w w') /\
     (r = true ->
      Z.of_nat (data_words (events_since w w')) = 256 * Z.max sector_count 0))
  /\
  (forall (fuel : nat) (disknr : Z) (buf : list Z) (sector sector_count : Z)
          (is_write : bool) (w : world) (base : Z) (j : nat),
     0 <= disknr < gogoboot_disk_get_disk_count w ->
     disk_ctrl (default disk_zero (disk_table w !! Z.to_nat disknr))
       = controller_regs base ->
     512 < sector_count <= 768 ->
     wait_success IDE_STATUS_READY (status_at (status_reads w)) = true ->
     (forall i, (status_reads w < i)%nat ->
        wait_success IDE_STATUS_DATAREQUEST (status_at i) = false) ->
     timer_expired_at (deadline (S (tick_reads w)))
                      (ticks_at (S (S (tick_reads w)) + j)) = true ->
     (j < fuel)%nat ->
     exists w',
       gogoboot_disk_readwrite fuel disknr buf sector sector_count is_write w
         = Some (false, buf, w') /\
       command_writes
         (disk_ctrl (default disk_zero (disk_table w !! Z.to_nat disknr)))
         (events_since w w')
       = [(command_reg
             (disk_ctrl (default disk_zero (disk_table w !! Z.to_nat disknr))),
           if is_write then IDE_CMD_WRITE_SECTOR else IDE_CMD_READ_SECTOR)] /\
       data_words (events_since w w') = O).
Proof.
  split_and!.
  - intros. apply rw_chunks_ready_wait_fails; assumption.
  - intros. apply rw_sectors_first_wait_fails; assumption.
  - intros. eapply rw_chunks_sector_wait_fails; eassumption.
  - intros fuel disknr buf sector sector_count is_write w r buf' w' Hok Hrun.
    rewrite gogoboot_disk_readwrite_valid in Hrun by exact Hok.
    apply rw_chunks_post in Hrun.
    destruct Hrun as (cs & words & Hstep & _ & Ht & Hf).
    split; [exact Hf|].
    intros Hr. destruct (Ht Hr) as (_ & _ & Hwords).
    apply step_events in Hstep. destruct Hstep as [_ Hd]. rewrite Hd.
    exact Hwords.
  - intros fuel disknr buf sector sector_count is_write w base j
           Hok Hc Hcount Hready Hnever Hexp Hfuel.
    rewrite gogoboot_disk_readwrite_valid by exact Hok.
    destruct (Z.to_nat sector_count) as [|n] eqn:Hn; [lia|].
    apply (rw_chunks_no_data_request n fuel _ is_write buf 0 sector
             sector_count w base j); auto. lia.
Qed.

(** ** The commands as the device takes them *)

Lemma lba28_reassemble s sel :
  0 <= s -> sel = 0xE0 \/ sel = 0xF0 ->
  ((sel + (s / 2^24) mod 16) mod 16) * 2^24 + ((s / 2^16) mod 256) * 2^16
  + ((s / 2^8) mod 256) * 2^8 + s mod 256 = s mod 2^28.
Proof.
  intros Hs Hsel.
  assert (E : (sel + (s / 2^24) mod 16) mod 16 = (s / 2^24) mod 16).
  { destruct Hsel as [-> | ->].
    - rewrite Z.add_comm. change 0xE0 with (14 * 16).
      rewrite Z.mod_add by lia. apply Z.mod_mod. lia.
    - rewrite Z.add_comm. change 0xF0 with (15 * 16).
      rewrite Z.mod_add by lia. apply Z.mod_mod. lia. }
  rewrite E.
  change (2^24) with 16777216. change (2^16) with 65536.
  change (2^8) with 256. change (2^28) with 268435456.
  Z.to_euclidean_division_equations. lia.
Qed.

Lemma commands_of_other ctrl tf p v rest :
  p <> command_reg ctrl ->
  commands_of ctrl tf ((p, v) :: rest)
  = commands_of ctrl (taskfile_write ctrl tf p v) rest.
Proof.
  intros Hne. cbn [commands_of].
  destruct (Z.eqb_spec p (command_reg ctrl)); [contradiction|reflexivity].
Qed.

Lemma commands_of_command ctrl tf v rest :
  commands_of ctrl tf ((command_reg ctrl, v) :: rest)
  = (v, taskfile_lba tf, taskfile_count tf) :: commands_of ctrl tf rest.
Proof. cbn [commands_of]. rewrite Z.eqb_refl. reflexivity. Qed.

Lemma taskfile_write_device base tf v :
  taskfile_write (controller_regs base) tf
                 (device_reg (controller_regs base)) v
  = mk_taskfile v (tf_lbah tf) (tf_lbam tf) (tf_lbal tf) (tf_nsect tf).
Proof. unfold taskfile_write. port_cases. Qed.

Lemma taskfile_write_lbah base tf v :
  taskfile_write (controller_regs base) tf (lbah_reg (controller_regs base)) v
  = mk_taskfile (tf_device tf) v (tf_lbam tf) (tf_lbal tf) (tf_nsect tf).
Proof. unfold taskfile_write. port_cases. Qed.

Lemma taskfile_write_lbam base tf v :
  taskfile_write (controller_regs base) tf (lbam_reg (controller_regs base)) v
  = mk_taskfile (tf_device tf) (tf_lbah tf) v (tf_lbal tf) (tf_nsect tf).
Proof. unfold taskfile_write. port_cases. Qed.

Lemma taskfile_write_lbal base tf v :
  taskfile_write (controller_regs base) tf (lbal_reg (controller_regs base)) v
  = mk_taskfile (tf_device tf) (tf_lbah tf) (tf_lbam tf) v (tf_nsect tf).
Proof. unfold taskfile_write. port_cases. Qed.

Lemma taskfile_write_nsect base tf v :
  taskfile_write (controller_regs base) tf (nsect_reg (controller_regs base)) v
  = mk_taskfile (tf_device tf) (tf_lbah tf) (tf_lbam tf) (tf_lbal tf) v.
Proof. unfold taskfile_write. port_cases. Qed.

Lemma setup_ports_not_command base :
  let ctrl := controller_regs base in
  device_reg ctrl <> command_reg ctrl /\ lbah_reg ctrl <> command_reg ctrl /\
  lbam_reg ctrl <> command_reg ctrl /\ lbal_reg ctrl <> command_reg ctrl /\
  nsect_reg ctrl <> command_reg ctrl.
Proof. cbv zeta. split_and!; port_cases. Qed.

Lemma commands_of_programmed base tf v1 v2 v3 v4 v5 op rest :
  let ctrl := controller_regs base in
  commands_of ctrl tf
    ((device_reg ctrl, v1) :: (lbah_reg ctrl, v2) :: (lbam_reg ctrl, v3)
     :: (lbal_reg ctrl, v4) :: (nsect_reg ctrl, v5)
     :: (command_reg ctrl, op) :: rest)
  = (op, taskfile_lba (mk_taskfile v1 v2 v3 v4 v5),
         taskfile_count (mk_taskfile v1 v2 v3 v4 v5))
    :: commands_of ctrl (mk_taskfile v1 v2 v3 v4 v5) rest.
Proof.
  intros ctrl. subst ctrl.
  destruct (setup_ports_not_command base) as (N1 & N2 & N3 & N4 & N5).
  cbv zeta in N1, N2, N3, N4, N5.
  rewrite commands_of_other, taskfile_write_device by exact N1.
  rewrite commands_of_other, taskfile_write_lbah by exact N2.
  cbn [tf_device tf_lbah tf_lbam tf_lbal tf_nsect].
  rewrite commands_of_other, taskfile_write_lbam by exact N3.
  cbn [tf_device tf_lbah tf_lbam tf_lbal tf_nsect].
  rewrite commands_of_other, taskfile_write_lbal by exact N4.
  cbn [tf_device tf_lbah tf_lbam tf_lbal tf_nsect].
  rewrite commands_of_other, taskfile_write_nsect by exact N5.
  cbn [tf_device tf_lbah tf_lbam tf_lbal tf_nsect].
  apply commands_of_command.
Qed.

(** The commands that the device takes from the byte writes of a run of
    complete chunks: one per chunk, at the chunk's sector (in 28 bits) and
    of the chunk's size. *)
Lemma commands_of_chunks base disk is_write :
  disk_ctrl disk = controller_regs base ->
  forall cs s c tf,
    0 <= s -> chunk_seq s c (map fst cs) ->
    Forall (fun x => snd x = true) cs ->
    commands_of (disk_ctrl disk) tf (flat_map (chunk_writes disk is_write) cs)
    = map (fun x => (if is_write then IDE_CMD_WRITE_SECTOR
                     else IDE_CMD_READ_SECTOR,
                     fst (fst x) mod 2^28, snd (fst x))) cs.
Proof.
  intros Hc. induction cs as [|[[s0 n0] issued] cs IH]; intros s c tf Hs Hseq Hall.
  - reflexivity.
  - cbn [map fst chunk_seq] in Hseq. destruct Hseq as (Hpos & -> & Hn & Hseq).
    pose proof (Forall_inv Hall) as Hi. cbn [snd] in Hi. subst issued.
    pose proof (Forall_inv_tail Hall) as Hall'.
    cbn [flat_map chunk_writes map fst snd].
    unfold chunk_setup. rewrite Hc. cbn [app].
    rewrite commands_of_programmed.
    rewrite <- Hc. f_equal.
    + f_equal; [f_equal|].
      * unfold taskfile_lba. cbn [tf_device tf_lbah tf_lbam tf_lbal].
        apply lba28_reassemble; [exact Hs|].
        destruct (disk_disk disk =? 0); auto.
      * unfold taskfile_count. cbn [tf_nsect].
        destruct (Z.eqb_spec n0 256) as [->|Hne]; [reflexivity|].
        destruct (Z.eqb_spec n0 0); [lia|reflexivity].
    + apply (IH ((s + n0) mod 2^32) (c - n0)); [|exact Hseq|exact Hall'].
      apply Z.mod_pos_bound. lia.
Qed.

Lemma chunk_seq_covers : forall l s c,
  0 <= s -> 0 <= c -> s + c <= 2^28 ->
  chunk_seq s c l -> sum_Z (map snd l) = c ->
  covers s c (map (fun x => (fst x mod 2^28, snd x)) l).
Proof.
  induction l as [|[s0 n0] l IH]; intros s c Hs Hc Hle Hseq Hsum.
  - simpl in Hsum. simpl. lia.
  - cbn [chunk_seq] in Hseq. destruct Hseq as (Hpos & -> & Hn & Hseq).
    cbn [map snd sum_Z fold_right] in Hsum. fold (sum_Z (map snd l)) in Hsum.
    cbn [map fst snd covers].
    assert (Hsmall : (s + n0) mod 2^32 = s + n0) by (apply Z.mod_small; lia).
    rewrite Hsmall in Hseq.
    split_and!; try lia.
    + apply Z.mod_small. lia.
    + apply IH; try lia. exact Hseq.
Qed.

Lemma covers_sum : forall l s c,
  0 <= c -> covers s c l ->
  sum_Z (map snd l) = c /\ Forall (fun x => 0 < snd x <= 256) l.
Proof.
  induction l as [|[s0 n0] l IH]; intros s c Hc Hcov.
  - simpl in *. split; [lia|constructor].
  - cbn [covers] in Hcov. destruct Hcov as (-> & Hn & Hmin & Hcov).
    destruct (IH (s + n0) (c - n0) ltac:(lia) Hcov) as [Hsum Hall].
    split.
    + cbn [map snd sum_Z fold_right]. fold (sum_Z (map snd l)). lia.
    + constructor; [exact Hn|exact Hall].
Qed.

(** With a device that is ready and requests data whenever it is polled,
    the loops run to the end. *)
Lemma rw_sectors_ready n : forall fuel ctrl is_write buf buff nsect w,
  (forall i, wait_success IDE_STATUS_DATAREQUEST (status_at i) = true) ->
  (0 < fuel)%nat -> nsect <= Z.of_nat n ->
  exists buf' buff' w',
    rw_sectors n fuel ctrl is_write buf buff nsect w
    = Some (true, buf', buff', w').
Proof.
  induction n as [|n IH]; intros fuel ctrl is_write buf buff nsect w Hdrq Hf Hn;
    cbn [rw_sectors]; (destruct (Z.ltb_spec 0 nsect); [|eauto]).
  - lia.
  - destruct (gogoboot_disk_wait_decides 0 fuel ctrl IDE_STATUS_DATAREQUEST w)
      as (w1 & Hw & _).
    { exact Hf. } { intros i Hi. lia. } { left. apply Hdrq. }
    rewrite Hdrq in Hw. rewrite Hw.
    destruct (if is_write
              then (buf, gogoboot_disk_write_sector_data ctrl buf buff w1)
              else gogoboot_disk_read_sector_data ctrl buf buff w1)
      as [buf1 w2].
    apply IH; auto. lia.
Qed.

Lemma rw_chunks_ready n : forall fuel disk is_write buf buff sector
                                 sector_count w,
  (forall i, wait_success IDE_STATUS_READY (status_at i) = true) ->
  (forall i, wait_success IDE_STATUS_DATAREQUEST (status_at i) = true) ->
  (0 < fuel)%nat -> sector_count <= Z.of_nat n ->
  exists buf' w',
    rw_chunks n fuel disk is_write buf buff sector sector_count w
    = Some (true, buf', w').
Proof.
  induction n as [|n IH];
    intros fuel disk is_write buf buff sector sector_count w Hrdy Hdrq Hf Hn;
    cbn [rw_chunks]; (destruct (Z.ltb_spec 0 sector_count); [|eauto]).
  - lia.
  - match goal with
    | |- context [gogoboot_disk_wait fuel ?c IDE_STATUS_READY ?w1] =>
        destruct (gogoboot_disk_wait_decides 0 fuel c IDE_STATUS_READY w1)
          as (w2 & Hw & _);
        [exact Hf|intros i Hi; lia|left; apply Hrdy|]
    end.
    rewrite Hrdy in Hw. rewrite Hw.
    match goal with
    | |- context [rw_sectors ?k fuel ?c is_write buf buff ?ns ?w3] =>
        destruct (rw_sectors_ready k fuel c is_write buf buff ns w3)
          as (buf1 & buff1 & w4 & Hs); [exact Hdrq|exact Hf|lia|]
    end.
    rewrite Hs. apply IH; auto.
    destruct (Z.leb_spec 256 sector_count); lia.
Qed.

Lemma gogoboot_disk_readwrite_ready fuel disknr buf start N is_write w :
  0 <= disknr < gogoboot_disk_get_disk_count w ->
  (forall i, wait_success IDE_STATUS_READY (status_at i) = true) ->
  (forall i, wait_success IDE_STATUS_DATAREQUEST (status_at i) = true) ->
  (0 < fuel)%nat ->
  exists buf' w',
    gogoboot_disk_readwrite fuel disknr buf start N is_write w
    = Some (true, buf', w').
Proof.
  intros Hok Hrdy Hdrq Hf.
  rewrite gogoboot_disk_readwrite_valid by exact Hok.
  apply rw_chunks_ready; auto. lia.
Qed.

(** C1 (amended): for a request of [N > 0] sectors at [start] with
    [start + N <= 2^28], the range that the 28-bit LBA registers can
    address, a call that no failed wait cuts short issues one command per
    chunk; read back from the registers the way the device takes them, the
    chunks start at [start], each begins where the one before ended and has
    the size min(remaining, 256), so that they tile [start, start+N) without
    gap or overlap and their sizes sum to [N].  With a device that is ready
    and requests data whenever it is polled the call is not cut short. *)
Theorem gogoboot_disk_readwrite_chunks :
  (forall (fuel : nat) (disknr : Z) (buf : list Z) (start N : Z)
          (is_write : bool) (w : world) (base : Z) (buf' : list Z)
          (w' : world),
     0 <= disknr < gogoboot_disk_get_disk_count w ->
     disk_ctrl (default disk_zero (disk_table w !! Z.to_nat disknr))
       = controller_regs base ->
     0 <= start -> 0 < N -> start + N <= 2^28 ->
     gogoboot_disk_readwrite fuel disknr buf start N is_write w
       = Some (true, buf', w') ->
     let cmds := issued_commands (controller_regs base) (events_since w w') in
     let chunks := map (fun c => (snd (fst c), snd c)) cmds in
     covers start N chunks /\
     sum_Z (map snd chunks) = N /\
     Forall (fun c => 0 < snd c <= 256) chunks /\
     Forall (fun c => fst (fst c) = if is_write then IDE_CMD_WRITE_SECTOR
                                    else IDE_CMD_READ_SECTOR) cmds) /\
  (forall (fuel : nat) (disknr : Z) (buf : list Z) (start N : Z)
          (is_write : bool) (w : world),
     0 <= disknr < gogoboot_disk_get_disk_count w ->
     (forall i, wait_success IDE_STATUS_READY (status_at i) = true) ->
     (forall i, wait_success IDE_STATUS_DATAREQUEST (status_at i) = true) ->
     (0 < fuel)%nat ->
     exists buf' w',
       gogoboot_disk_readwrite fuel disknr buf start N is_write w
       = Some (true, buf', w')).
Proof.
  split.
  - intros fuel disknr buf start N is_write w base buf' w'
           Hok Hc Hs HN Hle Hrun cmds chunks.
    rewrite gogoboot_disk_readwrite_valid in Hrun by exact Hok.
    set (disk := default disk_zero (disk_table w !! Z.to_nat disknr)) in *.
    apply rw_chunks_post in Hrun.
    destruct Hrun as (cs & words & Hstep & Hseq & Ht & _).
    destruct (Ht eq_refl) as (Hall & Hsum & _).
    apply step_events in Hstep. destruct Hstep as [Ho _].
    assert (Hcmds : cmds = map (fun x => (if is_write then IDE_CMD_WRITE_SECTOR
                                          else IDE_CMD_READ_SECTOR,
                                          fst (fst x) mod 2^28, snd (fst x))) cs).
    { unfold cmds, issued_commands. rewrite Ho, <- Hc.
      apply (commands_of_chunks base disk is_write Hc cs start N); auto. }
    assert (Hchunks : chunks = map (fun x => (fst x mod 2^28, snd x)) (map fst cs)).
    { unfold chunks. rewrite Hcmds, !map_map. reflexivity. }
    assert (Hcov : covers start N chunks).
    { rewrite Hchunks. apply chunk_seq_covers; try lia; [exact Hseq|].
      rewrite map_map. rewrite Hsum. lia. }
    destruct (covers_sum chunks start N ltac:(lia) Hcov) as [Hs1 Hs2].
    split_and!; auto.
    rewrite Hcmds. apply Forall_forall. intros c Hin.
    apply list_elem_of_In, in_map_iff in Hin. destruct Hin as (x & <- & _).
    reflexivity.
  - intros fuel disknr buf start N is_write w Hok Hrdy Hdrq Hf.
    apply gogoboot_disk_readwrite_ready; auto.
Qed.

(** ** More on gogoboot_disk_wait *)

Lemma filter_access_polls ctrl n k :
  List.filter is_register_access (polls ctrl n k) = polls ctrl n k.
Proof.
  unfold polls. revert n. induction k as [|k IH]; intros n; simpl; [reflexivity|].
  f_equal. apply IH.
Qed.

(** The register accesses of the loop are its status reads. *)
Lemma wait_loop_accesses fuel : forall ctrl bits t w b w',
  wait_loop fuel ctrl bits t w = Some (b, w') ->
  exists evs,
    trace w' = trace w ++ evs /\
    List.filter is_register_access evs
    = polls ctrl (status_reads w) (status_reads w' - status_reads w) /\
    altstatus_reads w' = altstatus_reads w.
Proof.
  induction fuel as [|fuel IH]; intros ctrl bits t w b w' H; [discriminate|].
  simpl in H. fold (status_at (status_reads w)) in H.
  fold (ticks_at (tick_reads w)) in H.
  assert (H1 : forall n : nat, (S n - n)%nat = 1%nat) by (intros; lia).
  destruct (wait_success bits (status_at (status_reads w))).
  { inversion H; subst; clear H. simpl. rewrite H1.
    eexists; split_and!; reflexivity. }
  destruct (wait_error (status_at (status_reads w))).
  { inversion H; subst; clear H. simpl. rewrite H1.
    eexists; split_and!; reflexivity. }
  destruct (timer_expired_at t (ticks_at (tick_reads w))).
  { inversion H; subst; clear H. simpl. rewrite H1.
    eexists; split_and!; [rewrite <- app_assoc; reflexivity|reflexivity|reflexivity]. }
  pose proof (wait_loop_post _ _ _ _ _ _ _ H) as (Hlt & _).
  apply IH in H. destruct H as (evs & Ht & Hf & Ha). simpl in *.
  eexists; split_and!; [rewrite Ht, <- app_assoc; reflexivity| |exact Ha].
  cbn [app List.filter is_register_access]. rewrite Hf.
  replace (status_reads w' - status_reads w)%nat
    with (S (status_reads w' - S (status_reads w))) by lia.
  reflexivity.
Qed.

Lemma filter_access_poll_free evs :
  forallb is_poll_event evs = true ->
  forallb (fun e => negb (is_register_access e)) evs = true ->
  List.filter is_register_access evs = [].
Proof.
  induction evs as [|e evs IH]; simpl; [reflexivity|].
  intros H1 H2. apply andb_true_iff in H1, H2.
  destruct H1 as [_ H1], H2 as [He H2].
  destruct (is_register_access e); [discriminate|]. auto.
Qed.

(** X1: what a wait does to the hardware.  It reads the alternate status
    register once, first, and after that only the status register, once per
    poll; it writes no register, moves nothing over the data port and
    leaves the globals of the driver alone. *)
Theorem gogoboot_disk_wait_only_reads :
  forall (fuel : nat) (ctrl : disk_controller_t) (bits : Z) (w : world)
         (b : bool) (w' : world),
  gogoboot_disk_wait fuel ctrl bits w = Some (b, w') ->
  List.filter is_register_access (events_since w w')
  = In8 (altstatus_reg ctrl) (altstatus_in dev (altstatus_reads w) mod 256)
    :: polls ctrl (status_reads w) (status_reads w' - status_reads w) /\
  (status_reads w < status_reads w')%nat /\
  altstatus_reads w' = S (altstatus_reads w) /\
  data_reads w' = data_reads w /\
  same_globals w w'.
Proof.
  intros fuel ctrl bits w b w' H.
  pose proof (gogoboot_disk_wait_post _ _ _ _ _ _ H) as (Hlt & _ & _ & _ & Hd & Hg).
  split_and!; auto.
  - unfold gogoboot_disk_wait, in_altstatus in H.
    unfold set_timer_sec, set_timer_ticks in H.
    destruct (3 * TIMER_HZ mod 2 ^ 32 =? 0).
    + cbn in H. apply wait_loop_accesses in H.
      destruct H as (evs & Ht & Hf & _). cbn in Ht, Hf.
      rewrite <- !app_assoc in Ht.
      rewrite (events_since_app _ _ _ Ht).
      cbn. rewrite ?List.filter_app. cbn. rewrite Hf. reflexivity.
    + destruct (negb (Z.land (3 * TIMER_HZ mod 2 ^ 32) 2147483648 =? 0)).
      * cbn in H. apply wait_loop_accesses in H.
        destruct H as (evs & Ht & Hf & _). cbn in Ht, Hf.
        rewrite <- !app_assoc in Ht.
        rewrite (events_since_app _ _ _ Ht).
        cbn. rewrite ?List.filter_app. cbn. rewrite Hf. reflexivity.
      * cbn in H. apply wait_loop_accesses in H.
        destruct H as (evs & Ht & Hf & _). cbn in Ht, Hf.
        rewrite <- !app_assoc in Ht.
        rewrite (events_since_app _ _ _ Ht).
        cbn. rewrite ?List.filter_app. cbn. rewrite Hf. reflexivity.
  - unfold gogoboot_disk_wait, in_altstatus in H.
    destruct (set_timer_sec_spec
                (mk_world (status_reads w) (S (altstatus_reads w))
                   (data_reads w) (tick_reads w)
                   (trace w ++ [In8 (altstatus_reg ctrl)
                                    (altstatus_in dev (altstatus_reads w) mod 256)])
                   (disk_controller w) (disk_table w) (disk_table_used w)
                   (gogoboot_disk_init_done w))) as (evs & _ & Hs).
    cbv zeta in H. rewrite Hs in H.
    apply wait_loop_accesses in H. destruct H as (_ & _ & _ & Ha). exact Ha.
Qed.

Lemma wait_loop_bounded j : forall fuel ctrl bits t w,
  (j < fuel)%nat ->
  timer_expired_at t (ticks_at (tick_reads w + j)) = true ->
  exists b w',
    wait_loop fuel ctrl bits t w = Some (b, w') /\
    (status_reads w' <= status_reads w + S j)%nat /\
    (tick_reads w' <= tick_reads w + S j)%nat.
Proof.
  induction j as [|j IH]; intros fuel ctrl bits t w Hf He;
    (destruct fuel as [|fuel]; [lia|]); simpl;
    fold (status_at (status_reads w)); fold (ticks_at (tick_reads w)).
  - rewrite Nat.add_0_r in He. rewrite He.
    destruct (wait_success bits (status_at (status_reads w)));
      [|destruct (wait_error (status_at (status_reads w)))];
      do 2 eexists; (split; [reflexivity|]); simpl; lia.
  - destruct (wait_success bits (status_at (status_reads w)));
      [do 2 eexists; (split; [reflexivity|]); simpl; lia|].
    destruct (wait_error (status_at (status_reads w)));
      [do 2 eexists; (split; [reflexivity|]); simpl; lia|].
    destruct (timer_expired_at t (ticks_at (tick_reads w)));
      [do 2 eexists; (split; [reflexivity|]); simpl; lia|].
    match goal with |- context [wait_loop fuel ctrl bits t ?w1] =>
      destruct (IH fuel ctrl bits t w1) as (b & w' & Hr & Hs & Ht) end;
      [lia|simpl; rewrite <- plus_n_Sm in He; exact He|].
    exists b, w'. simpl in Hs, Ht. split; [exact Hr|lia].
Qed.

Lemma timer_expired_at_diff a b c d :
  (a - b) mod 2^32 = (c - d) mod 2^32 ->
  timer_expired_at a b = timer_expired_at c d.
Proof. unfold timer_expired_at. intros ->. reflexivity. Qed.

(** X2: no status can keep a wait polling for ever.  Once the tick counter,
    read at the check [j] of the timer, is more than 3 * TIMER_HZ ticks (and
    at most 2^31 ticks more than that) past the counter read at entry, the
    wait has returned, after [j+1] polls at the most, whatever the status
    register shows. *)
Theorem gogoboot_disk_wait_returns_by_deadline :
  forall (j fuel : nat) (ctrl : disk_controller_t) (bits : Z) (w : world),
  TIMER_HZ = 200 \/ TIMER_HZ = 50 ->
  (j < fuel)%nat ->
  3 * TIMER_HZ
  < (ticks_at (S (tick_reads w) + j) - ticks_at (tick_reads w)) mod 2^32
  <= 3 * TIMER_HZ + 2^31 ->
  exists b w',
    gogoboot_disk_wait fuel ctrl bits w = Some (b, w') /\
    (status_reads w' <= status_reads w + S j)%nat /\
    (tick_reads w' <= S (tick_reads w) + S j)%nat.
Proof.
  intros j fuel ctrl bits w HZ Hf He.
  destruct (gogoboot_disk_wait_unfold fuel ctrl bits w) as (evs & Hev & ->).
  match goal with |- context [wait_loop fuel ctrl bits _ ?w1] =>
    destruct (wait_loop_bounded j fuel ctrl bits (deadline (tick_reads w)) w1)
      as (b & w' & Hr & Hs & Ht) end; [exact Hf| |].
  - cbn [tick_reads]. rewrite deadline_HZ by exact HZ.
    set (e := (ticks_at (S (tick_reads w) + j) - ticks_at (tick_reads w))
              mod 2^32) in *.
    rewrite (timer_expired_at_diff _ _ (3 * TIMER_HZ) e).
    + apply timer_is_expired. lia.
    + unfold e. rewrite Zminus_mod_idemp_l, Zminus_mod_idemp_r. f_equal. lia.
  - exists b, w'. cbn [status_reads tick_reads] in Hs, Ht. auto.
Qed.

(** ** The data path of gogoboot_disk_readwrite *)

Lemma length_received_bytes n k : length (received_bytes n k) = (2 * k)%nat.
Proof.
  unfold received_bytes. revert n.
  induction k as [|k IH]; intros n; [reflexivity|].
  cbn [seq map flat_map bytes_of_word app length]. rewrite IH. lia.
Qed.

Lemma received_bytes_app n a b :
  received_bytes n (a + b) = received_bytes n a ++ received_bytes (n + a) b.
Proof.
  unfold received_bytes. rewrite seq_app, !map_app, flat_map_app. reflexivity.
Qed.

Lemma read_sector_app ctrl pre body post p w :
  p = Z.of_nat (length pre) -> length body = 512%nat ->
  gogoboot_disk_read_sector_data ctrl (pre ++ body ++ post) p w =
  (pre ++ received_bytes (data_reads w) 256 ++ post,
   mk_world (status_reads w) (altstatus_reads w) (data_reads w + 256)
            (tick_reads w)
            (trace w ++ map (fun i => In16 (data_reg ctrl) (data_at i))
                            (seq (data_reads w) 256))
            (disk_controller w) (disk_table w) (disk_table_used w)
            (gogoboot_disk_init_done w)).
Proof.
  intros Hp Hl. unfold gogoboot_disk_read_sector_data, received_bytes.
  apply read_words_app; [exact Hp|exact Hl].
Qed.

Lemma rw_sectors_read n :
  forall fuel ctrl pre body post nsect w ok buf' buff' w',
  512 * Z.max nsect 0 <= Z.of_nat (length body) ->
  rw_sectors n fuel ctrl false (pre ++ body ++ post)
             (Z.of_nat (length pre)) nsect w
    = Some (ok, buf', buff', w') ->
  exists done : nat,
    buf' = pre ++ received_bytes (data_reads w) (256 * done)
               ++ drop (512 * done) body ++ post /\
    data_reads w' = (data_reads w + 256 * done)%nat /\
    Z.of_nat done <= Z.max nsect 0 /\
    (ok = true -> Z.of_nat done = Z.max nsect 0 /\
                  buff' = Z.of_nat (length pre) + 512 * Z.of_nat done).
Proof.
  induction n as [|n IH];
    intros fuel ctrl pre body post nsect w ok buf' buff' w' Hlen H;
    cbn [rw_sectors] in H;
    (destruct (Z.ltb_spec 0 nsect) as [Hpos|Hneg];
     [|inversion H; subst; exists O; rewrite !Nat.mul_0_r; split_and!;
       [reflexivity|lia|lia|intros _; lia]]).
  - discriminate.
  - destruct (gogoboot_disk_wait fuel ctrl IDE_STATUS_DATAREQUEST w)
      as [[[] w1]|] eqn:Hw; [| |discriminate];
      pose proof (gogoboot_disk_wait_post _ _ _ _ _ _ Hw)
        as (_ & _ & _ & _ & Hd & _).
    + assert (Hl : length (take 512 body) = 512%nat)
        by (rewrite length_take; lia).
      rewrite <- (take_drop 512 body), <- (app_assoc (take 512 body)) in H.
      rewrite (read_sector_app ctrl pre (take 512 body)
                 (drop 512 body ++ post)) in H; [|reflexivity|exact Hl].
      rewrite app_assoc in H.
      replace (Z.of_nat (length pre) + 512)
        with (Z.of_nat (length (pre ++ received_bytes (data_reads w1) 256)))
        in H by (rewrite length_app, length_received_bytes; lia).
      apply IH in H; [|rewrite length_drop; lia].
      destruct H as (done & Hbuf & Hdr & Hle & Hok).
      cbn [data_reads] in Hbuf, Hdr. rewrite Hd in Hbuf, Hdr.
      exists (S done). split_and!.
      * rewrite Hbuf, <- app_assoc. f_equal.
        replace (256 * S done)%nat with (256 + 256 * done)%nat by lia.
        rewrite received_bytes_app, <- app_assoc. f_equal. f_equal.
        rewrite drop_drop. f_equal. f_equal. lia.
      * lia.
      * lia.
      * intros Ht. destruct (Hok Ht) as [H1 H2]. split; [lia|].
        rewrite H2, length_app, length_received_bytes. lia.
    + inversion H; subst. exists O. rewrite !Nat.mul_0_r. split_and!.
      * reflexivity.
      * lia.
      * lia.
      * discriminate.
Qed.

Lemma rw_chunks_read n :
  forall fuel disk pre body post sector sector_count w r buf' w',
  512 * Z.max sector_count 0 <= Z.of_nat (length body) ->
  rw_chunks n fuel disk false (pre ++ body ++ post)
            (Z.of_nat (length pre)) sector sector_count w
    = Some (r, buf', w') ->
  exists done : nat,
    buf' = pre ++ received_bytes (data_reads w) (256 * done)
               ++ drop (512 * done) body ++ post /\
    data_reads w' = (data_reads w + 256 * done)%nat /\
    Z.of_nat done <= Z.max sector_count 0 /\
    (r = true -> Z.of_nat done = Z.max sector_count 0).
Proof.
  induction n as [|n IH];
    intros fuel disk pre body post sector sector_count w r buf' w' Hlen H;
    cbn [rw_chunks] in H;
    (destruct (Z.ltb_spec 0 sector_count) as [Hpos|Hneg];
     [|inversion H; subst; exists O; rewrite !Nat.mul_0_r; split_and!;
       [reflexivity|lia|lia|intros _; lia]]).
  - discriminate.
  - set (ctrl := disk_ctrl disk) in *.
    set (nsect := if 256 <=? sector_count then 256 else sector_count) in *.
    assert (Hns : nsect = Z.min sector_count 256).
    { unfold nsect. destruct (Z.leb_spec 256 sector_count); lia. }
    match type of H with
      context [gogoboot_disk_wait fuel ctrl IDE_STATUS_READY ?w1] =>
      set (wp := w1) in * end.
    assert (Hp : data_reads wp = data_reads w) by reflexivity.
    destruct (gogoboot_disk_wait fuel ctrl IDE_STATUS_READY wp)
      as [[[] w2]|] eqn:Hw; [| |discriminate];
      pose proof (gogoboot_disk_wait_post _ _ _ _ _ _ Hw)
        as (_ & _ & _ & _ & Hd & _).
    + match type of H with
        context [rw_sectors _ fuel ctrl false _ _ nsect ?w3] =>
        set (wc := w3) in * end.
      assert (Hc : data_reads wc = data_reads w)
        by (unfold wc; cbn [out8 emit data_reads]; congruence).
      destruct (rw_sectors (Z.to_nat nsect) fuel ctrl false
                  (pre ++ body ++ post) (Z.of_nat (length pre)) nsect wc)
        as [[[[[] buf1] buff1] w4]|] eqn:Hs; [| |discriminate];
        (apply rw_sectors_read in Hs; [|lia]);
        destruct Hs as (d1 & Hb1 & Hr1 & Hle1 & Hok1); rewrite Hc in Hb1, Hr1.
      * destruct (Hok1 eq_refl) as [Hd1 Hbuff]. subst buf1.
        rewrite app_assoc in H.
        replace buff1
          with (Z.of_nat (length
                  (pre ++ received_bytes (data_reads w) (256 * d1)))) in H
          by (rewrite Hbuff, length_app, length_received_bytes; lia).
        apply IH in H; [|rewrite length_drop; lia].
        destruct H as (d2 & Hb2 & Hr2 & Hle2 & Hok2).
        rewrite Hr1 in Hb2, Hr2.
        exists (d1 + d2)%nat. split_and!.
        -- rewrite Hb2, <- app_assoc. f_equal.
           replace (256 * (d1 + d2))%nat with (256 * d1 + 256 * d2)%nat by lia.
           rewrite received_bytes_app, <- app_assoc. f_equal. f_equal.
           rewrite drop_drop. f_equal. f_equal. lia.
        -- lia.
        -- lia.
        -- intros Ht. specialize (Hok2 Ht). lia.
      * inversion H; subst. exists d1. split_and!; auto; [lia|discriminate].
    + inversion H; subst. exists O. rewrite !Nat.mul_0_r. split_and!.
      * reflexivity.
      * lia.
      * lia.
      * discriminate.
Qed.

(** X3: where a read puts its data.  For a buffer of at least 512 * N bytes
    a read of [N] sectors stores the words that it takes from the data port,
    each with its bytes exchanged, in the order of their arrival from the
    start of the buffer on.  It consumes 256 words for every sector that it
    stores, stores whole sectors only, and leaves every byte behind the last
    stored sector as it was; a read that succeeds has stored all [N]
    sectors, a read that fails has stored those that came before the wait
    that failed. *)
Theorem gogoboot_disk_read_fills_buffer :
  forall (fuel : nat) (disknr : Z) (body post : list Z) (sector N : Z)
         (w : world) (r : bool) (buf' : list Z) (w' : world),
  0 <= disknr < gogoboot_disk_get_disk_count w ->
  0 <= N -> Z.of_nat (length body) = 512 * N ->
  gogoboot_disk_read fuel disknr (body ++ post) sector N w
    = Some (r, buf', w') ->
  exists done : nat,
    Z.of_nat done <= N /\
    buf' = received_bytes (data_reads w) (256 * done)
           ++ drop (512 * done) body ++ post /\
    length buf' = length (body ++ post) /\
    data_reads w' = (data_reads w + 256 * done)%nat /\
    (r = true ->
     Z.of_nat done = N /\
     buf' = received_bytes (data_reads w) (256 * Z.to_nat N) ++ post).
Proof.
  intros fuel disknr body post sector N w r buf' w' Hnr HN Hlen H.
  unfold gogoboot_disk_read in H.
  rewrite gogoboot_disk_readwrite_valid in H by exact Hnr.
  apply (rw_chunks_read _ _ _ [] body post) in H; [|lia].
  destruct H as (done & Hb & Hr & Hle & Hok). cbn [app] in Hb.
  exists done. split_and!.
  - lia.
  - exact Hb.
  - rewrite Hb, !length_app, length_received_bytes, length_drop. lia.
  - exact Hr.
  - intros Ht. specialize (Hok Ht). split; [lia|].
    rewrite Hb. replace (Z.to_nat N) with done by lia.
    rewrite drop_ge by lia. reflexivity.
Qed.

Lemma out16_values_app a b :
  out16_values (a ++ b) = out16_values a ++ out16_values b.
Proof. apply flat_map_app. Qed.

Lemma in16_values_app a b :
  in16_values (a ++ b) = in16_values a ++ in16_values b.
Proof. apply flat_map_app. Qed.

Lemma poll_events_no_data evs :
  forallb is_poll_event evs = true ->
  out16_values evs = [] /\ in16_values evs = [].
Proof.
  induction evs as [|e evs IH]; simpl; [auto|].
  intros H. apply andb_true_iff in H. destruct H as [He H].
  destruct (IH H) as [IH1 IH2].
  destruct e; simpl in *; try discriminate; auto.
Qed.

Lemma out16_values_words p l :
  out16_values (map (fun v => Out16 p (bswap16 v)) l) = map bswap16 l /\
  in16_values (map (fun v => Out16 p (bswap16 v)) l) = [].
Proof.
  induction l as [|v l [IH1 IH2]]; [auto|].
  cbn [map out16_values in16_values flat_map app].
  fold (out16_values (map (fun v => Out16 p (bswap16 v)) l)).
  fold (in16_values (map (fun v => Out16 p (bswap16 v)) l)).
  rewrite IH1, IH2. auto.
Qed.

Lemma pair_words_app n : forall a b,
  length a = (2 * n)%nat -> pair_words (a ++ b) = pair_words a ++ pair_words b.
Proof.
  induction n as [|n IH]; intros a b Hl.
  - destruct a; [reflexivity|discriminate].
  - destruct a as [|x [|y a]]; simpl in Hl; try lia.
    cbn [app pair_words]. rewrite (IH a b) by lia. reflexivity.
Qed.

Lemma write_sector_app ctrl pre body post p w :
  p = Z.of_nat (length pre) -> length body = 512%nat ->
  gogoboot_disk_write_sector_data ctrl (pre ++ body ++ post) p w =
  mk_world (status_reads w) (altstatus_reads w) (data_reads w) (tick_reads w)
           (trace w ++ map (fun v => Out16 (data_reg ctrl) (bswap16 v))
                           (pair_words body))
           (disk_controller w) (disk_table w) (disk_table_used w)
           (gogoboot_disk_init_done w).
Proof.
  intros Hp Hl. unfold gogoboot_disk_write_sector_data.
  apply write_words_app; [exact Hp|exact Hl].
Qed.

(** The words that go out, and the words that come in, between two
    states. *)
Lemma wait_no_data fuel ctrl bits w b w' :
  gogoboot_disk_wait fuel ctrl bits w = Some (b, w') ->
  exists evs, trace w' = trace w ++ evs /\
              out16_values evs = [] /\ in16_values evs = [] /\
              data_reads w' = data_reads w.
Proof.
  intros H. apply gogoboot_disk_wait_post in H.
  destruct H as (_ & _ & _ & (evs & Ht & Hp) & Hd & _).
  exists evs. destruct (poll_events_no_data _ Hp). auto.
Qed.

Lemma rw_sectors_write n :
  forall fuel ctrl pre body post nsect w ok buf' buff' w',
  512 * Z.max nsect 0 <= Z.of_nat (length body) ->
  rw_sectors n fuel ctrl true (pre ++ body ++ post)
             (Z.of_nat (length pre)) nsect w
    = Some (ok, buf', buff', w') ->
  exists (done : nat) (evs : list event),
    buf' = pre ++ body ++ post /\
    trace w' = trace w ++ evs /\
    out16_values evs = map bswap16 (pair_words (take (512 * done) body)) /\
    in16_values evs = [] /\
    data_reads w' = data_reads w /\
    Z.of_nat done <= Z.max nsect 0 /\
    (ok = true -> Z.of_nat done = Z.max nsect 0 /\
                  buff' = Z.of_nat (length pre) + 512 * Z.of_nat done).
Proof.
  induction n as [|n IH];
    intros fuel ctrl pre body post nsect w ok buf' buff' w' Hlen H;
    cbn [rw_sectors] in H;
    (destruct (Z.ltb_spec 0 nsect) as [Hpos|Hneg];
     [|inversion H; subst; exists O, []; rewrite !Nat.mul_0_r, app_nil_r;
       split_and!; [reflexivity..|lia|intros _; lia]]).
  - discriminate.
  - destruct (gogoboot_disk_wait fuel ctrl IDE_STATUS_DATAREQUEST w)
      as [[[] w1]|] eqn:Hw; [| |discriminate];
      destruct (wait_no_data _ _ _ _ _ _ Hw) as (e1 & Ht1 & Ho1 & Hi1 & Hd1).
    + assert (Hl : length (take 512 body) = 512%nat)
        by (rewrite length_take; lia).
      rewrite <- (take_drop 512 body), <- (app_assoc (take 512 body)) in H.
      rewrite (write_sector_app ctrl pre (take 512 body)
                 (drop 512 body ++ post)) in H; [|reflexivity|exact Hl].
      rewrite app_assoc in H.
      replace (Z.of_nat (length pre) + 512)
        with (Z.of_nat (length (pre ++ take 512 body)))
        in H by (rewrite length_app, Hl; lia).
      apply IH in H; [|rewrite length_drop; lia].
      destruct H as (done & e2 & Hbuf & Ht2 & Ho2 & Hi2 & Hd2 & Hle & Hok).
      cbn [data_reads trace] in Ht2, Hd2.
      destruct (out16_values_words (data_reg ctrl)
                  (pair_words (take 512 body))) as [Ho Hi].
      exists (S done), (e1 ++ map (fun v => Out16 (data_reg ctrl) (bswap16 v))
                                  (pair_words (take 512 body)) ++ e2).
      split_and!.
      * rewrite Hbuf, <- app_assoc, (app_assoc (take 512 body)), take_drop.
        reflexivity.
      * rewrite Ht2, Ht1, <- !app_assoc. reflexivity.
      * rewrite !out16_values_app, Ho1, Ho, Ho2. cbn [app].
        rewrite <- map_app. f_equal.
        replace (512 * S done)%nat with (512 + 512 * done)%nat by lia.
        rewrite <- take_take_drop.
        apply eq_sym, (pair_words_app 256). exact Hl.
      * rewrite !in16_values_app, Hi1, Hi, Hi2. reflexivity.
      * congruence.
      * lia.
      * intros Ht. destruct (Hok Ht) as [H1 H2]. split; [lia|].
        rewrite H2, length_app, Hl. lia.
    + inversion H; subst. exists O, e1. rewrite !Nat.mul_0_r. split_and!; auto.
      * lia.
      * discriminate.
Qed.

Lemma rw_chunks_write n :
  forall fuel disk pre body post sector sector_count w r buf' w',
  512 * Z.max sector_count 0 <= Z.of_nat (length body) ->
  rw_chunks n fuel disk true (pre ++ body ++ post)
            (Z.of_nat (length pre)) sector sector_count w
    = Some (r, buf', w') ->
  exists (done : nat) (evs : list event),
    buf' = pre ++ body ++ post /\
    trace w' = trace w ++ evs /\
    out16_values evs = map bswap16 (pair_words (take (512 * done) body)) /\
    in16_values evs = [] /\
    data_reads w' = data_reads w /\
    Z.of_nat done <= Z.max sector_count 0 /\
    (r = true -> Z.of_nat done = Z.max sector_count 0).
Proof.
  induction n as [|n IH];
    intros fuel disk pre body post sector sector_count w r buf' w' Hlen H;
    cbn [rw_chunks] in H;
    (destruct (Z.ltb_spec 0 sector_count) as [Hpos|Hneg];
     [|inversion H; subst; exists O, []; rewrite !Nat.mul_0_r, app_nil_r;
       split_and!; [reflexivity..|lia|intros _; lia]]).
  - discriminate.
  - set (ctrl := disk_ctrl disk) in *.
    set (nsect := if 256 <=? sector_count then 256 else sector_count) in *.
    assert (Hns : nsect = Z.min sector_count 256).
    { unfold nsect. destruct (Z.leb_spec 256 sector_count); lia. }
    match type of H with
      context [gogoboot_disk_wait fuel ctrl IDE_STATUS_READY ?w1] =>
      set (wp := w1) in * end.
    assert (Hp : exists e0, trace wp = trace w ++ e0 /\
                            out16_values e0 = [] /\ in16_values e0 = [] /\
                            data_reads wp = data_reads w).
    { eexists. split_and!; [|shelve..].
      unfold wp, out8, emit. cbn [trace]. rewrite <- !app_assoc. reflexivity.
      Unshelve. all: reflexivity. }
    destruct Hp as (e0 & Ht0 & Ho0 & Hi0 & Hd0).
    destruct (gogoboot_disk_wait fuel ctrl IDE_STATUS_READY wp)
      as [[[] w2]|] eqn:Hw; [| |discriminate];
      destruct (wait_no_data _ _ _ _ _ _ Hw) as (e1 & Ht1 & Ho1 & Hi1 & Hd1).
    + match type of H with
        context [rw_sectors _ fuel ctrl true _ _ nsect ?w3] =>
        set (wc := w3) in * end.
      assert (Hc : trace wc = trace w2 ++ [Out8 (command_reg ctrl)
                                             (IDE_CMD_WRITE_SECTOR mod 256)] /\
                   data_reads wc = data_reads w2) by (split; reflexivity).
      destruct Hc as [Htc Hdc].
      destruct (rw_sectors (Z.to_nat nsect) fuel ctrl true
                  (pre ++ body ++ post) (Z.of_nat (length pre)) nsect wc)
        as [[[[[] buf1] buff1] w4]|] eqn:Hs; [| |discriminate];
        (apply rw_sectors_write in Hs; [|lia]);
        destruct Hs as (d1 & e3 & Hb1 & Ht3 & Ho3 & Hi3 & Hd3 & Hle1 & Hok1).
      * destruct (Hok1 eq_refl) as [Hd1' Hbuff]. subst buf1.
        assert (Hl : length (take (512 * d1) body) = (512 * d1)%nat)
          by (rewrite length_take; lia).
        rewrite <- (take_drop (512 * d1) body),
                <- (app_assoc (take (512 * d1) body)), app_assoc in H.
        replace buff1
          with (Z.of_nat (length (pre ++ take (512 * d1) body))) in H
          by (rewrite Hbuff, length_app, Hl; lia).
        apply IH in H; [|rewrite length_drop; lia].
        destruct H as (d2 & e4 & Hb2 & Ht4 & Ho4 & Hi4 & Hd4 & Hle2 & Hok2).
        exists (d1 + d2)%nat,
               (e0 ++ e1 ++ [Out8 (command_reg ctrl)
                               (IDE_CMD_WRITE_SECTOR mod 256)] ++ e3 ++ e4).
        split_and!.
        -- rewrite Hb2, <- app_assoc, (app_assoc (take _ body)), take_drop.
           reflexivity.
        -- rewrite Ht4, Ht3, Htc, Ht1, Ht0, <- !app_assoc. reflexivity.
        -- rewrite !out16_values_app, Ho0, Ho1, Ho3, Ho4. cbn [app].
           change (out16_values [Out8 (command_reg ctrl)
                                   (IDE_CMD_WRITE_SECTOR mod 256)])
             with (@nil Z). cbn [app].
           rewrite <- map_app. f_equal.
           replace (512 * (d1 + d2))%nat
             with (512 * d1 + 512 * d2)%nat by lia.
           rewrite <- take_take_drop.
           apply eq_sym, (pair_words_app (256 * d1)). lia.
        -- rewrite !in16_values_app, Hi0, Hi1, Hi3, Hi4. reflexivity.
        -- congruence.
        -- lia.
        -- intros Ht. specialize (Hok2 Ht). lia.
      * inversion H; subst.
        exists d1, (e0 ++ e1 ++ [Out8 (command_reg ctrl)
                                   (IDE_CMD_WRITE_SECTOR mod 256)] ++ e3).
        split_and!.
        -- reflexivity.
        -- rewrite Ht3, Htc, Ht1, Ht0, <- !app_assoc. reflexivity.
        -- rewrite !out16_values_app, Ho0, Ho1, Ho3. reflexivity.
        -- rewrite !in16_values_app, Hi0, Hi1, Hi3. reflexivity.
        -- congruence.
        -- lia.
        -- discriminate.
    + inversion H; subst. exists O, (e0 ++ e1). rewrite !Nat.mul_0_r.
      split_and!.
      * reflexivity.
      * rewrite Ht1, Ht0, <- app_assoc. reflexivity.
      * rewrite out16_values_app, Ho0, Ho1. reflexivity.
      * rewrite in16_values_app, Hi0, Hi1. reflexivity.
      * congruence.
      * lia.
      * discriminate.
Qed.

(** X4: what a write sends.  A write never changes the caller's buffer and
    takes nothing from the data port.  For a buffer of at least 512 * N
    bytes the words that it puts on the data port are the big-endian words
    of the first sectors of the buffer, in buffer order, each with its bytes
    exchanged: all [N] sectors when the write succeeds, the whole sectors
    that came before the failed wait when it fails. *)
Theorem gogoboot_disk_write_sends_buffer :
  forall (fuel : nat) (disknr : Z) (buf : list Z) (sector N : Z)
         (w : world) (r : bool) (buf' : list Z) (w' : world),
  0 <= disknr < gogoboot_disk_get_disk_count w ->
  0 <= N -> 512 * N <= Z.of_nat (length buf) ->
  gogoboot_disk_write fuel disknr buf sector N w = Some (r, buf', w') ->
  buf' = buf /\
  in16_values (events_since w w') = [] /\
  data_reads w' = data_reads w /\
  exists done : nat,
    Z.of_nat done <= N /\
    out16_values (events_since w w')
    = map bswap16 (pair_words (take (512 * done) buf)) /\
    (r = true -> Z.of_nat done = N).
Proof.
  intros fuel disknr buf sector N w r buf' w' Hnr HN Hlen H.
  unfold gogoboot_disk_write in H.
  rewrite gogoboot_disk_readwrite_valid in H by exact Hnr.
  rewrite <- (app_nil_r buf) in H at 1.
  apply (rw_chunks_write _ _ _ [] buf []) in H; [|lia].
  destruct H as (done & evs & Hb & Ht & Ho & Hi & Hd & Hle & Hok).
  cbn [app] in Hb. rewrite app_nil_r in Hb.
  rewrite (events_since_app _ _ _ Ht). split_and!; auto.
  exists done. split_and!; auto; [lia|].
  intros Hr. specialize (Hok Hr). lia.
Qed.

(** ** What a transfer leaves alone *)

Lemma same_globals_refl w : same_globals w w.
Proof. unfold same_globals. auto. Qed.

Lemma same_globals_trans w1 w2 w3 :
  same_globals w1 w2 -> same_globals w2 w3 -> same_globals w1 w3.
Proof.
  unfold same_globals. intros (A1 & A2 & A3 & A4) (B1 & B2 & B3 & B4).
  split_and!; congruence.
Qed.

Lemma same_globals_emit e w : same_globals w (emit e w).
Proof. unfold same_globals. simpl. auto. Qed.

Lemma length_store_byte buf i v : length (store_byte buf i v) = length buf.
Proof.
  unfold store_byte. destruct (i <? 0); [reflexivity|]. apply length_insert.
Qed.

Lemma length_store16 buf i v : length (store16 buf i v) = length buf.
Proof. unfold store16. rewrite !length_store_byte. reflexivity. Qed.

Lemma length_read_words n : forall ctrl buf p w,
  length (fst (read_words n ctrl buf p w)) = length buf.
Proof.
  induction n as [|n IH]; intros ctrl buf p w; [reflexivity|].
  cbn [read_words in_data]. rewrite IH. apply length_store16.
Qed.

Lemma write_words_globals n : forall ctrl buf p w,
  same_globals w (write_words n ctrl buf p w).
Proof.
  induction n as [|n IH]; intros ctrl buf p w; [apply same_globals_refl|].
  cbn [write_words]. eapply same_globals_trans; [|apply IH].
  apply same_globals_emit.
Qed.

Lemma sector_transfer_frame ctrl (is_write : bool) buf buff w :
  let r := if is_write
           then (buf, gogoboot_disk_write_sector_data ctrl buf buff w)
           else gogoboot_disk_read_sector_data ctrl buf buff w in
  same_globals w (snd r) /\ length (fst r) = length buf /\
  (is_write = true -> fst r = buf).
Proof.
  destruct is_write; cbn [fst snd].
  - split_and!; [apply write_words_globals|reflexivity|reflexivity].
  - split_and!; [apply read_words_globals|apply length_read_words
                |discriminate].
Qed.

Lemma rw_sectors_frame n :
  forall fuel ctrl is_write buf buff nsect w ok buf' buff' w',
  rw_sectors n fuel ctrl is_write buf buff nsect w
    = Some (ok, buf', buff', w') ->
  same_globals w w' /\ length buf' = length buf /\
  (is_write = true -> buf' = buf).
Proof.
  induction n as [|n IH];
    intros fuel ctrl is_write buf buff nsect w ok buf' buff' w' H;
    cbn [rw_sectors] in H;
    (destruct (0 <? nsect);
     [|inversion H; subst; split_and!; auto using same_globals_refl]).
  - discriminate.
  - destruct (gogoboot_disk_wait fuel ctrl IDE_STATUS_DATAREQUEST w)
      as [[[] w1]|] eqn:Hw; [| |discriminate];
      pose proof (gogoboot_disk_wait_post _ _ _ _ _ _ Hw)
        as (_ & _ & _ & _ & _ & Hg).
    + pose proof (sector_transfer_frame ctrl is_write buf buff w1) as Hf.
      cbv zeta in Hf.
      destruct (if is_write
                then (buf, gogoboot_disk_write_sector_data ctrl buf buff w1)
                else gogoboot_disk_read_sector_data ctrl buf buff w1)
        as [buf1 w2].
      cbn [fst snd] in Hf. destruct Hf as (G1 & L1 & E1).
      apply IH in H. destruct H as (G2 & L2 & E2).
      split_and!.
      * eauto using same_globals_trans.
      * congruence.
      * intros Hi. rewrite E2, E1 by exact Hi. reflexivity.
    + inversion H; subst. auto.
Qed.

Lemma rw_chunks_frame n :
  forall fuel disk is_write buf buff sector sector_count w r buf' w',
  rw_chunks n fuel disk is_write buf buff sector sector_count w
    = Some (r, buf', w') ->
  same_globals w w' /\ length buf' = length buf /\
  (is_write = true -> buf' = buf).
Proof.
  induction n as [|n IH];
    intros fuel disk is_write buf buff sector sector_count w r buf' w' H;
    cbn [rw_chunks] in H;
    (destruct (0 <? sector_count);
     [|inversion H; subst; split_and!; auto using same_globals_refl]).
  - discriminate.
  - set (ctrl := disk_ctrl disk) in *.
    match type of H with
      context [gogoboot_disk_wait fuel ctrl IDE_STATUS_READY ?w1] =>
      set (wp := w1) in * end.
    assert (Gp : same_globals w wp) by (unfold same_globals; auto).
    destruct (gogoboot_disk_wait fuel ctrl IDE_STATUS_READY wp)
      as [[[] w2]|] eqn:Hw; [| |discriminate];
      pose proof (gogoboot_disk_wait_post _ _ _ _ _ _ Hw)
        as (_ & _ & _ & _ & _ & Gw).
    + match type of H with
        context [rw_sectors ?k fuel ctrl is_write buf buff ?ns ?w3] =>
        destruct (rw_sectors k fuel ctrl is_write buf buff ns w3)
          as [[[[[] buf1] buff1] w4]|] eqn:Hs; [| |discriminate];
        apply rw_sectors_frame in Hs; destruct Hs as (G3 & L3 & E3);
        assert (Gc : same_globals w2 w3) by apply same_globals_emit
      end.
      * apply IH in H. destruct H as (G4 & L4 & E4). split_and!.
        -- eauto using same_globals_trans.
        -- congruence.
        -- intros Hi. rewrite E4, E3 by exact Hi. reflexivity.
      * inversion H; subst. split_and!; auto;
          eauto using same_globals_trans.
    + inversion H; subst. split_and!; auto;
        eauto using same_globals_trans.
Qed.

(** X5: what a transfer leaves alone.  Whatever the disk index, the range
    and the outcome, a read or write that returns has not touched the
    globals of the driver (the controllers, the registry of disks, its count
    and the once-only flag) and hands back a buffer of the length it got; a
    write hands back the very buffer. *)
Theorem gogoboot_disk_readwrite_frame :
  forall (fuel : nat) (disknr : Z) (buf : list Z) (sector sector_count : Z)
         (is_write : bool) (w : world) (r : bool) (buf' : list Z)
         (w' : world),
  gogoboot_disk_readwrite fuel disknr buf sector sector_count is_write w
    = Some (r, buf', w') ->
  same_globals w w' /\
  length buf' = length buf /\
  (is_write = true -> buf' = buf) /\
  (forall nr, gogoboot_get_disk_info nr w' = gogoboot_get_disk_info nr w).
Proof.
  intros fuel disknr buf sector sector_count is_write w r buf' w' H.
  assert (H3 : same_globals w w' /\ length buf' = length buf /\
               (is_write = true -> buf' = buf)).
  { unfold gogoboot_disk_readwrite in H.
    destruct ((disknr <? 0) || (disk_table_used w <=? disknr)).
    - inversion H; subst. split_and!; auto. apply same_globals_emit.
    - eapply rw_chunks_frame; exact H. }
  destruct H3 as (G & L & E). split_and!; auto.
  intros nr. destruct G as (_ & Gt & Gu & _).
  unfold gogoboot_get_disk_info, gogoboot_disk_get_disk_count.
  rewrite Gt, Gu. reflexivity.
Qed.

(** ** Probing *)

Lemma step_printf fmt args w : step_post w (printf fmt args w) [] O.
Proof. eexists. split; [reflexivity|]. auto. Qed.

Lemma data_reads_read_words n : forall ctrl buf p w,
  data_reads (snd (read_words n ctrl buf p w)) = (data_reads w + n)%nat.
Proof.
  induction n as [|n IH]; intros ctrl buf p w; [simpl; lia|].
  cbn [read_words in_data]. rewrite IH. cbn [data_reads]. lia.
Qed.

Lemma read_sector_fst ctrl ctrl' buf p w w' :
  data_reads w' = data_reads w ->
  fst (gogoboot_disk_read_sector_data ctrl' buf p w')
  = fst (gogoboot_disk_read_sector_data ctrl buf p w).
Proof. apply read_words_fst. Qed.

Lemma step_read_sector ctrl buf p w :
  step_post w (snd (gogoboot_disk_read_sector_data ctrl buf p w)) [] 256.
Proof. apply step_read_words. Qed.

Lemma data_reads_read_sector ctrl buf p w :
  data_reads (snd (gogoboot_disk_read_sector_data ctrl buf p w))
  = (data_reads w + 256)%nat.
Proof. apply data_reads_read_words. Qed.

(** What reading the IDENTIFY page does to the state. *)
Lemma read_page_post ctrl buffer w0 w page w' :
  data_reads w = data_reads w0 ->
  gogoboot_disk_read_sector_data ctrl buffer 0 w = (page, w') ->
  page = fst (gogoboot_disk_read_sector_data ctrl buffer 0 w0) /\
  step_post w w' [] 256 /\ same_globals w w' /\
  data_reads w' = (data_reads w + 256)%nat.
Proof.
  intros Hd H.
  pose proof (read_sector_fst ctrl ctrl buffer 0 w0 w Hd) as H1.
  pose proof (step_read_sector ctrl buffer 0 w) as H2.
  pose proof (gogoboot_disk_read_sector_data_globals ctrl buffer 0 w) as H3.
  pose proof (data_reads_read_sector ctrl buffer 0 w) as H4.
  rewrite H in H1, H2, H3, H4. cbn [fst snd] in H1, H2, H3, H4.
  split_and!; auto.
Qed.

Lemma lba_bit_test b : (Z.land b 0x02 =? 0) = negb (Z.testbit b 1).
Proof.
  change 0x02 with (2^1). rewrite land_pow2 by lia.
  destruct (Z.testbit b 1); reflexivity.
Qed.

Lemma some_world_inj (a b : world) : Some a = Some b -> b = a.
Proof. congruence. Qed.

(** Every way in which a probe can return. *)
Lemma table_init_cases fuel ctrl disk buffer prod w w' :
  gogoboot_disk_table_init fuel ctrl disk buffer prod w = Some w' ->
  let page := fst (gogoboot_disk_read_sector_data ctrl buffer 0 w) in
  disk_controller w' = disk_controller w /\
  gogoboot_disk_init_done w' = gogoboot_disk_init_done w /\
  exists (writes : list (Z * Z)) (words : nat),
    step_post w w' writes words /\
    data_reads w' = (data_reads w + words)%nat /\
    ((registry_unchanged w w' /\
      ((disk <> 0 /\ disk <> 1 /\ writes = [] /\ words = O) \/
       ((disk = 0 \/ disk = 1) /\
        ((writes = take 1 (probe_writes ctrl disk) /\ words = O) \/
         (writes = probe_writes ctrl disk /\ words = O) \/
         (writes = probe_writes ctrl disk /\ words = 256%nat /\
          Z.testbit (byte_at page 99) 1 = false) \/
         (writes = probe_writes ctrl disk /\ words = 256%nat /\
          Z.testbit (byte_at page 99) 1 = true /\
          MAX_IDE_DISKS <= disk_table_used w))))) \/
     ((disk = 0 \/ disk = 1) /\
      writes = probe_writes ctrl disk /\ words = 256%nat /\
      Z.testbit (byte_at page 99) 1 = true /\
      disk_table_used w < MAX_IDE_DISKS /\
      registered ctrl disk page w w')).
Proof.
  intros Hrun.
  remember (fst (gogoboot_disk_read_sector_data ctrl buffer 0 w)) as page
    eqn:Hpage.
  cbv zeta. unfold gogoboot_disk_table_init in Hrun.
  set (w0 := printf "IDE probe 0x%x disk %d: "
               [ArgInt (base_io ctrl); ArgInt disk] w) in Hrun.
  assert (S0 : step_post w w0 [] O) by apply step_printf.
  assert (F0 : probe_frame w w0) by apply probe_frame_emit.
  assert (Hsel : (if disk =? 0 then Some 224
                  else if disk =? 1 then Some 240 else None)
                 = if (disk =? 0) || (disk =? 1)
                   then Some (if disk =? 0 then 224 else 240) else None)
    by (destruct (disk =? 0), (disk =? 1); reflexivity).
  rewrite Hsel in Hrun. clear Hsel.
  destruct ((disk =? 0) || (disk =? 1)) eqn:Hd.
  2:{ apply orb_false_iff in Hd. destruct Hd as [Hd0 Hd1].
      apply Z.eqb_neq in Hd0, Hd1.
      apply some_world_inj in Hrun; subst w'.
      split_and!; [reflexivity..|].
      exists [], O. split_and!.
      - change (@nil (Z * Z)) with (@nil (Z * Z) ++ []).
        change O with (0 + 0)%nat.
        eapply step_trans; [exact S0|apply step_printf].
      - rewrite Nat.add_0_r. reflexivity.
      - left. split; [split; reflexivity|]. left. auto. }
  assert (Hdisk : disk = 0 \/ disk = 1).
  { apply orb_true_iff in Hd. destruct Hd as [Hd|Hd]; apply Z.eqb_eq in Hd;
      auto. }
  clear Hd.
  set (sel := if disk =? 0 then 224 else 240) in *.
  assert (Hw : probe_writes ctrl disk =
               [(device_reg ctrl, sel mod 256);
                (command_reg ctrl, IDE_CMD_IDENTIFY mod 256)]).
  { unfold probe_writes, sel. destruct (disk =? 0); reflexivity. }
  assert (Hw1 : take 1 (probe_writes ctrl disk) =
                [(device_reg ctrl, sel mod 256)]).
  { rewrite Hw. reflexivity. }
  set (w1 := out8 (device_reg ctrl) sel w0) in *.
  assert (S1 : step_post w w1 [(device_reg ctrl, sel mod 256)] O).
  { change [(device_reg ctrl, sel mod 256)]
      with ([] ++ [(device_reg ctrl, sel mod 256)]).
    change O with (0 + 0)%nat.
    eapply step_trans; [exact S0|apply step_out8]. }
  assert (F1 : probe_frame w w1).
  { eapply probe_frame_trans; [exact F0|apply probe_frame_emit]. }
  destruct (gogoboot_disk_wait fuel ctrl IDE_STATUS_READY w1)
    as [[[] w2]|] eqn:Hwait1; [| |discriminate Hrun].
  2:{ pose proof (step_wait _ _ _ _ _ _ Hwait1) as S2.
      pose proof (probe_frame_wait _ _ _ _ _ _ Hwait1) as F2.
      apply some_world_inj in Hrun; subst w'.
      pose proof (probe_frame_trans _ _ _ F1
                    (probe_frame_trans _ _ _ F2
                       (probe_frame_emit (Printf "no disk found.\n" []) w2)))
        as ((G1 & G2 & G3 & G4) & G5).
      split_and!; auto.
      exists [(device_reg ctrl, sel mod 256)], O. split_and!.
      - rewrite <- (app_nil_r [_]). change O with (0 + 0)%nat.
        eapply step_trans; [exact S1|].
        change (@nil (Z * Z)) with (@nil (Z * Z) ++ []).
        change O with (0 + 0)%nat.
        eapply step_trans; [exact S2|apply step_printf].
      - unfold printf. rewrite G5. lia.
      - left. split; [split; assumption|]. right. split; [exact Hdisk|].
        left. auto. }
  pose proof (step_wait _ _ _ _ _ _ Hwait1) as S2.
  pose proof (probe_frame_wait _ _ _ _ _ _ Hwait1) as F2.
  set (w3 := out8 (command_reg ctrl) IDE_CMD_IDENTIFY w2) in *.
  assert (S3 : step_post w w3 (probe_writes ctrl disk) O).
  { rewrite Hw.
    change [(device_reg ctrl, sel mod 256);
            (command_reg ctrl, IDE_CMD_IDENTIFY mod 256)]
      with ([(device_reg ctrl, sel mod 256)] ++ [] ++
            [(command_reg ctrl, IDE_CMD_IDENTIFY mod 256)]).
    change O with (0 + (0 + 0))%nat.
    eapply step_trans; [exact S1|].
    eapply step_trans; [exact S2|apply step_out8]. }
  assert (F3 : probe_frame w w3).
  { eapply probe_frame_trans; [exact F1|].
    eapply probe_frame_trans; [exact F2|apply probe_frame_emit]. }
  destruct (gogoboot_disk_wait fuel ctrl IDE_STATUS_DATAREQUEST w3)
    as [[[] w4]|] eqn:Hwait3; [| |discriminate Hrun].
  2:{ pose proof (step_wait _ _ _ _ _ _ Hwait3) as S4.
      pose proof (probe_frame_wait _ _ _ _ _ _ Hwait3) as F4.
      apply some_world_inj in Hrun; subst w'.
      pose proof (probe_frame_trans _ _ _ F3
                    (probe_frame_trans _ _ _ F4
                       (probe_frame_emit
                          (Printf "disk not responding.\n" []) w4)))
        as ((G1 & G2 & G3 & G4) & G5).
      split_and!; auto.
      exists (probe_writes ctrl disk), O. split_and!.
      - rewrite <- (app_nil_r (probe_writes _ _)). change O with (0 + 0)%nat.
        eapply step_trans; [exact S3|].
        change (@nil (Z * Z)) with (@nil (Z * Z) ++ []).
        change O with (0 + 0)%nat.
        eapply step_trans; [exact S4|apply step_printf].
      - unfold printf. rewrite G5. lia.
      - left. split; [split; assumption|]. right. split; [exact Hdisk|].
        right. left. auto. }
  pose proof (step_wait _ _ _ _ _ _ Hwait3) as S4.
  pose proof (probe_frame_wait _ _ _ _ _ _ Hwait3) as F4.
  pose proof (probe_frame_trans _ _ _ F3 F4) as F5.
  destruct (gogoboot_disk_read_sector_data ctrl buffer 0 w4)
    as [pg w5] eqn:Hrd.
  destruct (read_page_post ctrl buffer w w4 pg w5 (proj2 F5) Hrd)
    as (Hpg & S5 & G5 & D5).
  rewrite <- Hpage in Hpg. subst pg. clear Hrd Hpage.
  assert (S6 : step_post w w5 (probe_writes ctrl disk) 256).
  { rewrite <- (app_nil_r (probe_writes _ _)).
    change 256%nat with (0 + (0 + 256))%nat.
    eapply step_trans; [exact S3|].
    change (@nil (Z * Z)) with (@nil (Z * Z) ++ []).
    eapply step_trans; [exact S4|exact S5]. }
  destruct F5 as (G4 & D4).
  pose proof (same_globals_trans _ _ _ G4 G5) as (C6 & T6 & U6 & I6).
  rewrite D4 in D5. clear S0 S1 S2 S3 S4 S5 F0 F1 F2 F3 F4 G4 G5 D4.
  clear Hwait1 Hwait3.
  rewrite lba_bit_test in Hrun.
  destruct S6 as (evs & Ht & Ho & Hn).
  destruct (Z.testbit (byte_at page 99) 1) eqn:Hbit; cbn [negb] in Hrun.
  2:{ apply some_world_inj in Hrun; subst w'.
      cbn [printf emit disk_controller gogoboot_disk_init_done data_reads].
      split_and!; auto.
      exists (probe_writes ctrl disk), 256%nat. split_and!.
      - eexists. cbn [printf emit trace]. rewrite Ht, <- app_assoc.
        split_and!; [reflexivity| |].
        + rewrite out8_writes_app, Ho. apply app_nil_r.
        + rewrite data_words_app, Hn. apply Nat.add_0_r.
      - exact D5.
      - left. split; [split; assumption|]. right. split; [exact Hdisk|].
        right. right. left. auto. }
  cbn [printf emit disk_table_used] in Hrun.
  destruct (Z.leb_spec MAX_IDE_DISKS (disk_table_used w5)) as [Hmax|Hmax];
    apply some_world_inj in Hrun; subst w';
    cbn [disk_controller gogoboot_disk_init_done emit printf
         set_disk_table data_reads];
    (split_and!; auto);
    exists (probe_writes ctrl disk), 256%nat;
    (split_and!; [|exact D5|]).
  - eexists. cbn [printf emit trace set_disk_table].
    rewrite Ht, <- !app_assoc.
    split_and!; [reflexivity| |].
    + rewrite out8_writes_app, Ho. apply app_nil_r.
    + rewrite data_words_app, Hn. apply Nat.add_0_r.
  - left. split; [split; assumption|]. right. split; [exact Hdisk|].
    right. right. right. split_and!; auto. lia.
  - eexists. cbn [printf emit trace set_disk_table].
    rewrite Ht, <- !app_assoc.
    split_and!; [reflexivity| |].
    + rewrite out8_writes_app, Ho. apply app_nil_r.
    + rewrite data_words_app, Hn. apply Nat.add_0_r.
  - right. split_and!; auto; [lia|].
    unfold registered, probed_disk.
    cbn [disk_table disk_table_used trace set_disk_table emit printf].
    rewrite U6, T6. split_and!; auto.
    apply last_snoc.
Qed.

Lemma identify_page_bytes ctrl buffer w :
  length buffer = 512%nat ->
  fst (gogoboot_disk_read_sector_data ctrl buffer 0 w)
  = received_bytes (data_reads w) 256.
Proof.
  intros Hl.
  rewrite <- (app_nil_r buffer) at 1.
  change (buffer ++ []) with ([] ++ buffer ++ []).
  rewrite (read_sector_app ctrl [] buffer [] 0 w eq_refl Hl).
  cbn [fst app]. apply app_nil_r.
Qed.

(** Looking up the registry after a registration. *)
Lemma registered_lookup ctrl disk page w w' :
  registered ctrl disk page w w' ->
  0 <= disk_table_used w ->
  (Z.to_nat (disk_table_used w) < length (disk_table w))%nat ->
  gogoboot_get_disk_info (disk_table_used w) w'
  = Some (probed_disk ctrl disk page) /\
  (forall nr, 0 <= nr < disk_table_used w ->
     gogoboot_get_disk_info nr w' = gogoboot_get_disk_info nr w) /\
  gogoboot_get_disk_info (disk_table_used w') w' = None.
Proof.
  intros (Ht & Hu & _) H0 Hlen.
  unfold gogoboot_get_disk_info, gogoboot_disk_get_disk_count.
  rewrite Hu, Ht. split_and!.
  - destruct (Z.ltb_spec (disk_table_used w) 0); [lia|].
    destruct (Z.leb_spec (disk_table_used w + 1) (disk_table_used w)); [lia|].
    cbn [orb]. rewrite list_lookup_insert_eq by exact Hlen. reflexivity.
  - intros nr Hnr.
    destruct (Z.ltb_spec nr 0); [lia|].
    destruct (Z.leb_spec (disk_table_used w + 1) nr); [lia|].
    destruct (Z.leb_spec (disk_table_used w) nr); [lia|].
    cbn [orb]. rewrite list_lookup_insert_ne by lia. reflexivity.
  - destruct (Z.leb_spec (disk_table_used w + 1) (disk_table_used w + 1));
      [|lia].
    rewrite orb_true_r. reflexivity.
Qed.

Lemma gogoboot_disk_table_init_registry_aux fuel ctrl disk buffer prod w w' :
  length buffer = 512%nat ->
  gogoboot_disk_table_init fuel ctrl disk buffer prod w = Some w' ->
  registry_unchanged w w' \/
  registered ctrl disk (received_bytes (data_reads w) 256) w w'.
Proof.
  intros Hlen Hrun.
  apply table_init_cases in Hrun. cbv zeta in Hrun.
  rewrite (identify_page_bytes ctrl buffer w Hlen) in Hrun.
  destruct Hrun as (_ & _ & writes & words & _ & _ & Hcases).
  destruct Hcases as [[Hu _]|(_ & _ & _ & _ & _ & Hreg)]; auto.
Qed.

(** X6: what a probe does to the registry.  A probe that returns leaves
    the controllers and the once-only flag alone, and either leaves the
    registry and its count as they were, or has registered exactly one disk:
    then the device number is 0 or 1, the IDENTIFY page (the 256 words taken
    from the data port) has the LBA bit set, the registry was not full, the
    first free slot holds the controller, the device number, the sector
    count read little-endian from bytes 120-123 of the page and the status
    STA_NOINIT, the count is one more, and the last act is the lazy mount of
    that slot.  So the count never goes down, grows by one at most and never
    passes MAX_IDE_DISKS. *)
Theorem gogoboot_disk_table_init_registry :
  forall (fuel : nat) (ctrl : disk_controller_t) (disk : Z)
         (buffer prod : list Z) (w w' : world),
  length buffer = 512%nat ->
  gogoboot_disk_table_init fuel ctrl disk buffer prod w = Some w' ->
  let page := received_bytes (data_reads w) 256 in
  disk_controller w' = disk_controller w /\
  gogoboot_disk_init_done w' = gogoboot_disk_init_done w /\
  (registry_unchanged w w' \/
   ((disk = 0 \/ disk = 1) /\
    Z.testbit (byte_at page 99) 1 = true /\
    disk_table_used w < MAX_IDE_DISKS /\
    registered ctrl disk page w w')) /\
  gogoboot_disk_get_disk_count w <= gogoboot_disk_get_disk_count w'
    <= gogoboot_disk_get_disk_count w + 1 /\
  (gogoboot_disk_get_disk_count w <= MAX_IDE_DISKS ->
   gogoboot_disk_get_disk_count w' <= MAX_IDE_DISKS).
Proof.
  intros fuel ctrl disk buffer prod w w' Hlen Hrun page.
  apply table_init_cases in Hrun. cbv zeta in Hrun.
  rewrite (identify_page_bytes ctrl buffer w Hlen) in Hrun. fold page in Hrun.
  destruct Hrun as (Hc & Hi & writes & words & _ & _ & Hcases).
  unfold gogoboot_disk_get_disk_count.
  destruct Hcases as [[[Ht Hu] _]|(Hd & _ & _ & Hbit & Hmax & Hreg)].
  - split_and!; [exact Hc|exact Hi|left; split; assumption|lia|lia|lia].
  - pose proof Hreg as (_ & Hu & _).
    split_and!; [exact Hc|exact Hi|right; auto|lia|lia|lia].
Qed.


(** X8: the registration.  When the device is ready at the first poll,
    requests data at the second and delivers an IDENTIFY page with the LBA
    bit set, and the registry has a free slot, the probe of device 0 or 1
    returns with the disk registered in that slot: gogoboot_get_disk_info
    finds it under the old count, finds the disks registered before as they
    were, and finds nothing under the new count. *)
Theorem gogoboot_disk_table_init_registers :
  forall (fuel : nat) (ctrl : disk_controller_t) (disk : Z)
         (buffer prod : list Z) (w : world),
  disk = 0 \/ disk = 1 -> (0 < fuel)%nat ->
  wait_success IDE_STATUS_READY (status_at (status_reads w)) = true ->
  wait_success IDE_STATUS_DATAREQUEST (status_at (S (status_reads w)))
  = true ->
  length buffer = 512%nat ->
  Z.testbit (byte_at (received_bytes (data_reads w) 256) 99) 1 = true ->
  0 <= disk_table_used w < MAX_IDE_DISKS ->
  (Z.to_nat (disk_table_used w) < length (disk_table w))%nat ->
  let page := received_bytes (data_reads w) 256 in
  exists w',
    gogoboot_disk_table_init fuel ctrl disk buffer prod w = Some w' /\
    registered ctrl disk page w w' /\
    gogoboot_disk_get_disk_count w' = gogoboot_disk_get_disk_count w + 1 /\
    gogoboot_get_disk_info (gogoboot_disk_get_disk_count w) w'
    = Some (probed_disk ctrl disk page) /\
    (forall nr, 0 <= nr < gogoboot_disk_get_disk_count w ->
       gogoboot_get_disk_info nr w' = gogoboot_get_disk_info nr w) /\
    gogoboot_get_disk_info (gogoboot_disk_get_disk_count w') w' = None.
Proof.
  intros fuel ctrl disk buffer prod w Hdisk Hfuel Hready Hdrq Hlen Hbit
         Hused Hslot page.
  assert (Hex : exists w',
            gogoboot_disk_table_init fuel ctrl disk buffer prod w = Some w' /\
            disk_table_used w' = disk_table_used w + 1).
  { unfold gogoboot_disk_table_init.
    set (w0 := printf "IDE probe 0x%x disk %d: "
                 [ArgInt (base_io ctrl); ArgInt disk] w).
    assert (Hsel : exists sel,
              (if disk =? 0 then Some 224
               else if disk =? 1 then Some 240 else None) = Some sel).
    { destruct Hdisk as [-> | ->]; simpl; eauto. }
    destruct Hsel as [sel ->].
    set (w1 := out8 (device_reg ctrl) sel w0).
    destruct (gogoboot_disk_wait_decides 0 fuel ctrl IDE_STATUS_READY w1)
      as (w2 & Hw1 & Hs2 & _).
    { lia. } { intros i Hi. lia. }
    { left. simpl. rewrite Nat.add_0_r. exact Hready. }
    simpl status_reads in Hw1, Hs2. rewrite Nat.add_0_r in Hw1.
    rewrite Hready in Hw1. rewrite Hw1.
    set (w3 := out8 (command_reg ctrl) IDE_CMD_IDENTIFY w2).
    destruct (gogoboot_disk_wait_decides 0 fuel ctrl IDE_STATUS_DATAREQUEST w3)
      as (w4 & Hw3 & Hs4 & _).
    { lia. } { intros i Hi. lia. }
    { left. simpl. rewrite Nat.add_0_r, Hs2.
      replace (status_reads w + 1)%nat with (S (status_reads w)) by lia.
      exact Hdrq. }
    simpl status_reads in Hw3. rewrite Nat.add_0_r, Hs2 in Hw3.
    replace (status_reads w + 1)%nat with (S (status_reads w)) in Hw3 by lia.
    rewrite Hdrq in Hw3. rewrite Hw3.
    apply probe_frame_wait in Hw1, Hw3.
    destruct Hw1 as ((_ & _ & U1 & _) & D1), Hw3 as ((_ & _ & U3 & _) & D3).
    assert (F4 : data_reads w4 = data_reads w)
      by (rewrite D3; simpl; rewrite D1; reflexivity).
    destruct (gogoboot_disk_read_sector_data ctrl buffer 0 w4)
      as [pg w5] eqn:Hrd.
    destruct (read_page_post ctrl buffer w w4 pg w5 F4 Hrd)
      as (Hpg & _ & (_ & _ & U5 & _) & _).
    rewrite (identify_page_bytes ctrl buffer w Hlen) in Hpg. subst pg.
    clear Hrd.
    assert (U : disk_table_used w5 = disk_table_used w)
      by (rewrite U5, U3; simpl; rewrite U1; reflexivity).
    rewrite lba_bit_test, Hbit. cbn [negb printf emit disk_table_used].
    destruct (Z.leb_spec MAX_IDE_DISKS (disk_table_used w5)); [lia|].
    eexists. split; [reflexivity|].
    cbn [set_disk_table disk_table_used]. lia. }
  destruct Hex as (w' & Hrun & Hu). exists w'.
  pose proof (gogoboot_disk_table_init_registry_aux
                fuel ctrl disk buffer prod w w' Hlen Hrun) as Haux.
  fold page in Haux.
  destruct Haux as [[_ Hu']|Hreg]; [lia|].
  destruct (registered_lookup _ _ _ _ _ Hreg (proj1 Hused) Hslot)
    as (L1 & L2 & L3).
  unfold gogoboot_disk_get_disk_count. split_and!; auto.
Qed.

(** X9: an absent device.  When the first status polled after the device
    select fails the test for READY and shows an error pattern, as the
    values 0x00 and 0xFF of a bus with no drive on it do, the probe gives up
    after that single poll, without waiting for the timer: it has written
    the device select and nothing else, sent no command, moved no data,
    logged "no disk found." and registered nothing. *)
Theorem gogoboot_disk_table_init_no_disk :
  forall (fuel : nat) (ctrl : disk_controller_t) (disk : Z)
         (buffer prod : list Z) (w : world),
  disk = 0 \/ disk = 1 -> (0 < fuel)%nat ->
  wait_success IDE_STATUS_READY (status_at (status_reads w)) = false ->
  wait_error (status_at (status_reads w)) = true ->
  (exists w',
     gogoboot_disk_table_init fuel ctrl disk buffer prod w = Some w' /\
     status_reads w' = S (status_reads w) /\
     out8_writes (events_since w w')
     = [(device_reg ctrl, if disk =? 0 then 0xE0 else 0xF0)] /\
     data_words (events_since w w') = O /\
     last (trace w') = Some (Printf "no disk found.\n" []) /\
     registry_unchanged w w') /\
  (forall s, s = 0x00 \/ s = 0xFF ->
     wait_success IDE_STATUS_READY s = false /\ wait_error s = true).
Proof.
  intros fuel ctrl disk buffer prod w Hdisk Hfuel Hs He. split.
  2:{ intros s [-> | ->]; split; reflexivity. }
  unfold gogoboot_disk_table_init.
  set (w0 := printf "IDE probe 0x%x disk %d: "
               [ArgInt (base_io ctrl); ArgInt disk] w).
  assert (Hsel : (if disk =? 0 then Some 224
                  else if disk =? 1 then Some 240 else None)
                 = Some (if disk =? 0 then 224 else 240))
    by (destruct Hdisk as [-> | ->]; reflexivity).
  rewrite Hsel. clear Hsel.
  set (sel := if disk =? 0 then 224 else 240).
  assert (Hm : sel mod 256 = sel)
    by (unfold sel; destruct (disk =? 0); reflexivity).
  set (w1 := out8 (device_reg ctrl) sel w0).
  destruct (gogoboot_disk_wait_decides 0 fuel ctrl IDE_STATUS_READY w1)
    as (w2 & Hw1 & Hs2 & _).
  { lia. } { intros i Hi. lia. }
  { right. simpl. rewrite Nat.add_0_r. exact He. }
  simpl status_reads in Hw1, Hs2. rewrite Nat.add_0_r in Hw1.
  rewrite Hs in Hw1. rewrite Hw1.
  destruct (step_wait _ _ _ _ _ _ Hw1) as (evs & Ht & Ho & Hn).
  destruct (probe_frame_wait _ _ _ _ _ _ Hw1) as ((_ & T2 & U2 & _) & _).
  eexists. split; [reflexivity|].
  assert (Htr : trace (printf "no disk found.\n" [] w2)
                = trace w ++ [Printf "IDE probe 0x%x disk %d: "
                                [ArgInt (base_io ctrl); ArgInt disk];
                              Out8 (device_reg ctrl) sel] ++ evs
                          ++ [Printf "no disk found.\n" []]).
  { cbn [printf emit trace]. rewrite Ht. unfold w1, w0.
    cbn [out8 printf emit trace]. rewrite Hm, <- !app_assoc. reflexivity. }
  rewrite (events_since_app _ _ _ Htr).
  split_and!.
  - cbn [printf emit status_reads]. lia.
  - rewrite !out8_writes_app, Ho. reflexivity.
  - rewrite !data_words_app, Hn. reflexivity.
  - cbn [printf emit trace]. apply last_snoc.
  - split; cbn [printf emit disk_table disk_table_used]; assumption.
Qed.


Lemma table_init_flag fuel ctrl disk buffer prod w w' :
  gogoboot_disk_table_init fuel ctrl disk buffer prod w = Some w' ->
  disk_controller w' = disk_controller w /\
  gogoboot_disk_init_done w' = gogoboot_disk_init_done w.
Proof.
  intros Hrun. apply table_init_cases in Hrun. cbv zeta in Hrun.
  destruct Hrun as (Hc & Hi & _). auto.
Qed.

Lemma table_init_registry fuel ctrl disk buffer prod w w' :
  gogoboot_disk_table_init fuel ctrl disk buffer prod w = Some w' ->
  registry_unchanged w w' \/
  ((disk = 0 \/ disk = 1) /\ disk_table_used w < MAX_IDE_DISKS /\
   exists page, registered ctrl disk page w w').
Proof.
  intros Hrun. apply table_init_cases in Hrun. cbv zeta in Hrun.
  destruct Hrun as (_ & _ & writes & words & _ & _ & Hcases).
  destruct Hcases as [[Hu _]|(Hd & _ & _ & _ & Hmax & Hreg)]; eauto 6.
Qed.

(** ** Initialisation *)




Lemma controller_init_cases fuel i base stack w w' :
  gogoboot_disk_controller_init fuel i base stack w = Some w' ->
  let ctrl := controller_regs base in
  let w1 := gogoboot_disk_controller_reset ctrl (set_disk_controller i ctrl w) in
  exists w2,
    gogoboot_disk_table_init fuel ctrl 0 (fst stack) (snd stack) w1
      = Some w2 /\
    gogoboot_disk_table_init fuel ctrl 1 (fst stack) (snd stack) w2
      = Some w'.
Proof.
  unfold gogoboot_disk_controller_init. intros H. cbv zeta.
  destruct (gogoboot_disk_table_init fuel (controller_regs base) 0
              (fst stack) (snd stack)
              (gogoboot_disk_controller_reset (controller_regs base)
                 (set_disk_controller i (controller_regs base) w)))
    as [w2|]; [|discriminate H].
  exists w2. auto.
Qed.

Lemma get_disk_info_eq w w' :
  disk_table w' = disk_table w -> disk_table_used w' = disk_table_used w ->
  forall nr, gogoboot_get_disk_info nr w' = gogoboot_get_disk_info nr w.
Proof.
  intros Ht Hu nr. unfold gogoboot_get_disk_info, gogoboot_disk_get_disk_count.
  rewrite Ht, Hu. reflexivity.
Qed.

(** What one probe does to the registry, as gogoboot_get_disk_info shows
    it. *)
Lemma probe_registry_step fuel ctrl disk buffer prod w w' :
  gogoboot_disk_table_init fuel ctrl disk buffer prod w = Some w' ->
  0 <= disk_table_used w ->
  (Z.to_nat MAX_IDE_DISKS <= length (disk_table w))%nat ->
  length (disk_table w') = length (disk_table w) /\
  (forall nr, 0 <= nr < disk_table_used w ->
     gogoboot_get_disk_info nr w' = gogoboot_get_disk_info nr w) /\
  (disk_table_used w' = disk_table_used w \/
   (disk_table_used w' = disk_table_used w + 1 /\
    disk_table_used w < MAX_IDE_DISKS /\ (disk = 0 \/ disk = 1) /\
    exists page, gogoboot_get_disk_info (disk_table_used w) w'
                 = Some (probed_disk ctrl disk page))).
Proof.
  intros Hrun H0 Hlen. apply table_init_registry in Hrun.
  destruct Hrun as [[Ht Hu]|(Hd & Hmax & page & Hreg)].
  - split_and!.
    + rewrite Ht. reflexivity.
    + intros nr _. apply get_disk_info_eq; assumption.
    + left. exact Hu.
  - destruct (registered_lookup _ _ _ _ _ Hreg H0 ltac:(lia)) as (L1 & L2 & _).
    destruct Hreg as (Ht & Hu & _).
    split_and!.
    + rewrite Ht. apply length_insert.
    + exact L2.
    + right. split_and!; eauto.
Qed.

(** X10: the initialisation runs once.  A call of gogoboot_disk_init that
    returns leaves the once-only flag set, and any later call, whatever the
    hardware does, only logs that the work was done: it touches no register
    and leaves the controllers, the registry and its count alone. *)
Theorem gogoboot_disk_init_once :
  forall (fuel : nat) (stack : list Z * list Z) (w w1 : world),
  gogoboot_disk_init fuel stack w = Some w1 ->
  gogoboot_disk_init_done w1 = true /\
  forall (fuel' : nat) (stack' : list Z * list Z),
    let w2 := printf "gogoboot_disk_init: already done?\n" [] w1 in
    gogoboot_disk_init fuel' stack' w1 = Some w2 /\
    List.filter is_register_access (events_since w1 w2) = [] /\
    same_globals w1 w2 /\
    (forall nr, gogoboot_get_disk_info nr w2 = gogoboot_get_disk_info nr w1).
Proof.
  intros fuel stack w w1 Hrun.
  assert (Hdone : gogoboot_disk_init_done w1 = true).
  { unfold gogoboot_disk_init in Hrun.
    destruct (gogoboot_disk_init_done w) eqn:Hd.
    - apply some_world_inj in Hrun. subst w1. exact Hd.
    - apply controller_init_cases in Hrun. cbv zeta in Hrun.
      destruct Hrun as (w2 & H0 & H1).
      apply table_init_flag in H0, H1.
      destruct H0 as [_ H0], H1 as [_ H1]. rewrite H1, H0. reflexivity. }
  split; [exact Hdone|]. intros fuel' stack' w2. split_and!.
  - unfold gogoboot_disk_init. rewrite Hdone. reflexivity.
  - unfold events_since, w2. cbn [printf emit trace].
    rewrite drop_app_length. reflexivity.
  - apply same_globals_emit.
  - intros nr. apply get_disk_info_eq; reflexivity.
Qed.

(** X11: the registry after the initialisation.  The first call sets the
    flag and the register addresses of controller 0, at 0x1f0, and probes
    device 0 and then device 1 of it.  It keeps every disk that was
    registered, adds at most two and never goes past MAX_IDE_DISKS; every
    disk that it adds is found by gogoboot_get_disk_info on that controller,
    with device number 0 or 1 and the status STA_NOINIT, and when it adds
    two the first is device 0 and the second device 1. *)
Theorem gogoboot_disk_init_registry :
  forall (fuel : nat) (stack : list Z * list Z) (w w' : world),
  gogoboot_disk_init_done w = false ->
  0 <= gogoboot_disk_get_disk_count w ->
  (Z.to_nat MAX_IDE_DISKS <= length (disk_table w))%nat ->
  gogoboot_disk_init fuel stack w = Some w' ->
  gogoboot_disk_init_done w' = true /\
  disk_controller w' = <[O := controller_regs 0x1f0]> (disk_controller w) /\
  gogoboot_disk_get_disk_count w <= gogoboot_disk_get_disk_count w'
    <= gogoboot_disk_get_disk_count w + 2 /\
  (gogoboot_disk_get_disk_count w <= MAX_IDE_DISKS ->
   gogoboot_disk_get_disk_count w' <= MAX_IDE_DISKS) /\
  (forall nr, 0 <= nr < gogoboot_disk_get_disk_count w ->
     gogoboot_get_disk_info nr w' = gogoboot_get_disk_info nr w) /\
  (forall nr,
     gogoboot_disk_get_disk_count w <= nr < gogoboot_disk_get_disk_count w' ->
     exists d, gogoboot_get_disk_info nr w' = Some d /\
               disk_ctrl d = controller_regs 0x1f0 /\
               (disk_disk d = 0 \/ disk_disk d = 1) /\
               disk_fat_fs_status d = STA_NOINIT) /\
  (gogoboot_disk_get_disk_count w' = gogoboot_disk_get_disk_count w + 2 ->
   exists d0 d1,
     gogoboot_get_disk_info (gogoboot_disk_get_disk_count w) w' = Some d0 /\
     disk_disk d0 = 0 /\
     gogoboot_get_disk_info (gogoboot_disk_get_disk_count w + 1) w' = Some d1 /\
     disk_disk d1 = 1).
Proof.
  unfold gogoboot_disk_get_disk_count.
  intros fuel stack w w' Hdone H0 Hlen Hrun.
  unfold gogoboot_disk_init in Hrun. rewrite Hdone in Hrun.
  change (default 0 (controller_base_io_addr !! O)) with 0x1f0 in Hrun.
  apply controller_init_cases in Hrun. cbv zeta in Hrun.
  set (ctrl := controller_regs 0x1f0) in *.
  destruct Hrun as (w2 & Hp0 & Hp1).
  match type of Hp0 with
    gogoboot_disk_table_init _ _ _ _ _ ?x = _ => set (w1 := x) in * end.
  assert (E1 : disk_table w1 = disk_table w /\
               disk_table_used w1 = disk_table_used w /\
               disk_controller w1 = <[O := ctrl]> (disk_controller w) /\
               gogoboot_disk_init_done w1 = true)
    by (split_and!; reflexivity).
  destruct E1 as (T1 & U1 & C1 & I1).
  pose proof (get_disk_info_eq w w1 T1 U1) as Hinfo1.
  destruct (table_init_flag _ _ _ _ _ _ _ Hp0) as [C2 I2].
  destruct (table_init_flag _ _ _ _ _ _ _ Hp1) as [C3 I3].
  destruct (probe_registry_step _ _ _ _ _ _ _ Hp0) as (L2 & K2 & R2);
    [lia|rewrite T1; exact Hlen|].
  assert (H2 : 0 <= disk_table_used w2) by (destruct R2 as [?|(? & _)]; lia).
  destruct (probe_registry_step _ _ _ _ _ _ _ Hp1) as (L3 & K3 & R3);
    [exact H2|rewrite L2, T1; exact Hlen|].
  clear Hp0 Hp1. rewrite U1 in *.
  split_and!.
  - rewrite I3, I2. exact I1.
  - rewrite C3, C2. exact C1.
  - destruct R2 as [?|(? & _)], R3 as [?|(? & _)]; lia.
  - destruct R2 as [?|(? & _)], R3 as [?|(? & _)]; lia.
  - destruct R2 as [?|(? & ? & _)], R3 as [?|(? & ? & _)]; lia.
  - intros nr Hnr. rewrite K3, K2, Hinfo1; [reflexivity|lia|].
    destruct R2 as [?|(? & _)]; lia.
  - intros nr Hnr.
    destruct R2 as [E2|(E2 & _ & _ & p0 & G0)];
      destruct R3 as [E3|(E3 & _ & _ & p1 & G1)]; try lia.
    + assert (nr = disk_table_used w2) as -> by lia.
      eexists. split; [exact G1|]. cbn. auto.
    + assert (nr = disk_table_used w) as -> by lia.
      rewrite K3 by lia. eexists. split; [exact G0|]. cbn. auto.
    + destruct (Z.eq_dec nr (disk_table_used w)) as [-> | Hne].
      * rewrite K3 by lia. eexists. split; [exact G0|]. cbn. auto.
      * assert (nr = disk_table_used w2) as -> by lia.
        eexists. split; [exact G1|]. cbn. auto.
  - intros Hboth.
    destruct R2 as [E2|(E2 & _ & _ & p0 & G0)];
      destruct R3 as [E3|(E3 & _ & _ & p1 & G1)]; try lia.
    exists (probed_disk ctrl 0 p0), (probed_disk ctrl 1 p1).
    rewrite K3 by lia. rewrite <- E2. split_and!; auto.
Qed.



(** ** Timers *)

Lemma timer_duration_range d :
  0 <= d < 2^32 ->
  1 <= timer_duration d <= 0x7fffffff /\
  (d = 0 -> timer_duration d = 1) /\
  (1 <= d < 2^31 -> timer_duration d = d) /\
  (2^31 <= d -> timer_duration d = 0x7fffffff).
Proof.
  intros Hd. unfold timer_duration.
  change 0x80000000 with (2^31). rewrite land_pow2 by lia.
  rewrite testbit31_range by exact Hd.
  destruct (Z.eqb_spec d 0) as [-> | Hne];
    [|destruct (Z.leb_spec (2^31) d)];
    change (2^31 =? 0) with false; change (0 =? 0) with true;
    cbv iota; change (2^31) with 2147483648 in *;
    change (2^32) with 4294967296 in *; lia.
Qed.

Lemma set_timer_ticks_fst d w :
  fst (set_timer_ticks d w)
  = (ticks_at (tick_reads w) + timer_duration d) mod 2^32.
Proof.
  unfold set_timer_ticks, timer_duration, ticks_at.
  destruct (d =? 0); [reflexivity|].
  destruct (Z.land d 0x80000000 =? 0); reflexivity.
Qed.

Lemma set_timer_ticks_snd d w :
  exists evs,
    snd (set_timer_ticks d w)
    = mk_world (status_reads w) (altstatus_reads w) (data_reads w)
               (S (tick_reads w)) (trace w ++ evs)
               (disk_controller w) (disk_table w) (disk_table_used w)
               (gogoboot_disk_init_done w) /\
    List.filter is_register_access evs = [].
Proof.
  unfold set_timer_ticks.
  destruct (d =? 0).
  - exists []. cbn. rewrite app_nil_r. auto.
  - destruct (Z.land d 0x80000000 =? 0); cbn.
    + exists []. rewrite app_nil_r. auto.
    + eexists. split; reflexivity.
Qed.

(** The test of a timer against the ticks that have passed since it was
    set. *)
Lemma timer_window d n m :
  0 <= d < 2^32 ->
  (elapsed n m <= timer_duration d ->
   timer_expired_at ((ticks_at n + timer_duration d) mod 2^32) (ticks_at m)
   = false) /\
  (timer_duration d < elapsed n m <= timer_duration d + 2^31 ->
   timer_expired_at ((ticks_at n + timer_duration d) mod 2^32) (ticks_at m)
   = true).
Proof.
  intros Hd. destruct (timer_duration_range d Hd) as (Hr & _).
  assert (He : 0 <= elapsed n m < 2^32)
    by (unfold elapsed; apply Z.mod_pos_bound; lia).
  assert (Hdiff : ((ticks_at n + timer_duration d) mod 2^32 - ticks_at m)
                  mod 2^32 = (timer_duration d - elapsed n m) mod 2^32).
  { unfold elapsed. rewrite Zminus_mod_idemp_l, Zminus_mod_idemp_r.
    f_equal. lia. }
  split; intros H;
    rewrite (timer_expired_at_diff _ _ (timer_duration d) (elapsed n m))
      by exact Hdiff.
  - apply timer_not_expired. lia.
  - apply timer_is_expired. lia.
Qed.

(** X13: a timer and the wrap-around of the counter.  set_timer_ticks adds
    to the counter, modulo 2^32, the duration it was given, with 0 rounded
    up to 1 and anything from 2^31 on cut down to 0x7fffffff.  Wherever the
    32-bit counter stands, the timer is not expired as long as at most that
    many ticks have passed since it was set, and it is expired once more
    have passed, for the 2^31 ticks that follow. *)
Theorem set_timer_ticks_window :
  forall (d : Z) (w w2 : world),
  0 <= d < 2^32 ->
  let timer := fst (set_timer_ticks d w) in
  let e := elapsed (tick_reads w) (tick_reads w2) in
  timer = (ticks_at (tick_reads w) + timer_duration d) mod 2^32 /\
  (e <= timer_duration d -> fst (timer_expired timer w2) = false) /\
  (timer_duration d < e <= timer_duration d + 2^31 ->
   fst (timer_expired timer w2) = true) /\
  1 <= timer_duration d <= 0x7fffffff /\
  (d = 0 -> timer_duration d = 1) /\
  (1 <= d < 2^31 -> timer_duration d = d) /\
  (2^31 <= d -> timer_duration d = 0x7fffffff).
Proof.
  intros d w w2 Hd timer e. unfold timer, e.
  rewrite set_timer_ticks_fst.
  destruct (timer_window d (tick_reads w) (tick_reads w2) Hd) as [W1 W2].
  destruct (timer_duration_range d Hd) as (R1 & R2 & R3 & R4).
  assert (Hx : forall t, fst (timer_expired t w2)
                         = timer_expired_at t (ticks_at (tick_reads w2)))
    by reflexivity.
  rewrite Hx. split_and!; auto; lia.
Qed.

Lemma first_true (f : nat -> bool) (k : nat) :
  f k = true ->
  exists j, (j <= k)%nat /\ f j = true /\
            forall i, (i < j)%nat -> f i = false.
Proof.
  assert (P : (exists j, (j <= k)%nat /\ f j = true /\
                         forall i, (i < j)%nat -> f i = false) \/
              (forall i, (i <= k)%nat -> f i = false)).
  { induction k as [|k [(j & Hj & Hfj & Hpre)|Hnone]].
    - destruct (f O) eqn:H0.
      + left. exists O. split_and!; [lia|exact H0|intros i Hi; lia].
      + right. intros i Hi. replace i with O by lia. exact H0.
    - left. exists j. split_and!; auto.
    - destruct (f (S k)) eqn:Hk.
      + left. exists (S k). split_and!; [lia|exact Hk|].
        intros i Hi. apply Hnone. lia.
      + right. intros i Hi. destruct (Nat.eq_dec i (S k)) as [-> | Hne];
          [exact Hk|apply Hnone; lia]. }
  intros Hk. destruct P as [P|P]; [exact P|].
  rewrite P in Hk by lia. discriminate Hk.
Qed.

Lemma timer_wait_first k : forall fuel timeout w,
  (k < fuel)%nat ->
  (forall i, (i < k)%nat ->
     timer_expired_at timeout (ticks_at (tick_reads w + i)) = false) ->
  timer_expired_at timeout (ticks_at (tick_reads w + k)) = true ->
  timer_wait fuel timeout w = Some (after_tick_reads (S k) w).
Proof.
  induction k as [|k IH]; intros fuel timeout w Hf Hpre He;
    (destruct fuel as [|fuel]; [lia|]);
    cbn [timer_wait timer_expired q40_read_timer_ticks];
    fold (ticks_at (tick_reads w)).
  - rewrite Nat.add_0_r in He. rewrite He. unfold after_tick_reads.
    rewrite Nat.add_1_r. reflexivity.
  - pose proof (Hpre O ltac:(lia)) as H0. rewrite Nat.add_0_r in H0.
    rewrite H0. rewrite IH.
    + unfold after_tick_reads.
      cbn [status_reads altstatus_reads data_reads tick_reads trace
           disk_controller disk_table disk_table_used
           gogoboot_disk_init_done].
      f_equal. f_equal. lia.
    + lia.
    + intros i Hi. cbn [tick_reads].
      replace (S (tick_reads w) + i)%nat with (tick_reads w + S i)%nat by lia.
      apply Hpre. lia.
    + cbn [tick_reads].
      replace (S (tick_reads w) + k)%nat with (tick_reads w + S k)%nat by lia.
      exact He.
Qed.

Lemma timer_wait_post fuel : forall timeout w w',
  timer_wait fuel timeout w = Some w' ->
  exists k : nat,
    w' = after_tick_reads (S k) w /\
    timer_expired_at timeout (ticks_at (tick_reads w + k)) = true /\
    (forall i, (i < k)%nat ->
       timer_expired_at timeout (ticks_at (tick_reads w + i)) = false).
Proof.
  induction fuel as [|fuel IH]; intros timeout w w' H; [discriminate H|].
  cbn [timer_wait timer_expired q40_read_timer_ticks] in H.
  fold (ticks_at (tick_reads w)) in H.
  destruct (timer_expired_at timeout (ticks_at (tick_reads w))) eqn:He.
  - apply some_world_inj in H. subst w'. exists O. split_and!.
    + unfold after_tick_reads. rewrite Nat.add_1_r. reflexivity.
    + rewrite Nat.add_0_r. exact He.
    + intros i Hi. lia.
  - apply IH in H. destruct H as (k & Hw & Hk & Hpre).
    cbn [tick_reads] in Hk, Hpre. exists (S k). split_and!.
    + rewrite Hw. unfold after_tick_reads.
      cbn [status_reads altstatus_reads data_reads tick_reads trace
           disk_controller disk_table disk_table_used
           gogoboot_disk_init_done].
      f_equal. lia.
    + replace (tick_reads w + S k)%nat with (S (tick_reads w) + k)%nat by lia.
      exact Hk.
    + intros [|i] Hi.
      * rewrite Nat.add_0_r. exact He.
      * replace (tick_reads w + S i)%nat with (S (tick_reads w) + i)%nat
          by lia.
        apply Hpre. lia.
Qed.

(** X14: timer_wait returns at the first read of the counter that finds the
    timer expired, having changed nothing else; and it does return once a
    read finds that.  So a wait on the timer that set_timer_ticks made for
    [d] ticks does not return early: the read that ends it finds more than
    the duration of the timer, hence more than [d] ticks for [d] below 2^31,
    passed since the timer was set. *)
Theorem timer_wait_not_early :
  forall (d : Z) (fuel : nat) (w : world),
  0 <= d < 2^32 ->
  let timer := fst (set_timer_ticks d w) in
  let w1 := snd (set_timer_ticks d w) in
  (forall w',
     timer_wait fuel timer w1 = Some w' ->
     exists k : nat,
       w' = after_tick_reads (S k) w1 /\
       timer_duration d < elapsed (tick_reads w) (S (tick_reads w) + k) /\
       (forall i, (i < k)%nat ->
          timer_expired_at timer (ticks_at (S (tick_reads w) + i)) = false)) /\
  (forall k : nat,
     (k < fuel)%nat ->
     timer_duration d < elapsed (tick_reads w) (S (tick_reads w) + k)
       <= timer_duration d + 2^31 ->
     exists w', timer_wait fuel timer w1 = Some w' /\
                (tick_reads w' <= S (tick_reads w) + S k)%nat).
Proof.
  intros d fuel w Hd timer w1.
  assert (Ht : timer = (ticks_at (tick_reads w) + timer_duration d) mod 2^32)
    by apply set_timer_ticks_fst.
  assert (H1 : tick_reads w1 = S (tick_reads w)).
  { unfold w1. destruct (set_timer_ticks_snd d w) as (evs & -> & _).
    reflexivity. }
  split.
  - intros w' H. apply timer_wait_post in H.
    destruct H as (k & Hw & Hk & Hpre). rewrite H1 in Hk, Hpre.
    exists k. split_and!; auto.
    destruct (Z_lt_le_dec (timer_duration d)
                (elapsed (tick_reads w) (S (tick_reads w) + k)))
      as [Hlt|Hle]; [exact Hlt|].
    apply (proj1 (timer_window d _ _ Hd)) in Hle.
    rewrite <- Ht, Hk in Hle. discriminate Hle.
  - intros k Hk He.
    apply (proj2 (timer_window d _ _ Hd)) in He. rewrite <- Ht in He.
    destruct (first_true
                (fun j => timer_expired_at timer (ticks_at (tick_reads w1 + j)))
                k) as (j & Hj & Hej & Hpre);
      [rewrite H1; exact He|].
    exists (after_tick_reads (S j) w1). split.
    + apply timer_wait_first; [lia|exact Hpre|exact Hej].
    + unfold after_tick_reads. cbn [tick_reads]. lia.
Qed.

(** ** gogoboot_disk_read_name at its bounds *)

Lemma read_name_loop_done n id buffer s offset rem :
  rem <= 0 -> read_name_loop n id buffer s offset rem = (buffer, s).
Proof.
  intros Hr. destruct n; cbn [read_name_loop];
    (destruct (Z.ltb_spec 0 rem); [lia|reflexivity]).
Qed.

(** An odd count makes the copy loop run as the next even count does. *)
Lemma read_name_loop_odd m : forall n n' id buffer s offset,
  (S m <= n)%nat -> (S m <= n')%nat ->
  read_name_loop n id buffer s offset (2 * Z.of_nat (S m) - 1)
  = read_name_loop n' id buffer s offset (2 * Z.of_nat (S m)).
Proof.
  induction m as [|m IH]; intros n n' id buffer s offset Hn Hn';
    (destruct n as [|n]; [lia|]); (destruct n' as [|n']; [lia|]);
    cbn [read_name_loop];
    repeat match goal with |- context [0 <? ?x] =>
             destruct (Z.ltb_spec 0 x); [|lia] end.
  - rewrite !read_name_loop_done by lia. reflexivity.
  - replace (2 * Z.of_nat (S (S m)) - 1 - 2) with (2 * Z.of_nat (S m) - 1)
      by lia.
    replace (2 * Z.of_nat (S (S m)) - 2) with (2 * Z.of_nat (S m)) by lia.
    apply IH; lia.
Qed.

Lemma strip_last l : last (strip_trailing_spaces l) <> Some 32.
Proof.
  induction l as [|c l IH]; cbn [strip_trailing_spaces]; [discriminate|].
  destruct (strip_trailing_spaces l) as [|y r] eqn:Hs.
  - destruct (Z.eqb_spec c 32); [discriminate|].
    cbn. intros H. injection H as H. contradiction.
  - exact IH.
Qed.

Lemma strip_Forall (P : Z -> Prop) l :
  Forall P l -> Forall P (strip_trailing_spaces l).
Proof.
  induction l as [|c l IH]; intros H; cbn [strip_trailing_spaces];
    [constructor|].
  pose proof (Forall_inv H) as Hc.
  specialize (IH (Forall_inv_tail H)).
  destruct (strip_trailing_spaces l) as [|y r].
  - destruct (c =? 32); constructor; auto.
  - constructor; auto.
Qed.

Lemma length_strip l :
  (length (strip_trailing_spaces l) <= length l)%nat.
Proof.
  induction l as [|c l IH]; cbn [strip_trailing_spaces]; [lia|].
  destruct (strip_trailing_spaces l) as [|y r].
  - destruct (c =? 32); cbn; lia.
  - cbn in *. lia.
Qed.

(** X20: gogoboot_disk_read_name at its bounds.  With [len <= 0] nothing
    is copied and the buffer gets a NUL as its first byte.  An odd [len]
    makes the loop copy [len + 1] bytes, as [len + 1] does, so that the NUL
    goes to offset [len + 1].  For an even [len] inside the identify page
    and a buffer of more than [len] bytes, no byte behind offset [len] is
    touched, and the name left in the buffer has at most [len] characters,
    none of them NUL, and does not end in a space. *)
Theorem gogoboot_disk_read_name_bounds :
  (forall (id buffer : list Z) (offset len : Z),
     len <= 0 ->
     gogoboot_disk_read_name id buffer offset len = store_byte buffer 0 0) /\
  (forall (id buffer : list Z) (offset len : Z),
     0 < len -> Z.odd len = true ->
     gogoboot_disk_read_name id buffer offset len
     = gogoboot_disk_read_name id buffer offset (len + 1)) /\
  (forall (id buffer : list Z) (offset len : Z),
     0 <= offset -> 0 <= len -> Z.even len = true ->
     offset + len <= Z.of_nat (length id) ->
     len < Z.of_nat (length buffer) ->
     Forall is_byte id ->
     let out := gogoboot_disk_read_name id buffer offset len in
     drop (Z.to_nat len + 1) out = drop (Z.to_nat len + 1) buffer /\
     (length (c_string out) <= Z.to_nat len)%nat /\
     last (c_string out) <> Some 32 /\
     Forall (fun c => c <> 0) (c_string out)).
Proof.
  split_and!.
  - intros id buffer offset len Hl. unfold gogoboot_disk_read_name.
    rewrite read_name_loop_done by exact Hl.
    assert (Hs : strlen (store_byte buffer 0 0) = O).
    { destruct buffer as [|b buffer]; reflexivity. }
    rewrite Hs. cbn [rtrim_loop].
    destruct buffer as [|b buffer]; reflexivity.
  - intros id buffer offset len Hl Hodd.
    apply Z.odd_spec in Hodd. destruct Hodd as [q Hq].
    unfold gogoboot_disk_read_name.
    replace len with (2 * Z.of_nat (S (Z.to_nat q)) - 1) at 2 by lia.
    replace (len + 1) with (2 * Z.of_nat (S (Z.to_nat q))) at 2 by lia.
    rewrite (read_name_loop_odd (Z.to_nat q) (Z.to_nat len)
               (Z.to_nat (len + 1))) by lia.
    reflexivity.
  - intros id buffer offset len Ho Hl Hev Hid Hbuf Hb out.
    apply Z.even_spec in Hev. destruct Hev as [q Hq].
    set (m := Z.to_nat q).
    assert (Hlen : len = Z.of_nat (2 * m)) by (unfold m; lia).
    assert (Hlen' : Z.to_nat len = (2 * m)%nat) by lia.
    set (field := take (Z.to_nat len) (drop (Z.to_nat offset) id)).
    set (idpre := take (Z.to_nat offset) id).
    set (idpost := drop (Z.to_nat len) (drop (Z.to_nat offset) id)).
    assert (Hsplit : id = idpre ++ field ++ idpost).
    { unfold idpre, field, idpost. rewrite take_drop, take_drop. reflexivity. }
    assert (Hidpre : length idpre = Z.to_nat offset).
    { unfold idpre. rewrite length_take. lia. }
    assert (Hfield : length field = (2 * m)%nat).
    { unfold field. rewrite length_take, length_drop. lia. }
    assert (Hfb : Forall is_byte field).
    { unfold field. apply Forall_take, Forall_drop. exact Hb. }
    set (body := take (Z.to_nat len) buffer).
    assert (Hbody : length body = (2 * m)%nat).
    { unfold body. rewrite length_take. lia. }
    destruct (drop (Z.to_nat len) buffer) as [|x post] eqn:Hpost.
    { apply (f_equal length) in Hpost. rewrite length_drop in Hpost.
      simpl in Hpost. lia. }
    assert (Hbuffer : buffer = body ++ x :: post).
    { unfold body. rewrite <- Hpost, take_drop. reflexivity. }
    assert (HD : length (swap_pairs field) = (2 * m)%nat)
      by (apply length_swap_pairs; exact Hfield).
    pose proof (strlen_le (swap_pairs field)) as Hsl.
    destruct (gogoboot_disk_read_name_app m id idpre field idpost body x post
                Hsplit Hfb Hfield Hbody) as (Hout & Htake & Hk).
    replace (Z.of_nat (length idpre)) with offset in Hout by lia.
    rewrite <- Hlen, <- Hbuffer in Hout. fold out in Hout.
    set (D := swap_pairs field) in *.
    set (k := length (strip_trailing_spaces (c_string D))) in *.
    assert (Hklt : (k < length (D ++ 0%Z :: post))%nat).
    { rewrite length_app. simpl. lia. }
    assert (Hcs : c_string out = strip_trailing_spaces (c_string D)).
    { rewrite Hout. rewrite insert_take_drop by exact Hklt.
      unfold c_string at 1. rewrite strlen_nonzero_prefix.
      - rewrite take_app_length. exact Htake.
      - rewrite Htake. apply strip_Forall, c_string_nonzero. }
    split_and!.
    + rewrite Hout, drop_insert_lt by lia.
      rewrite Hlen', Hbuffer.
      replace (2 * m + 1)%nat with (length D + 1)%nat by lia.
      replace (length D + 1)%nat with (length body + 1)%nat at 2 by lia.
      rewrite <- !drop_drop, !drop_app_length. reflexivity.
    + rewrite Hcs. pose proof (length_strip (c_string D)) as H1.
      unfold c_string in H1 at 2. rewrite length_take in H1. lia.
    + rewrite Hcs. apply strip_last.
    + rewrite Hcs. apply strip_Forall, c_string_nonzero.
Qed.

(** ** Transfers put together *)

Lemma pair_words_range n : forall src,
  (length src <= n)%nat -> Forall is_byte src ->
  Forall (fun v => 0 <= v < 65536) (pair_words src).
Proof.
  induction n as [|n IH]; intros [|a [|b rest]] Hl Hb; cbn [pair_words];
    try constructor; cbn [length] in Hl; try lia.
  - pose proof (Forall_inv Hb) as Ha.
    pose proof (Forall_inv (Forall_inv_tail Hb)) as Hb0.
    unfold is_byte in *. lia.
  - apply IH; [lia|]. exact (Forall_inv_tail (Forall_inv_tail Hb)).
Qed.

(** X21: a write and a read put together.  When a write of [N] sectors
    from a buffer of 512 * N bytes succeeds, and a read of [N] sectors that
    succeeds is handed by the device the words that the write put on the
    data port, the read leaves in its buffer, byte for byte, the buffer that
    was written, and the bytes behind it as they were. *)
Theorem gogoboot_disk_write_read_round_trip :
  forall (fuel fuel' : nat) (disknr disknr' : Z) (src dst post : list Z)
         (sector sector' N : Z) (w w1 w2 w3 : world) (src' dst' : list Z),
  0 <= disknr < gogoboot_disk_get_disk_count w ->
  0 <= disknr' < gogoboot_disk_get_disk_count w2 ->
  0 <= N ->
  Z.of_nat (length src) = 512 * N -> Forall is_byte src ->
  Z.of_nat (length dst) = 512 * N ->
  gogoboot_disk_write fuel disknr src sector N w = Some (true, src', w1) ->
  gogoboot_disk_read fuel' disknr' (dst ++ post) sector' N w2
    = Some (true, dst', w3) ->
  map data_at (seq (data_reads w2) (256 * Z.to_nat N))
    = out16_values (events_since w w1) ->
  dst' = src ++ post.
Proof.
  intros fuel fuel' disknr disknr' src dst post sector sector' N w w1 w2 w3
         src' dst' Hnr Hnr' HN Hsrc Hbytes Hdst Hwr Hrd Hwire.
  unfold gogoboot_disk_write in Hwr. unfold gogoboot_disk_read in Hrd.
  rewrite gogoboot_disk_readwrite_valid in Hwr by exact Hnr.
  rewrite gogoboot_disk_readwrite_valid in Hrd by exact Hnr'.
  rewrite <- (app_nil_r src) in Hwr at 1.
  apply (rw_chunks_write _ _ _ [] src []) in Hwr; [|lia].
  destruct Hwr as (d1 & evs & _ & Ht & Ho & _ & _ & _ & Hok1).
  specialize (Hok1 eq_refl).
  apply (rw_chunks_read _ _ _ [] dst post) in Hrd; [|lia].
  destruct Hrd as (d2 & Hb & _ & _ & Hok2). specialize (Hok2 eq_refl).
  cbn [app] in Hb. rewrite Hb.
  rewrite drop_ge by lia. cbn [app]. f_equal.
  rewrite (events_since_app _ _ _ Ht), Ho in Hwire.
  rewrite take_ge in Hwire by lia.
  unfold received_bytes.
  replace (256 * d2)%nat with (256 * Z.to_nat N)%nat by lia.
  rewrite Hwire, map_map.
  rewrite (map_ext_in _ (fun v => v)).
  - rewrite map_id. apply pair_words_bytes; [exact Hbytes|].
    exists (256 * Z.to_nat N)%nat. lia.
  - intros v Hv. apply bswap16_involutive.
    pose proof (pair_words_range (length src) src ltac:(lia) Hbytes) as Hr.
    rewrite List.Forall_forall in Hr. apply Hr. exact Hv.
Qed.

(** X22: a registered disk is the disk that a transfer addresses.  When a
    probe has registered device [disk] of the controller [ctrl], a later
    read or write under the number it got, for at least one sector, starts
    with the five set-up writes on the registers of that controller, the
    first of them the device select 0xE0 (device 0) or 0xF0 (device 1) with
    bits 27-24 of the sector. *)
Theorem registered_disk_is_addressed :
  forall (fuel : nat) (ctrl : disk_controller_t) (disk : Z) (page : list Z)
         (w w' w2 w3 : world) (buf : list Z) (sector sector_count : Z)
         (is_write r : bool) (buf' : list Z),
  registered ctrl disk page w w' ->
  0 <= disk_table_used w ->
  (Z.to_nat (disk_table_used w) < length (disk_table w))%nat ->
  same_globals w' w2 ->
  0 < sector_count ->
  gogoboot_disk_readwrite fuel (disk_table_used w) buf sector sector_count
                          is_write w2 = Some (r, buf', w3) ->
  exists rest,
    out8_writes (events_since w2 w3)
    = [(device_reg ctrl,
        (if disk =? 0 then 0xE0 else 0xF0) + (sector / 2^24) mod 16);
       (lbah_reg ctrl, (sector / 2^16) mod 256);
       (lbam_reg ctrl, (sector / 2^8) mod 256);
       (lbal_reg ctrl, sector mod 256);
       (nsect_reg ctrl,
        if Z.min sector_count 256 =? 256 then 0 else Z.min sector_count 256)]
      ++ rest.
Proof.
  intros fuel ctrl disk page w w' w2 w3 buf sector sector_count is_write r
         buf' Hreg H0 Hslot (_ & Gt & Gu & _) Hpos Hrun.
  destruct Hreg as (Ht & Hu & _).
  rewrite gogoboot_disk_readwrite_valid in Hrun
    by (unfold gogoboot_disk_get_disk_count; lia).
  rewrite Gt, Ht, list_lookup_insert_eq in Hrun by exact Hslot.
  cbn [default from_option] in Hrun.
  change (id (probed_disk ctrl disk page)) with (probed_disk ctrl disk page)
    in Hrun.
  apply rw_chunks_head in Hrun; [|exact Hpos].
  exact Hrun.
Qed.

End Driver.

(** * Properties of q40_measure_ram_size *)

Lemma find_app_first {A} (f : A -> bool) (l1 l2 : list A) :
  List.find f (l1 ++ l2)
  = match List.find f l1 with Some x => Some x | None => List.find f l2 end.
Proof.
  induction l1 as [|a l1 IH]; [reflexivity|].
  cbn [app List.find]. destruct (f a); [reflexivity|exact IH].
Qed.

Lemma units_S n : units (S n) = units n ++ [Z.of_nat (S n)].
Proof. unfold units. rewrite seq_S, map_app. reflexivity. Qed.

Lemma units_split (m n : nat) :
  (m < n)%nat ->
  exists rest, units n = units m ++ Z.of_nat (S m) :: rest.
Proof.
  intros H. unfold units.
  replace n with (m + S (n - S m))%nat by lia.
  rewrite seq_app, map_app. cbn [seq map]. eauto.
Qed.

Lemma in_units x n : In x (units n) <-> 1 <= x <= Z.of_nat n.
Proof.
  unfold units. rewrite in_map_iff. split.
  - intros (i & <- & Hi). apply in_seq in Hi. lia.
  - intros Hx. exists (Z.to_nat x). split; [lia|]. apply in_seq. lia.
Qed.

(** The low half of a test value is the unit, so that the units below 2^16
    have test values of their own. *)
Lemma UNIT_TEST_VALUE_low u :
  0 <= u < 2^16 -> UNIT_TEST_VALUE u mod 2^16 = u.
Proof.
  intros Hu. unfold UNIT_TEST_VALUE.
  apply Z.bits_inj'. intros i Hi.
  destruct (Z.ltb_spec i 16) as [Hlt|Hge].
  - rewrite !Z.mod_pow2_bits_low by lia.
    rewrite Z.lor_spec, Z.shiftl_spec_low by lia. apply orb_false_r.
  - rewrite Z.mod_pow2_bits_high by lia.
    symmetry. rewrite <- (Z.mod_small u (2^16)) by lia.
    apply Z.mod_pow2_bits_high. lia.
Qed.

Lemma UNIT_TEST_VALUE_inj u u' :
  0 <= u < 2^16 -> 0 <= u' < 2^16 ->
  UNIT_TEST_VALUE u = UNIT_TEST_VALUE u' -> u = u'.
Proof.
  intros Hu Hu' H.
  rewrite <- (UNIT_TEST_VALUE_low u Hu), <- (UNIT_TEST_VALUE_low u' Hu'), H.
  reflexivity.
Qed.

Lemma UNIT_TEST_VALUE_mod u : UNIT_TEST_VALUE u mod 2^32 = UNIT_TEST_VALUE u.
Proof. unfold UNIT_TEST_VALUE. apply Z.mod_mod. lia. Qed.

(** After the writes, from the highest unit down, a cell holds the test
    value of the lowest unit that it backs. *)
Lemma write_units_spec b n : forall w,
  ram_size (write_units b n (Z.of_nat n) w) = ram_size w /\
  forall c,
    ram_cells (write_units b n (Z.of_nat n) w) c
    = match lowest_unit b c n with
      | Some u => UNIT_TEST_VALUE u
      | None => ram_cells w c
      end.
Proof.
  induction n as [|n IH]; intros w.
  - split; [reflexivity|]. intros c. reflexivity.
  - cbn [write_units].
    destruct (Z.ltb_spec 0 (Z.of_nat (S n))) as [_|Hn]; [|lia].
    replace (Z.of_nat (S n) - 1) with (Z.of_nat n) by lia.
    destruct (IH (store32 b (UNIT_ADDRESS b (Z.of_nat (S n)))
                    (UNIT_TEST_VALUE (Z.of_nat (S n))) w)) as [Hs Hc].
    split.
    + rewrite Hs. unfold store32.
      destruct (ram_cell b (UNIT_ADDRESS b (Z.of_nat (S n)))); reflexivity.
    + intros c. rewrite Hc. unfold lowest_unit.
      rewrite units_S, find_app_first.
      destruct (List.find (fun u => backs b u c) (units n)); [reflexivity|].
      cbn [List.find]. unfold backs, store32.
      destruct (ram_cell b (UNIT_ADDRESS b (Z.of_nat (S n)))) as [c0|];
        [|reflexivity].
      cbn [ram_cells]. rewrite (Z.eqb_sym c c0).
      destruct (c0 =? c); [apply UNIT_TEST_VALUE_mod|reflexivity].
Qed.

(** The comparison of the read loop, on the memory that the writes left. *)
Lemma read_back_spec b n w u :
  Z.of_nat n < 2^16 -> 1 <= u <= Z.of_nat n ->
  (load32 b (UNIT_ADDRESS b u) (write_units b n (Z.of_nat n) w)
   =? UNIT_TEST_VALUE u)
  = unit_answers b u.
Proof.
  intros Hn Hu. unfold load32, unit_answers.
  destruct (ram_cell b (UNIT_ADDRESS b u)) as [c|] eqn:Hcell; [|reflexivity].
  rewrite (proj2 (write_units_spec b n w) c). unfold lowest_unit.
  destruct (units_split (Z.to_nat u - 1) n ltac:(lia)) as (rest & ->).
  replace (Z.of_nat (S (Z.to_nat u - 1))) with u by lia.
  rewrite find_app_first. cbn [List.find].
  assert (Hb : backs b u c = true)
    by (unfold backs; rewrite Hcell; apply Z.eqb_refl).
  rewrite Hb.
  destruct (List.find (fun u' => backs b u' c) (units (Z.to_nat u - 1)))
    as [x|] eqn:Hf.
  - apply find_some in Hf. destruct Hf as [Hin Hx].
    assert (He : existsb (fun u' => backs b u' c) (units (Z.to_nat u - 1))
                 = true) by (apply existsb_exists; eauto).
    rewrite He. cbn [negb]. apply in_units in Hin.
    rewrite UNIT_TEST_VALUE_mod. apply Z.eqb_neq. intros Heq.
    apply UNIT_TEST_VALUE_inj in Heq; lia.
  - assert (He : existsb (fun u' => backs b u' c) (units (Z.to_nat u - 1))
                 = false).
    { destruct (existsb _ _) eqn:He; [|reflexivity].
      apply existsb_exists in He. destruct He as (x & Hin & Hx).
      rewrite (find_none _ _ Hf x Hin) in Hx. discriminate Hx. }
    rewrite He. cbn [negb]. rewrite UNIT_TEST_VALUE_mod. apply Z.eqb_refl.
Qed.

Lemma load32_set_ram_size b a v w :
  load32 b a (set_ram_size v w) = load32 b a w.
Proof. reflexivity. Qed.

(** The read loop stops at the first unit that does not answer. *)
Lemma read_units_spec b n : forall u w,
  Z.of_nat n = MAX_RAM_SIZE b - u + 1 -> 1 <= u ->
  (forall v, u <= v <= MAX_RAM_SIZE b ->
     (load32 b (UNIT_ADDRESS b v) w =? UNIT_TEST_VALUE v) = unit_answers b v) ->
  exists k,
    u - 1 <= k <= MAX_RAM_SIZE b /\
    ram_size (read_units b n u w)
    = (if k =? u - 1 then ram_size w else (k * RAM_UNIT_SIZE b) mod 2^32) /\
    ram_cells (read_units b n u w) = ram_cells w /\
    (forall v, u <= v <= k -> unit_answers b v = true) /\
    (k < MAX_RAM_SIZE b -> unit_answers b (k + 1) = false).
Proof.
  induction n as [|n IH]; intros u w Hn Hu Hload; cbn [read_units].
  - destruct (Z.leb_spec u (MAX_RAM_SIZE b)); [lia|].
    exists (u - 1). rewrite Z.eqb_refl.
    split_and!; [lia|lia|reflexivity|reflexivity|intros v Hv; lia|lia].
  - destruct (Z.leb_spec u (MAX_RAM_SIZE b)); [|lia].
    rewrite (Hload u) by lia.
    destruct (unit_answers b u) eqn:Ha.
    + destruct (IH (u + 1) (set_ram_size (u * RAM_UNIT_SIZE b) w))
        as (k & Hk & Hs & Hc & Hall & Hstop); [lia|lia| |].
      { intros v Hv. rewrite load32_set_ram_size. apply Hload. lia. }
      exists k. split_and!.
      * lia.
      * lia.
      * rewrite Hs. replace (u + 1 - 1) with u by lia.
        destruct (Z.eqb_spec k u) as [-> | Hne].
        -- destruct (Z.eqb_spec u (u - 1)); [lia|]. reflexivity.
        -- destruct (Z.eqb_spec k (u - 1)); [lia|]. reflexivity.
      * rewrite Hc. reflexivity.
      * intros v Hv. destruct (Z.eq_dec v u) as [-> | Hne]; [exact Ha|].
        apply Hall. lia.
      * exact Hstop.
    + exists (u - 1). rewrite Z.eqb_refl.
      split_and!; [lia|lia|reflexivity|reflexivity|intros v Hv; lia|].
      intros _. replace (u - 1 + 1) with u by lia. exact Ha.
Qed.

(** What q40_measure_ram_size finds. *)
Lemma measure_ram_size_spec b w :
  0 <= MAX_RAM_SIZE b < 2^16 ->
  exists k,
    0 <= k <= MAX_RAM_SIZE b /\
    ram_size (q40_measure_ram_size b w) = (k * RAM_UNIT_SIZE b) mod 2^32 /\
    (forall u, 1 <= u <= k -> unit_answers b u = true) /\
    (k < MAX_RAM_SIZE b -> unit_answers b (k + 1) = false) /\
    (forall c, lowest_unit b c (Z.to_nat (MAX_RAM_SIZE b)) = None ->
       ram_cells (q40_measure_ram_size b w) c = ram_cells w c).
Proof.
  intros HM. unfold q40_measure_ram_size.
  set (N := Z.to_nat (MAX_RAM_SIZE b)).
  assert (HN : MAX_RAM_SIZE b = Z.of_nat N) by (unfold N; lia).
  replace (write_units b N (MAX_RAM_SIZE b) (set_ram_size 0 w))
    with (write_units b N (Z.of_nat N) (set_ram_size 0 w))
    by (rewrite <- HN; reflexivity).
  destruct (write_units_spec b N (set_ram_size 0 w)) as [Hs Hc].
  destruct (read_units_spec b N 1
              (write_units b N (Z.of_nat N) (set_ram_size 0 w)))
    as (k & Hk & Hsize & Hcells & Hall & Hstop); [lia|lia| |].
  { intros v Hv. apply read_back_spec; lia. }
  exists k. split_and!; [lia|lia| |exact Hall|exact Hstop|].
  - rewrite Hsize, Hs. destruct (Z.eqb_spec k (1 - 1)) as [-> | _]; reflexivity.
  - intros c Hnone. rewrite Hcells, Hc, Hnone. reflexivity.
Qed.

(** X15: what the RAM sizing measures.  With at most 2^16 - 1 units, the
    size found is that of the units below the first one that does not give
    its test value back; a unit that a cell backs gives it back exactly when
    no lower unit shares the cell (the lower unit is written later and
    wins), a unit that nothing backs only if the floating bus shows the
    value.  No cell is written but those behind the last longword of a
    unit. *)
Theorem q40_measure_ram_size_first_silent_unit :
  forall (b : board) (w : ram_world),
  0 <= MAX_RAM_SIZE b < 2^16 ->
  exists k,
    0 <= k <= MAX_RAM_SIZE b /\
    ram_size (q40_measure_ram_size b w) = (k * RAM_UNIT_SIZE b) mod 2^32 /\
    (forall u, 1 <= u <= k -> unit_answers b u = true) /\
    (k < MAX_RAM_SIZE b -> unit_answers b (k + 1) = false) /\
    (forall c,
       (forall u, 1 <= u <= MAX_RAM_SIZE b ->
          ram_cell b (UNIT_ADDRESS b u) <> Some c) ->
       ram_cells (q40_measure_ram_size b w) c = ram_cells w c).
Proof.
  intros b w HM.
  destruct (measure_ram_size_spec b w HM) as (k & Hk & Hs & Hall & Hstop & Hf).
  exists k. split_and!; [lia|lia|exact Hs|exact Hall|exact Hstop|].
  intros c Hc. apply Hf. unfold lowest_unit.
  destruct (List.find _ _) as [x|] eqn:Hx; [|reflexivity].
  apply find_some in Hx. destruct Hx as [Hin Hb].
  apply in_units in Hin. unfold backs in Hb.
  destruct (ram_cell b (UNIT_ADDRESS b x)) as [c'|] eqn:Hcell;
    [|discriminate Hb].
  apply Z.eqb_eq in Hb. subst c'. exfalso. apply (Hc x); [lia|exact Hcell].
Qed.

(** X16: mirrored memory.  On a board with [K] units of memory fitted, whose
    cells answer again at every multiple of their size above, the sizing
    finds [K] units: the test longword of unit [K+1] is the one of unit 1,
    which is written last. *)
Theorem q40_measure_ram_size_mirrored :
  forall (b : board) (w : ram_world) (K : Z),
  1 <= K <= MAX_RAM_SIZE b -> MAX_RAM_SIZE b < 2^16 ->
  4 <= RAM_UNIT_SIZE b ->
  MAX_RAM_SIZE b * RAM_UNIT_SIZE b < 2^32 ->
  (forall a, ram_cell b a = Some (a mod (K * RAM_UNIT_SIZE b))) ->
  ram_size (q40_measure_ram_size b w) = K * RAM_UNIT_SIZE b.
Proof.
  intros b w K HK HM HU Hfit Hcell.
  set (U := RAM_UNIT_SIZE b) in *. set (M := MAX_RAM_SIZE b) in *.
  assert (Haddr : forall u, 1 <= u <= M -> UNIT_ADDRESS b u = u * U - 4).
  { intros u Hu. unfold UNIT_ADDRESS. fold U. apply Z.mod_small. nia. }
  assert (Hfit' : forall u, 1 <= u <= K ->
            ram_cell b (UNIT_ADDRESS b u) = Some (u * U - 4)).
  { intros u Hu. rewrite Hcell, Haddr by lia. f_equal.
    apply Z.mod_small. nia. }
  assert (Hans : forall u, 1 <= u <= K -> unit_answers b u = true).
  { intros u Hu. unfold unit_answers. rewrite (Hfit' u Hu).
    destruct (existsb _ _) eqn:He; [|reflexivity].
    apply existsb_exists in He. destruct He as (x & Hin & Hx).
    apply in_units in Hin. unfold backs in Hx.
    rewrite (Hfit' x) in Hx by lia. apply Z.eqb_eq in Hx. nia. }
  assert (Hmirror : K < M -> unit_answers b (K + 1) = false).
  { intros HKM. unfold unit_answers.
    rewrite Hcell, Haddr by lia.
    replace ((K + 1) * U - 4) with (U - 4 + 1 * (K * U)) by lia.
    rewrite Z.mod_add by nia. rewrite Z.mod_small by nia.
    assert (He : existsb (fun u' => backs b u' (U - 4))
                   (units (Z.to_nat (K + 1) - 1)) = true).
    { apply existsb_exists. exists 1. split; [apply in_units; lia|].
      unfold backs. rewrite (Hfit' 1) by lia.
      apply Z.eqb_eq. lia. }
    rewrite He. reflexivity. }
  destruct (measure_ram_size_spec b w ltac:(lia))
    as (k & Hk & Hs & Hall & Hstop & _).
  fold M U in Hk, Hs, Hstop.
  assert (k = K).
  { destruct (Z.lt_trichotomy k K) as [Hlt|[Heq|Hgt]]; [|exact Heq|].
    - rewrite Hans in Hstop by lia. specialize (Hstop ltac:(lia)).
      discriminate Hstop.
    - rewrite Hall in Hmirror by lia. specialize (Hmirror ltac:(lia)).
      discriminate Hmirror. }
  subst k. rewrite Hs. apply Z.mod_small. nia.
Qed.

(** * Properties of the timekeeper routines *)

Lemma registers_apart_eqb t i j :
  registers_apart t -> 0 <= i <= 7 -> 0 <= j <= 7 ->
  (Q40_RTC_REGISTER t i =? Q40_RTC_REGISTER t j) = (i =? j).
Proof.
  intros Hreg Hi Hj. destruct (Z.eqb_spec i j) as [-> | Hne].
  - apply Z.eqb_refl.
  - apply Z.eqb_neq. intros Heq. apply Hne. exact (Hreg i j Hi Hj Heq).
Qed.

Lemma last_access_app addr l1 l2 :
  last_access addr (l1 ++ l2)
  = match last_access addr l2 with
    | Some v => Some v
    | None => last_access addr l1
    end.
Proof.
  induction l1 as [|e l1 IH]; cbn [app last_access].
  - destruct (last_access addr l2); reflexivity.
  - rewrite IH. destruct (last_access addr l2); reflexivity.
Qed.

Lemma remembers_app : forall a seen b,
  remembers seen (a ++ b) = remembers seen a && remembers (seen ++ a) b.
Proof.
  induction a as [|e a IH]; intros seen b; cbn [app remembers].
  - rewrite app_nil_r. reflexivity.
  - assert (Hrest : remembers (seen ++ [e]) (a ++ b)
                    = remembers (seen ++ [e]) a
                      && remembers (seen ++ e :: a) b).
    { rewrite IH, <- app_assoc. reflexivity. }
    destruct e; rewrite ?Hrest; try reflexivity.
    rewrite andb_assoc. reflexivity.
Qed.

(** The small arithmetic of the control byte. *)
Lemma byte_high_bits c i :
  0 <= c < 256 -> 8 <= i -> Z.testbit c i = false.
Proof.
  intros Hc Hi. apply Z.bits_above_log2; [lia|].
  destruct (Z.eq_dec c 0) as [-> | Hne]; [cbn; lia|].
  apply Z.lt_le_trans with 8; [|exact Hi].
  apply Z.log2_lt_pow2; lia.
Qed.

Lemma lor_byte c k :
  0 <= c < 256 -> 0 <= k < 256 -> Z.lor c k mod 256 = Z.lor c k.
Proof.
  intros Hc Hk. change 256 with (2^8). apply Z.bits_inj'. intros i Hi.
  destruct (Z.ltb_spec i 8) as [Hlt|Hge].
  - apply Z.mod_pow2_bits_low. lia.
  - rewrite Z.mod_pow2_bits_high by lia.
    rewrite Z.lor_spec, !byte_high_bits by lia. reflexivity.
Qed.

Lemma control_bits c :
  0 <= c < 256 ->
  Z.land c (Z.lnot 0xC0) mod 256 = Z.land c 0x3F /\
  Z.lor c 0x40 mod 256 = Z.lor c 0x40 /\
  Z.lor c 0x80 mod 256 = Z.lor c 0x80 /\
  0 <= Z.land c 0x3F < 64.
Proof.
  intros Hc.
  assert (H3 : Z.land c 0x3F = c mod 64)
    by (change 0x3F with (Z.ones 6); apply Z.land_ones; lia).
  assert (Hr : 0 <= c mod 64 < 64) by (apply Z.mod_pos_bound; lia).
  assert (Hl : Z.land c (Z.lnot 0xC0) = Z.land c 0x3F).
  { apply Z.bits_inj'. intros i Hi. rewrite !Z.land_spec.
    destruct (Z.ltb_spec i 8) as [Hlt|Hge].
    - assert (Hcase : i = 0 \/ i = 1 \/ i = 2 \/ i = 3 \/ i = 4 \/ i = 5 \/
                      i = 6 \/ i = 7) by lia.
      destruct Hcase as [-> | [-> | [-> | [-> | [-> | [-> | [-> | ->]]]]]]];
        reflexivity.
    - rewrite (byte_high_bits c i) by lia. reflexivity. }
  split_and!.
  - rewrite Hl, H3. apply Z.mod_small. lia.
  - apply lor_byte; lia.
  - apply lor_byte; lia.
  - lia.
  - lia.
Qed.

Lemma rtc_at_byte t k : 0 <= rtc_at t k < 256.
Proof. unfold rtc_at. apply Z.mod_pos_bound. lia. Qed.

(** The two clock routines, run. *)
Lemma read_clock_run t w :
  let n := rtc_reads w in
  let R := Q40_RTC_REGISTER t in
  q40_rtc_read_clock t w =
  (mk_rtc_data (rtc_at t (S n)) (rtc_at t (S (S n))) (rtc_at t (S (S (S n))))
               (rtc_at t (S (S (S (S n)))))
               (rtc_at t (S (S (S (S (S n))))))
               (rtc_at t (S (S (S (S (S (S n)))))))
               (rtc_at t (S (S (S (S (S (S (S n)))))))),
   mk_rtc (S (S (S (S (S (S (S (S n))))))))
          (rtc_trace w ++
           [In8 (R 0) (rtc_at t n);
            Out8 (R 0) (Z.lor (rtc_at t n) 0x40);
            In8 (R 1) (rtc_at t (S n));
            In8 (R 2) (rtc_at t (S (S n)));
            In8 (R 3) (rtc_at t (S (S (S n))));
            In8 (R 4) (rtc_at t (S (S (S (S n)))));
            In8 (R 5) (rtc_at t (S (S (S (S (S n))))));
            In8 (R 6) (rtc_at t (S (S (S (S (S (S n)))))));
            In8 (R 7) (rtc_at t (S (S (S (S (S (S (S n))))))));
            Out8 (R 0) (Z.land (rtc_at t n) 0x3F)])).
Proof.
  intros n R.
  destruct (control_bits (rtc_at t n) (rtc_at_byte t n)) as (C1 & C2 & _ & _).
  unfold q40_rtc_read_clock, q40_rtc_read_control, q40_rtc_write_control,
    rtc_read, rtc_write.
  cbn [rtc_reads rtc_trace]. fold n. fold (rtc_at t n).
  rewrite C1, C2, <- !app_assoc. reflexivity.
Qed.

Lemma write_clock_run t d w :
  let n := rtc_reads w in
  let R := Q40_RTC_REGISTER t in
  q40_rtc_write_clock t d w =
  mk_rtc (S n)
         (rtc_trace w ++
          [In8 (R 0) (rtc_at t n);
           Out8 (R 0) (Z.lor (rtc_at t n) 0x80);
           Out8 (R 1) (second d mod 256);
           Out8 (R 2) (minute d mod 256);
           Out8 (R 3) (hour d mod 256);
           Out8 (R 4) (weekday d mod 256);
           Out8 (R 5) (day d mod 256);
           Out8 (R 6) (month d mod 256);
           Out8 (R 7) (year d mod 256);
           Out8 (R 0) (Z.land (rtc_at t n) 0x3F)]).
Proof.
  intros n R.
  destruct (control_bits (rtc_at t n) (rtc_at_byte t n)) as (C1 & _ & C3 & _).
  unfold q40_rtc_write_clock, q40_rtc_read_control, q40_rtc_write_control,
    rtc_read, rtc_write.
  cbn [rtc_reads rtc_trace]. fold n. fold (rtc_at t n).
  rewrite C1, C3, <- !app_assoc. reflexivity.
Qed.

Lemma rtc_events_since_app w w' evs :
  rtc_trace w' = rtc_trace w ++ evs -> rtc_events_since w w' = evs.
Proof.
  intros H. unfold rtc_events_since. rewrite H. apply drop_app_length.
Qed.

(** One step of [remembers] at a read. *)
Lemma remembers_read seen p v rest :
  remembers seen (In8 p v :: rest) = true ->
  (forall x, last_access p seen = Some x -> v = x) /\
  remembers (seen ++ [In8 p v]) rest = true.
Proof.
  cbn [remembers]. intros H. apply andb_true_iff in H. destruct H as [H1 H2].
  split; [|exact H2]. intros x Hx. rewrite Hx in H1.
  apply Z.eqb_eq. exact H1.
Qed.

Lemma remembers_write seen p v rest :
  remembers seen (Out8 p v :: rest) = remembers (seen ++ [Out8 p v]) rest.
Proof. reflexivity. Qed.

(** X17: the NVRAM.  An offset outside [0, Q40_RTC_NVRAM_SIZE) never reaches
    the chip: the read yields 0xff and the write does nothing.  Inside the
    range, on a chip that remembers, the byte read back at an offset is the
    byte (the low eight bits of the value) written there. *)
Theorem q40_rtc_nvram_round_trip :
  forall (t : timekeeper) (offset value : Z) (w : rtc_world),
  (offset < 0 \/ Q40_RTC_NVRAM_SIZE t <= offset ->
   q40_rtc_read_nvram t offset w = (0xff, w) /\
   q40_rtc_write_nvram t offset value w = w) /\
  (0 <= offset < Q40_RTC_NVRAM_SIZE t ->
   let w1 := q40_rtc_write_nvram t offset value w in
   let r := q40_rtc_read_nvram t offset w1 in
   rtc_events_since w (snd r)
   = [Out8 (Q40_RTC_NVRAM t offset) (value mod 256);
      In8 (Q40_RTC_NVRAM t offset) (fst r)] /\
   (remembers (rtc_trace w) (rtc_events_since w (snd r)) = true ->
    fst r = value mod 256)).
Proof.
  intros t offset value w. unfold q40_rtc_read_nvram, q40_rtc_write_nvram.
  split.
  - intros Hout.
    assert (Hg : (0 <=? offset) && (offset <? Q40_RTC_NVRAM_SIZE t) = false).
    { destruct (Z.leb_spec 0 offset), (Z.ltb_spec offset (Q40_RTC_NVRAM_SIZE t));
        try reflexivity; lia. }
    rewrite Hg. split; reflexivity.
  - intros Hin.
    assert (Hg : (0 <=? offset) && (offset <? Q40_RTC_NVRAM_SIZE t) = true).
    { destruct (Z.leb_spec 0 offset), (Z.ltb_spec offset (Q40_RTC_NVRAM_SIZE t));
        try reflexivity; lia. }
    rewrite Hg. cbv zeta.
    assert (He : rtc_events_since w
                   (snd (rtc_read t (Q40_RTC_NVRAM t offset)
                           (rtc_write (Q40_RTC_NVRAM t offset) value w)))
                 = [Out8 (Q40_RTC_NVRAM t offset) (value mod 256);
                    In8 (Q40_RTC_NVRAM t offset)
                        (fst (rtc_read t (Q40_RTC_NVRAM t offset)
                                (rtc_write (Q40_RTC_NVRAM t offset) value w)))]).
    { apply rtc_events_since_app. unfold rtc_read, rtc_write.
      cbn [snd fst rtc_trace rtc_reads]. rewrite <- app_assoc. reflexivity. }
    split; [exact He|]. rewrite He. clear He.
    rewrite remembers_write. intros H.
    apply remembers_read in H. destruct H as [H _]. apply H.
    rewrite last_access_app. cbn [last_access]. rewrite Z.eqb_refl.
    reflexivity.
Qed.

Lemma land_byte v m : 0 <= v < 256 -> Z.land v m mod 256 = Z.land v m.
Proof.
  intros Hv. change 256 with (2^8). apply Z.bits_inj'. intros i Hi.
  destruct (Z.ltb_spec i 8) as [Hlt|Hge].
  - apply Z.mod_pow2_bits_low. lia.
  - rewrite Z.mod_pow2_bits_high by lia.
    rewrite Z.land_spec, byte_high_bits by lia. reflexivity.
Qed.

Lemma rtc_data_eqb_spec a b : rtc_data_eqb a b = true <-> a = b.
Proof.
  unfold rtc_data_eqb. split.
  - intros H. repeat (apply andb_true_iff in H; destruct H as [H ?]).
    destruct a, b. cbn [second minute hour weekday day month year] in *.
    repeat match goal with E : (_ =? _) = true |- _ =>
             apply Z.eqb_eq in E end.
    congruence.
  - intros ->. rewrite !Z.eqb_refl. reflexivity.
Qed.

Lemma rtc_masked_idempotent d : rtc_masked (rtc_masked d) = rtc_masked d.
Proof.
  unfold rtc_masked. cbn [second minute hour weekday day month year].
  rewrite <- !Z.land_assoc, !Z.land_diag. reflexivity.
Qed.

(** The evaluation of [last_access] on a trace whose end is known. *)
Ltac known_access Hreg :=
  rewrite <- ?app_assoc; cbn [app];
  rewrite last_access_app; cbn [last_access];
  rewrite ?(registers_apart_eqb _ _ _ Hreg) by lia;
  cbn [Z.eqb Pos.eqb]; reflexivity.

Ltac read_step H Hreg E :=
  apply remembers_read in H;
  let K := fresh "K" in
  destruct H as [K H];
  match type of K with
  | forall x, last_access ?p ?s = Some x -> _ =>
      eassert (E : last_access p s = Some _) by known_access Hreg;
      apply K in E; clear K
  end.

(** X18: the clock, written and read back.  On a chip that remembers, and
    whose eight registers lie at eight addresses, q40_rtc_read_clock after
    q40_rtc_write_clock finds the seven bytes that were written, each in its
    own field.  The two routines leave the control register with READ and
    WRITE clear and its other bits as the first of them found them. *)
Theorem q40_rtc_clock_round_trip :
  forall (t : timekeeper) (d : q40_rtc_data_t) (w : rtc_world),
  registers_apart t -> rtc_bytes d ->
  let w1 := q40_rtc_write_clock t d w in
  let r := q40_rtc_read_clock t w1 in
  remembers (rtc_trace w) (rtc_events_since w (snd r)) = true ->
  fst r = d /\
  last (rtc_trace (snd r))
  = Some (Out8 (Q40_RTC_REGISTER t 0)
               (Z.land (rtc_at t (rtc_reads w)) 0x3F)).
Proof.
  intros t d w Hreg Hd w1 r. unfold r, w1.
  rewrite write_clock_run, read_clock_run. cbv zeta.
  cbn [fst snd rtc_reads rtc_trace].
  set (n := rtc_reads w). set (R := Q40_RTC_REGISTER t).
  unfold rtc_events_since. cbn [rtc_trace].
  rewrite <- app_assoc, drop_app_length.
  cbn [app]. intros H.
  apply remembers_read in H. destruct H as [_ H].
  rewrite !remembers_write in H.
  read_step H Hreg E9.
  rewrite !remembers_write in H.
  read_step H Hreg E1. read_step H Hreg E2. read_step H Hreg E3.
  read_step H Hreg E4. read_step H Hreg E5. read_step H Hreg E6.
  read_step H Hreg E7.
  destruct Hd as (B1 & B2 & B3 & B4 & B5 & B6 & B7).
  rewrite Z.mod_small in E1, E2, E3, E4, E5, E6, E7 by assumption.
  split.
  - rewrite E1, E2, E3, E4, E5, E6, E7. destruct d; reflexivity.
  - rewrite last_app. cbn [last]. rewrite E9.
    rewrite <- (Z.land_assoc _ 0x3F 0x3F). reflexivity.
Qed.

Ltac skip_read H :=
  apply remembers_read in H; destruct H as [_ H].

(** X19: the initialisation of the clock.  q40_rtc_init writes the clock
    only when a must-be-zero bit (the STOP bit of the seconds among them) is
    set in what it read: then it writes what it read with those bits
    cleared, the year as it was; otherwise it writes nothing but the control
    register.  Either way, on a chip that remembers and whose eight registers
    lie at eight addresses, the clock read afterwards is the clock read
    before with the must-be-zero bits clear, so that a further
    initialisation finds nothing to clear. *)
Theorem q40_rtc_init_clears_reserved_bits :
  forall (t : timekeeper) (w : rtc_world),
  registers_apart t ->
  let R := Q40_RTC_REGISTER t in
  let c := rtc_at t (rtc_reads w) in
  let c' := rtc_at t (rtc_reads w + 8) in
  let d0 := fst (q40_rtc_read_clock t w) in
  let w1 := q40_rtc_init t w in
  let r := q40_rtc_read_clock t w1 in
  (rtc_masked d0 = d0 ->
   out8_writes (rtc_events_since w w1)
   = [(R 0, Z.lor c 0x40); (R 0, Z.land c 0x3F)]) /\
  (rtc_masked d0 <> d0 ->
   out8_writes (rtc_events_since w w1)
   = [(R 0, Z.lor c 0x40); (R 0, Z.land c 0x3F); (R 0, Z.lor c' 0x80);
      (R 1, Z.land (second d0) 0x7F); (R 2, Z.land (minute d0) 0x7F);
      (R 3, Z.land (hour d0) 0x3F); (R 4, Z.land (weekday d0) 0x07);
      (R 5, Z.land (day d0) 0x3F); (R 6, Z.land (month d0) 0x1F);
      (R 7, year d0); (R 0, Z.land c' 0x3F)]) /\
  (remembers (rtc_trace w) (rtc_events_since w (snd r)) = true ->
   fst r = rtc_masked d0) /\
  rtc_masked (rtc_masked d0) = rtc_masked d0.
Proof.
  intros t w Hreg R c c' d0 w1 r.
  unfold r, w1, d0, q40_rtc_init, c'.
  replace (rtc_reads w + 8)%nat
    with (S (S (S (S (S (S (S (S (rtc_reads w))))))))) by lia.
  rewrite (read_clock_run t w). cbv zeta. cbn [fst snd].
  fold R c. set (n := rtc_reads w).
  match goal with |- context [rtc_data_eqb (rtc_masked ?x) ?x] =>
    set (d := x) end.
  assert (Hb : forall k m, Z.land (rtc_at t k) m mod 256
                           = Z.land (rtc_at t k) m)
    by (intros k m; apply land_byte, rtc_at_byte).
  assert (Hy : forall k, rtc_at t k mod 256 = rtc_at t k)
    by (intros k; apply Z.mod_small, rtc_at_byte).
  destruct (rtc_data_eqb (rtc_masked d) d) eqn:Hclean.
  - apply rtc_data_eqb_spec in Hclean. split_and!.
    + intros _. unfold rtc_events_since. cbn [rtc_trace].
      rewrite drop_app_length. reflexivity.
    + intros Hne. contradiction.
    + rewrite read_clock_run. cbv zeta. cbn [fst snd rtc_reads rtc_trace].
      fold R. unfold rtc_events_since. cbn [rtc_trace].
      rewrite <- app_assoc, drop_app_length. cbn [app]. intros H.
      skip_read H. rewrite !remembers_write in H.
      do 7 skip_read H. rewrite !remembers_write in H.
      read_step H Hreg E0. rewrite !remembers_write in H.
      read_step H Hreg E1. read_step H Hreg E2. read_step H Hreg E3.
      read_step H Hreg E4. read_step H Hreg E5. read_step H Hreg E6.
      read_step H Hreg E7.
      rewrite E1, E2, E3, E4, E5, E6, E7. fold d. symmetry. exact Hclean.
    + apply rtc_masked_idempotent.
  - split_and!.
    + intros He. rewrite He in Hclean.
      rewrite (proj2 (rtc_data_eqb_spec d d) eq_refl) in Hclean.
      discriminate Hclean.
    + intros _. rewrite write_clock_run. cbv zeta.
      cbn [rtc_reads rtc_trace]. fold R.
      unfold rtc_events_since. cbn [rtc_trace].
      rewrite <- app_assoc, drop_app_length.
      unfold d, rtc_masked.
      cbn [app out8_writes flat_map second minute hour weekday day month year].
      rewrite !Hb, Hy. reflexivity.
    + rewrite write_clock_run. cbv zeta. cbn [rtc_reads rtc_trace].
      rewrite read_clock_run. cbv zeta. cbn [fst snd rtc_reads rtc_trace].
      fold R. unfold rtc_events_since. cbn [rtc_trace].
      rewrite <- !app_assoc, drop_app_length. cbn [app]. intros H.
      skip_read H. rewrite !remembers_write in H.
      do 7 skip_read H. rewrite !remembers_write in H.
      skip_read H. rewrite !remembers_write in H.
      read_step H Hreg E0. rewrite !remembers_write in H.
      read_step H Hreg E1. read_step H Hreg E2. read_step H Hreg E3.
      read_step H Hreg E4. read_step H Hreg E5. read_step H Hreg E6.
      read_step H Hreg E7.
      rewrite E1, E2, E3, E4, E5, E6, E7.
      unfold d, rtc_masked.
      cbn [second minute hour weekday day month year].
      rewrite !Hb, Hy. reflexivity.
    + apply rtc_masked_idempotent.
Qed.

(** * Instances on the mock devices *)

Lemma gogoboot_disk_readwrite_bad_index_witness :
  gogoboot_disk_get_disk_count w_two <= 2 /\
  gogoboot_disk_read dev_ready 200 1 2 [] 0 1 w_two
  = Some (false, [], emit (Printf "bad disk %d\n" [ArgInt 2]) w_two) /\
  gogoboot_disk_write dev_ready 200 1 2 [] 0 1 w_two
  = Some (false, [], emit (Printf "bad disk %d\n" [ArgInt 2]) w_two).
Proof.
  assert (H : gogoboot_disk_get_disk_count w_two <= 2)
    by (unfold gogoboot_disk_get_disk_count; simpl; lia).
  split; [exact H|].
  pose proof (gogoboot_disk_readwrite_bad_index
                dev_ready 200 1 2 [] 0 1 w_two (or_intror H)) as T.
  split; [exact (proj1 T)|exact (proj1 (proj2 T))].
Defined.

Lemma gogoboot_disk_readwrite_no_sectors_witness :
  0 <= 1 < gogoboot_disk_get_disk_count w_two /\
  gogoboot_disk_readwrite dev_ready 200 1 1 [] 5 (-3) false w_two
  = Some (true, [], w_two).
Proof.
  assert (H : 0 <= 1 < gogoboot_disk_get_disk_count w_two)
    by (unfold gogoboot_disk_get_disk_count; simpl; lia).
  split; [exact H|].
  apply (gogoboot_disk_readwrite_no_sectors
           dev_ready 200 1 1 [] 5 (-3) false w_two H).
  lia.
Defined.

Lemma gogoboot_disk_wait_first_deciding_status_witness :
  exists w',
    gogoboot_disk_wait dev_slow 200 2 ctrl0 IDE_STATUS_READY w_empty
    = Some (true, w') /\
    status_reads w' = 2%nat.
Proof.
  apply (proj1 (gogoboot_disk_wait_first_deciding_status
                  dev_slow 200 1 2 ctrl0 IDE_STATUS_READY w_empty
                  ltac:(lia)
                  ltac:(intros [|i] Hi; [vm_compute; auto|lia]))).
  reflexivity.
Defined.

(** C3, as stated, fails: with the empty mask a status of 0x00 is an error
    pattern, and the wait that polls it returns success. *)
Lemma gogoboot_disk_wait_error_pattern_succeeds :
  wait_error (status_at dev_floating 0) = true /\
  option_map fst (gogoboot_disk_wait dev_floating 200 1 ctrl0 0 w_empty)
  = Some true.
Proof. split; reflexivity. Qed.

Lemma gogoboot_disk_wait_timeout_witness :
  exists w',
    gogoboot_disk_wait dev_busy 200 3 ctrl0 IDE_STATUS_READY w_empty
    = Some (false, w') /\
    status_reads w' = 3%nat /\
    tick_reads w' = 4%nat /\
    last (trace w') = Some (Printf "IDE timeout, status=%x\n" [ArgInt 0x80]).
Proof.
  refine (proj1 (gogoboot_disk_wait_timeout
                   dev_busy 200 2 3 ctrl0 IDE_STATUS_READY w_empty
                   (or_introl eq_refl) _ _ _ _ _)).
  - intros i. simpl. lia.
  - intros i _. split; reflexivity.
  - intros i Hi. simpl. lia.
  - simpl. lia.
  - lia.
Defined.

Lemma dev_ready_ready i :
  wait_success IDE_STATUS_READY (status_at dev_ready i) = true.
Proof. reflexivity. Qed.

Lemma dev_ready_data_request i :
  wait_success IDE_STATUS_DATAREQUEST (status_at dev_ready i) = true.
Proof. reflexivity. Qed.

Lemma w_two_valid_0 : 0 <= 0 < gogoboot_disk_get_disk_count w_two.
Proof. unfold gogoboot_disk_get_disk_count. simpl. lia. Qed.

Lemma gogoboot_disk_readwrite_chunks_witness :
  exists buf' w',
    gogoboot_disk_readwrite dev_ready 200 1 0 [] 0x01234567 600 true w_two
    = Some (true, buf', w') /\
    covers 0x01234567 600
      (map (fun c => (snd (fst c), snd c))
           (issued_commands (controller_regs 0x1f0) (events_since w_two w'))).
Proof.
  destruct (proj2 (gogoboot_disk_readwrite_chunks dev_ready 200)
              1%nat 0 [] 0x01234567 600 true w_two w_two_valid_0
              dev_ready_ready dev_ready_data_request ltac:(lia))
    as (buf' & w' & Hrun).
  exists buf', w'. split; [exact Hrun|].
  apply (proj1 (gogoboot_disk_readwrite_chunks dev_ready 200)
           1%nat 0 [] 0x01234567 600 true w_two 0x1f0 buf' w'
           w_two_valid_0 eq_refl ltac:(lia) ltac:(lia) ltac:(lia) Hrun).
Defined.

(** C1, as stated, fails beyond the 28-bit range: a request for the sector
    0x10000000 programs the LBA registers with sector 0. *)
Lemma gogoboot_disk_readwrite_lba_wraps :
  match gogoboot_disk_readwrite dev_ready 200 1 0 (repeat 0 512)
                                0x10000000 1 true w_two with
  | Some (r, _, w') =>
      r = true /\
      map (fun c => (snd (fst c), snd c))
          (issued_commands ctrl0 (events_since w_two w')) = [(0, 1)]
  | None => False
  end /\
  ~ covers 0x10000000 1 [(0, 1)].
Proof.
  split.
  - vm_compute. split; reflexivity.
  - simpl. intros (H & _). discriminate.
Qed.

Lemma gogoboot_disk_readwrite_abort_witness :
  exists w',
    gogoboot_disk_readwrite dev_no_drq 200 3 0 [] 0 600 false w_two
    = Some (false, [], w') /\
    command_writes ctrl0 (events_since w_two w')
    = [(command_reg ctrl0, IDE_CMD_READ_SECTOR)] /\
    data_words (events_since w_two w') = O.
Proof.
  apply (proj2 (proj2 (proj2 (proj2
                  (gogoboot_disk_readwrite_abort dev_no_drq 200))))
           3%nat 0 [] 0 600 false w_two 0x1f0 2%nat
           w_two_valid_0 eq_refl ltac:(lia) eq_refl
           (fun i _ => eq_refl) eq_refl ltac:(lia)).
Defined.

Lemma gogoboot_disk_readwrite_register_values_witness :
  (exists buf' w',
     gogoboot_disk_readwrite dev_ready 200 1 1 [] 0x01234567 1 false w_two
     = Some (true, buf', w') /\
     out8_writes (events_since w_two w') =
     [ (device_reg ctrl0, 0xF1); (lbah_reg ctrl0, 0x23);
       (lbam_reg ctrl0, 0x45); (lbal_reg ctrl0, 0x67);
       (nsect_reg ctrl0, 1); (command_reg ctrl0, IDE_CMD_READ_SECTOR) ]) /\
  (exists buf' w',
     gogoboot_disk_readwrite dev_ready 200 1 0 [] 0x01234567 300 true w_two
     = Some (true, buf', w') /\
     head (out8_writes (events_since w_two w'))
     = Some (device_reg ctrl0, 0xE1) /\
     nth 4 (out8_writes (events_since w_two w')) (0, 0)
     = (nsect_reg ctrl0, 0)).
Proof.
  assert (Hok0 : 0 <= 0 < gogoboot_disk_get_disk_count w_two)
    by (unfold gogoboot_disk_get_disk_count; simpl; lia).
  assert (Hok1 : 0 <= 1 < gogoboot_disk_get_disk_count w_two)
    by (unfold gogoboot_disk_get_disk_count; simpl; lia).
  split.
  - destruct (gogoboot_disk_readwrite_ready dev_ready 200 1 1 [] 0x01234567 1
                false w_two Hok1 dev_ready_ready dev_ready_data_request
                ltac:(lia)) as (buf' & w' & Hrun).
    destruct (proj1 (gogoboot_disk_readwrite_register_values dev_ready 200)
                1%nat 1 [] 0x01234567 1 false w_two true buf' w' Hok1 Hrun)
      as (cs & Hw & Hseq & Hfirst & Hsucc).
    exists buf', w'. split; [exact Hrun|].
    destruct (Hfirst ltac:(lia)) as (issued & rest & ->).
    destruct (Hsucc eq_refl) as [Hall _].
    apply Forall_cons in Hall. destruct Hall as [Hi _]. simpl in Hi.
    subst issued.
    destruct rest as [|[[s n] b] rest].
    + rewrite Hw. reflexivity.
    + simpl in Hseq. lia.
  - destruct (gogoboot_disk_readwrite_ready dev_ready 200 1 0 [] 0x01234567
                300 true w_two Hok0 dev_ready_ready dev_ready_data_request
                ltac:(lia)) as (buf' & w' & Hrun).
    exists buf', w'. split_and!.
    + exact Hrun.
    + apply (proj1 (proj1 (proj2 (proj2
               (gogoboot_disk_readwrite_register_values dev_ready 200)))
               1%nat 0 [] 300 true w_two true buf' w' Hok0 ltac:(lia) Hrun)).
      reflexivity.
    + apply (proj2 (proj2 (proj2
               (gogoboot_disk_readwrite_register_values dev_ready 200)))
               1%nat 0 [] 0x01234567 300 true w_two true buf' w' Hok0
               ltac:(lia) Hrun).
Defined.

Lemma sample_sector_bytes : Forall is_byte sample_sector.
Proof.
  apply Forall_forall. intros x Hx.
  apply list_elem_of_In, in_map_iff in Hx. destruct Hx as (i & <- & _).
  unfold is_byte. apply Z.mod_pos_bound. lia.
Qed.

Lemma sector_data_round_trip_witness :
  fst (gogoboot_disk_read_sector_data dev_echo ctrl0 (repeat 0 512) 0 w_empty)
  = sample_sector.
Proof.
  apply (sector_data_round_trip dev_echo ctrl0 ctrl0 sample_sector
           (repeat 0 512) w_two w_empty eq_refl sample_sector_bytes eq_refl).
  vm_compute. reflexivity.
Defined.

Lemma bytes_of_string_bytes s : Forall is_byte (bytes_of_string s).
Proof.
  apply Forall_forall. intros x Hx.
  apply list_elem_of_In, in_map_iff in Hx. destruct Hx as (c & <- & _).
  pose proof (Ascii.nat_ascii_bounded c). unfold is_byte. lia.
Qed.

Lemma gogoboot_disk_read_name_decodes_witness :
  c_string (gogoboot_disk_read_name
              (bytes_of_string "xxASPMELD SI K  yy") (repeat 7 20) 2 14)
  = strip_trailing_spaces
      (c_string (swap_pairs
                   (take 14 (drop 2 (bytes_of_string "xxASPMELD SI K  yy"))))).
Proof.
  refine (proj1 (proj2 (proj1 gogoboot_disk_read_name_decodes
                          (bytes_of_string "xxASPMELD SI K  yy")
                          (repeat 7 20) 2 14 _ _ eq_refl _ _ _))).
  - lia.
  - lia.
  - simpl. lia.
  - simpl. lia.
  - apply bytes_of_string_bytes.
Defined.

Lemma gogoboot_disk_table_init_rejects_without_lba_witness :
  exists w',
    gogoboot_disk_table_init dev_no_lba 200 4 1 1 ctrl0 0
                             (repeat 0 512) (repeat 0 41) w_two = Some w' /\
    last (trace w') = Some (Printf "LBA not supported.\n" []) /\
    disk_table w' = disk_table w_two /\
    gogoboot_disk_get_disk_count w' = gogoboot_disk_get_disk_count w_two.
Proof.
  pose proof (gogoboot_disk_table_init_rejects_without_lba
                dev_no_lba 200 4 1 1%nat ctrl0 0 (repeat 0 512)
                (repeat 0 41) w_two eq_refl) as [Hframe Hret].
  destruct (Hret (or_introl eq_refl) ltac:(lia) eq_refl eq_refl)
    as (w' & Hrun & Hlast).
  exists w'. split; [exact Hrun|]. split; [exact Hlast|].
  exact (Hframe w' Hrun).
Defined.

(** ** Instances of the further properties *)

Lemma gogoboot_disk_wait_only_reads_witness :
  exists w',
    gogoboot_disk_wait dev_slow 200 2 ctrl0 IDE_STATUS_READY w_empty
    = Some (true, w') /\
    List.filter is_register_access (events_since w_empty w')
    = [In8 (altstatus_reg ctrl0) 0x50; In8 (status_reg ctrl0) 0x80;
       In8 (status_reg ctrl0) 0x50].
Proof.
  eexists. split; [vm_compute; reflexivity|].
  apply (gogoboot_disk_wait_only_reads dev_slow 200 2 ctrl0
           IDE_STATUS_READY w_empty true).
  vm_compute. reflexivity.
Defined.

Lemma gogoboot_disk_wait_returns_by_deadline_witness :
  exists b w',
    gogoboot_disk_wait dev_busy 200 3 ctrl0 IDE_STATUS_READY w_empty
    = Some (b, w') /\
    (status_reads w' <= 3)%nat /\ (tick_reads w' <= 4)%nat.
Proof.
  apply (gogoboot_disk_wait_returns_by_deadline dev_busy 200 2 3 ctrl0
           IDE_STATUS_READY w_empty).
  - left. reflexivity.
  - lia.
  - change (3 * 200 < 900 <= 3 * 200 + 2 ^ 31). lia.
Defined.

Lemma gogoboot_disk_read_fills_buffer_witness :
  exists w',
    gogoboot_disk_read dev_echo 200 1 0 (repeat 0 512 ++ [7; 7]) 0 1 w_two
    = Some (true, sample_sector ++ [7; 7], w') /\
    received_bytes dev_echo 0 256 = sample_sector.
Proof.
  eexists. split; [vm_compute; reflexivity|].
  destruct (gogoboot_disk_read_fills_buffer dev_echo 200 1 0 (repeat 0 512)
              [7; 7] 0 1 w_two true (sample_sector ++ [7; 7]) _
              w_two_valid_0 ltac:(lia) eq_refl
              ltac:(vm_compute; reflexivity))
    as (done & _ & _ & _ & _ & Hok).
  destruct (Hok eq_refl) as [_ Hbuf].
  apply (app_inv_tail [7; 7]). symmetry. exact Hbuf.
Defined.

Lemma gogoboot_disk_write_sends_buffer_witness :
  exists w',
    gogoboot_disk_write dev_ready 200 1 0 sample_sector 0 1 w_two
    = Some (true, sample_sector, w') /\
    in16_values (events_since w_two w') = [] /\
    data_reads w' = O.
Proof.
  eexists. split; [vm_compute; reflexivity|].
  destruct (gogoboot_disk_write_sends_buffer dev_ready 200 1 0 sample_sector
              0 1 w_two true sample_sector _
              w_two_valid_0 ltac:(lia) ltac:(simpl; lia)
              ltac:(vm_compute; reflexivity))
    as (_ & Hin & Hd & _).
  split; [exact Hin|exact Hd].
Defined.

Lemma gogoboot_disk_readwrite_frame_witness :
  exists buf' w',
    gogoboot_disk_readwrite dev_no_drq 200 3 0 (repeat 0 512) 0 1 false w_two
    = Some (false, buf', w') /\
    same_globals w_two w' /\ length buf' = 512%nat.
Proof.
  do 2 eexists. split; [vm_compute; reflexivity|].
  destruct (gogoboot_disk_readwrite_frame dev_no_drq 200 3 0 (repeat 0 512)
              0 1 false w_two false _ _ ltac:(vm_compute; reflexivity))
    as (Hg & Hl & _).
  split; [exact Hg|exact Hl].
Defined.

Lemma gogoboot_disk_table_init_registry_witness :
  exists w',
    gogoboot_disk_table_init dev_lba 200 4 1 1 ctrl0 1
                             (repeat 0 512) (repeat 0 41) w_boot = Some w' /\
    gogoboot_disk_get_disk_count w' = 1 /\
    disk_table w' !! O = Some (mk_disk ctrl0 1 1000000 1).
Proof.
  eexists. split; [vm_compute; reflexivity|].
  destruct (gogoboot_disk_table_init_registry dev_lba 200 4 1 1 ctrl0 1
              (repeat 0 512) (repeat 0 41) w_boot _ eq_refl
              ltac:(vm_compute; reflexivity))
    as (_ & _ & [[_ Hu]|(_ & _ & _ & Ht & Hu & _)] & _).
  - vm_compute in Hu. discriminate Hu.
  - split; [exact Hu|]. rewrite Ht. reflexivity.
Defined.


Lemma gogoboot_disk_table_init_registers_witness :
  exists w',
    gogoboot_disk_table_init dev_lba 200 4 1 1 ctrl0 0
                             (repeat 0 512) (repeat 0 41) w_boot = Some w' /\
    gogoboot_get_disk_info 0 w' = Some (mk_disk ctrl0 0 1000000 1) /\
    gogoboot_get_disk_info 1 w' = None.
Proof.
  destruct (gogoboot_disk_table_init_registers dev_lba 200 4 1 1 ctrl0 0
              (repeat 0 512) (repeat 0 41) w_boot
              (or_introl eq_refl) ltac:(lia) eq_refl eq_refl eq_refl
              ltac:(vm_compute; reflexivity) ltac:(simpl; lia)
              ltac:(simpl; lia))
    as (w' & Hrun & _ & Hc & Hinfo & _ & Hnone).
  exists w'. split; [exact Hrun|]. split; [exact Hinfo|].
  rewrite Hc in Hnone. exact Hnone.
Defined.

Lemma gogoboot_disk_table_init_no_disk_witness :
  exists w',
    gogoboot_disk_table_init dev_floating 200 4 1 1 ctrl0 1
                             (repeat 0 512) (repeat 0 41) w_boot = Some w' /\
    out8_writes (events_since w_boot w') = [(device_reg ctrl0, 0xF0)] /\
    last (trace w') = Some (Printf "no disk found.\n" []).
Proof.
  destruct (proj1 (gogoboot_disk_table_init_no_disk dev_floating 200 4 1 1
                     ctrl0 1 (repeat 0 512) (repeat 0 41) w_boot
                     (or_intror eq_refl) ltac:(lia) eq_refl eq_refl))
    as (w' & Hrun & _ & Hw & _ & Hlast & _).
  exists w'. split_and!; assumption.
Defined.

Lemma gogoboot_disk_init_once_witness :
  exists w1,
    gogoboot_disk_init dev_floating 200 4 1 1 (repeat 0 512, repeat 0 41)
                       w_boot = Some w1 /\
    gogoboot_disk_init dev_ready 200 4 1 1 (repeat 0 512, repeat 0 41) w1
    = Some (printf "gogoboot_disk_init: already done?\n" [] w1).
Proof.
  eexists. split; [vm_compute; reflexivity|].
  apply (proj2 (gogoboot_disk_init_once dev_floating 200 4 1 1
                  (repeat 0 512, repeat 0 41) w_boot _
                  ltac:(vm_compute; reflexivity))
               1%nat (repeat 0 512, repeat 0 41)).
Defined.

Lemma gogoboot_disk_init_registry_witness :
  exists w' d0 d1,
    gogoboot_disk_init dev_lba 200 4 1 1 (repeat 0 512, repeat 0 41) w_boot
    = Some w' /\
    gogoboot_get_disk_info 0 w' = Some d0 /\ disk_disk d0 = 0 /\
    gogoboot_get_disk_info 1 w' = Some d1 /\ disk_disk d1 = 1.
Proof.
  set (w' := default w_boot
               (gogoboot_disk_init dev_lba 200 4 1 1
                  (repeat 0 512, repeat 0 41) w_boot)).
  assert (Hrun : gogoboot_disk_init dev_lba 200 4 1 1
                   (repeat 0 512, repeat 0 41) w_boot = Some w')
    by (vm_compute; reflexivity).
  destruct (gogoboot_disk_init_registry dev_lba 200 4 1 1
              (repeat 0 512, repeat 0 41) w_boot w' eq_refl
              ltac:(simpl; lia) ltac:(simpl; lia) Hrun)
    as (_ & _ & _ & _ & _ & _ & Hboth).
  destruct (Hboth ltac:(vm_compute; reflexivity))
    as (d0 & d1 & H0 & E0 & H1 & E1).
  exists w', d0, d1. split_and!; assumption.
Defined.


Lemma set_timer_ticks_window_witness :
  fst (set_timer_ticks dev_wrap 1 w_empty) = 0 /\
  fst (timer_expired dev_wrap (fst (set_timer_ticks dev_wrap 1 w_empty))
                     w_empty) = false /\
  fst (timer_expired dev_wrap (fst (set_timer_ticks dev_wrap 1 w_empty))
                     (after_tick_reads 1 w_empty)) = true.
Proof.
  destruct (set_timer_ticks_window dev_wrap 1 w_empty w_empty ltac:(lia))
    as (H1 & H2 & _).
  destruct (set_timer_ticks_window dev_wrap 1 w_empty
              (after_tick_reads 1 w_empty) ltac:(lia))
    as (_ & _ & H3 & _).
  split_and!.
  - exact H1.
  - apply H2. change (0 <= 1). lia.
  - apply H3. change (1 < 2 <= 1 + 2 ^ 31). lia.
Defined.

Lemma timer_wait_not_early_witness :
  exists w',
    timer_wait dev_busy 3 (fst (set_timer_ticks dev_busy 600 w_empty))
               (snd (set_timer_ticks dev_busy 600 w_empty)) = Some w' /\
    (tick_reads w' <= 4)%nat.
Proof.
  apply (proj2 (timer_wait_not_early dev_busy 600 3 w_empty ltac:(lia))
               2%nat ltac:(lia)).
  change (600 < 900 <= 600 + 2 ^ 31). lia.
Defined.

Lemma chip_registers_apart l : registers_apart (chip l).
Proof. intros i j Hi Hj H. cbn in H. lia. Qed.

Lemma q40_measure_ram_size_first_silent_unit_witness :
  exists k,
    0 <= k <= 32 /\
    ram_size (q40_measure_ram_size board_16mb ram_zero) = (k * 2^20) mod 2^32.
Proof.
  destruct (q40_measure_ram_size_first_silent_unit board_16mb ram_zero
              ltac:(simpl; lia)) as (k & Hk & Hs & _).
  exists k. split; assumption.
Defined.

Lemma q40_measure_ram_size_mirrored_witness :
  ram_size (q40_measure_ram_size board_16mb ram_zero) = 16 * 2^20.
Proof.
  apply (q40_measure_ram_size_mirrored board_16mb ram_zero 16).
  - simpl. lia.
  - simpl. lia.
  - simpl. lia.
  - simpl. lia.
  - intros a. reflexivity.
Defined.

Lemma q40_rtc_nvram_round_trip_witness :
  fst (q40_rtc_read_nvram (chip [0x5A]) 3
         (q40_rtc_write_nvram (chip [0x5A]) 3 0x15A rtc_empty)) = 0x5A /\
  q40_rtc_read_nvram (chip [0x5A]) 2040 rtc_empty = (0xff, rtc_empty).
Proof.
  split.
  - apply (proj2 (q40_rtc_nvram_round_trip (chip [0x5A]) 3 0x15A rtc_empty)).
    + simpl. lia.
    + reflexivity.
  - apply (proj1 (q40_rtc_nvram_round_trip (chip [0x5A]) 2040 0 rtc_empty)).
    right. simpl. lia.
Defined.

Lemma q40_rtc_clock_round_trip_witness :
  fst (q40_rtc_read_clock chip_clock
         (q40_rtc_write_clock chip_clock sample_clock rtc_empty))
  = sample_clock.
Proof.
  apply (q40_rtc_clock_round_trip chip_clock sample_clock rtc_empty).
  - apply chip_registers_apart.
  - unfold rtc_bytes, sample_clock. simpl. lia.
  - vm_compute. reflexivity.
Defined.

Lemma q40_rtc_init_clears_reserved_bits_witness :
  fst (q40_rtc_read_clock chip_stopped (q40_rtc_init chip_stopped rtc_empty))
  = sample_clock.
Proof.
  apply (proj1 (proj2 (proj2 (q40_rtc_init_clears_reserved_bits
                                chip_stopped rtc_empty
                                (chip_registers_apart _))))).
  vm_compute. reflexivity.
Defined.

Lemma gogoboot_disk_read_name_bounds_witness :
  drop 5 (gogoboot_disk_read_name [66; 65; 32; 32] [1; 2; 3; 4; 5; 6; 7] 0 4)
  = [6; 7] /\
  gogoboot_disk_read_name [66; 65; 32; 32] [1; 2; 3; 4; 5; 6; 7] 0 3
  = gogoboot_disk_read_name [66; 65; 32; 32] [1; 2; 3; 4; 5; 6; 7] 0 4.
Proof.
  destruct gogoboot_disk_read_name_bounds as (_ & Hodd & Heven).
  split.
  - assert (Hb : Forall is_byte [66; 65; 32; 32])
      by (unfold is_byte; repeat (constructor; [lia|]); constructor).
    destruct (Heven [66; 65; 32; 32] [1; 2; 3; 4; 5; 6; 7] 0 4
                ltac:(lia) ltac:(lia) eq_refl ltac:(simpl; lia)
                ltac:(simpl; lia) Hb) as (Hd & _).
    exact Hd.
  - apply (Hodd [66; 65; 32; 32] [1; 2; 3; 4; 5; 6; 7] 0 3); [lia|reflexivity].
Defined.

Lemma gogoboot_disk_write_read_round_trip_witness :
  exists w1 w3 dst',
    gogoboot_disk_write dev_echo 200 1 0 sample_sector 0 1 w_two
    = Some (true, sample_sector, w1) /\
    gogoboot_disk_read dev_echo 200 1 1 (repeat 0 512 ++ [7; 7]) 9 1 w_two
    = Some (true, dst', w3) /\
    dst' = sample_sector ++ [7; 7].
Proof.
  do 3 eexists. split; [vm_compute; reflexivity|].
  split; [vm_compute; reflexivity|].
  eapply (gogoboot_disk_write_read_round_trip dev_echo 200 1%nat 1%nat 0 1
            sample_sector (repeat 0 512) [7; 7] 0 9 1 w_two _ w_two _
            sample_sector).
  - exact w_two_valid_0.
  - unfold gogoboot_disk_get_disk_count. simpl. lia.
  - lia.
  - reflexivity.
  - exact sample_sector_bytes.
  - reflexivity.
  - vm_compute. reflexivity.
  - vm_compute. reflexivity.
  - vm_compute. reflexivity.
Defined.

Lemma registered_disk_is_addressed_witness :
  exists w' w3 buf' rest,
    gogoboot_disk_table_init dev_lba 200 4 1 1 ctrl0 0
                             (repeat 0 512) (repeat 0 41) w_boot = Some w' /\
    gogoboot_disk_readwrite dev_lba 200 1 0 (repeat 0 512) 0x01234567 1
                            false w' = Some (true, buf', w3) /\
    out8_writes (events_since w' w3)
    = [(device_reg ctrl0, 0xE0 + 1); (lbah_reg ctrl0, 0x23);
       (lbam_reg ctrl0, 0x45); (lbal_reg ctrl0, 0x67); (nsect_reg ctrl0, 1)]
      ++ rest.
Proof.
  set (w' := default w_boot
               (gogoboot_disk_table_init dev_lba 200 4 1 1 ctrl0 0
                  (repeat 0 512) (repeat 0 41) w_boot)).
  set (res := default (false, [], w_boot)
                (gogoboot_disk_readwrite dev_lba 200 1 0 (repeat 0 512)
                   0x01234567 1 false w')).
  assert (Hreg : registered 1 ctrl0 0 (received_bytes dev_lba 0 256)
                            w_boot w')
    by (unfold registered; split_and!; vm_compute; reflexivity).
  destruct (registered_disk_is_addressed dev_lba 200 1 1%nat ctrl0 0
              (received_bytes dev_lba 0 256) w_boot w' w' (snd res)
              (repeat 0 512) 0x01234567 1 false (fst (fst res))
              (snd (fst res)) Hreg ltac:(simpl; lia) ltac:(simpl; lia)
              ltac:(unfold same_globals; auto) ltac:(lia)
              ltac:(vm_compute; reflexivity))
    as (rest & Hrest).
  exists w', (snd res), (snd (fst res)), rest.
  split_and!; [vm_compute; reflexivity|vm_compute; reflexivity|exact Hrest].
Defined.
